(** * Sentiment feedback application: the React front end and the
      classification/aggregation core, embedded and checked against the
      written specification.

    Layout:
    - [JS]        : the fragment of ECMAScript strings the pages use
                    (UTF-16 code units, [trim], [toLowerCase], [substring]).
    - [Api]       : the requests of [services/api.js] that the pages issue.
    - [Feedback]  : [pages/Feedback.jsx] (validateForm / handleSubmit).
    - [Login], [Signup] : the two authentication forms.
    - [Number]    : ECMAScript Numbers as IEEE-754 binary64 values
                    ([SpecFloat] at precision 53) and [toFixed(1)].
    - [Admin]     : [pages/AdminDashboard.jsx] (comment cell, summary card).
    - [Sentiment] : vectorizer, naive-Bayes classifier, service and
                    aggregation engine of the back end.
    Definitions come first; the statements about them follow. *)

From stdpp Require Import base decidable option list gmap strings.
From Stdlib Require Import ZArith NArith QArith Qpower Lia Lqa.
From Stdlib Require Import Floats.SpecFloat.

Local Open Scope Z_scope.

(* ================================================================== *)
(** * ECMAScript strings *)
(* ================================================================== *)

Module JS.

(** A String value is a finite sequence of 16-bit code units; [length]
    counts code units. *)
Abbreviation jsstring := (list N).

(** A string literal of the source (all literals of the pages that are
    modelled here are ASCII). *)
Definition lit (s : string) : jsstring :=
  map Ascii.N_of_ascii (String.list_ascii_of_string s).

(** WhiteSpace and LineTerminator code points of ECMA-262: what
    [String.prototype.trim] strips and what [\s] matches. *)
Definition isWhiteSpace (c : N) : bool :=
  (existsb (N.eqb c)
     [9; 10; 11; 12; 13; 32; 160; 5760; 8232; 8233; 8239; 8287; 12288; 65279]
   || ((8192 <=? c) && (c <=? 8202)))%N.

Fixpoint trimStart (s : jsstring) : jsstring :=
  match s with
  | [] => []
  | c :: t => if isWhiteSpace c then trimStart t else s
  end.

Definition trimEnd (s : jsstring) : jsstring := rev (trimStart (rev s)).

(** [String.prototype.trim] *)
Definition trim (s : jsstring) : jsstring := trimEnd (trimStart s).

(** ** [String.prototype.toLowerCase] *)

(** Code units 0xD800..0xDBFF and 0xDC00..0xDFFF. *)
Definition isLeadingSurrogate (c : N) : bool :=
  ((55296 <=? c) && (c <=? 56319))%N.

Definition isTrailingSurrogate (c : N) : bool :=
  ((56320 <=? c) && (c <=? 57343))%N.

(** [UTF16SurrogatePairToCodePoint] *)
Definition surrogatePairToCodePoint (lead trail : N) : N :=
  ((lead - 55296) * 1024 + (trail - 56320) + 65536)%N.

(** [StringToCodePoints]: a leading surrogate followed by a trailing one
    is one code point; every other code unit, an unpaired surrogate too,
    is a code point of its own. *)
Fixpoint stringToCodePoints (s : jsstring) : list N :=
  match s with
  | [] => []
  | c :: t =>
      match t with
      | d :: u =>
          if isLeadingSurrogate c && isTrailingSurrogate d
          then surrogatePairToCodePoint c d :: stringToCodePoints u
          else c :: stringToCodePoints t
      | [] => [c]
      end
  end.

(** [UTF16EncodeCodePoint] *)
Definition utf16EncodeCodePoint (cp : N) : jsstring :=
  if (cp <=? 65535)%N then [cp]
  else [((cp - 65536) / 1024 + 55296)%N; ((cp - 65536) mod 1024 + 56320)%N].

(** [CodePointsToString] *)
Definition codePointsToString (cps : list N) : jsstring :=
  concat (map utf16EncodeCodePoint cps).

(** The case conversion of the host: [toLowercase] of the Unicode
    Default Case Conversion algorithm on a sequence of code points, with
    the locale-insensitive mappings of [UnicodeData.txt] and
    [SpecialCasing.txt].  These tables belong to the engine that runs
    the pages and change with its Unicode version; they are a parameter
    of everything that lowers a string. *)
Class UnicodeData := toLowercase : list N -> list N.

(** [String.prototype.toLowerCase]: the code points of the string are
    converted and encoded again; the result may be longer or shorter
    than the string. *)
Definition toLowerCase `{UnicodeData} (s : jsstring) : jsstring :=
  codePointsToString (toLowercase (stringToCodePoints s)).

(** ** Basic Latin *)

(** What every version of the tables does to a code point of Basic
    Latin: A..Z become a..z, the rest is kept. *)
Definition toLowerCaseUnit (c : N) : N :=
  if ((65 <=? c) && (c <=? 90))%N then (c + 32)%N else c.

Definition toLowerCaseBasicLatin (s : jsstring) : jsstring :=
  map toLowerCaseUnit s.

Definition isUpperUnit (c : N) : bool := ((65 <=? c) && (c <=? 90))%N.

(** A text of Basic Latin: every code unit is below 128. *)
Definition isBasicLatin (s : list N) : Prop := Forall (fun c => (c < 128)%N) s.

(** The one fact about the tables that statements on Basic Latin text
    rely on: such a text is converted code point by code point (no
    context rule and no special casing applies to it). *)
Definition basicLatinLowering `{UnicodeData} : Prop :=
  forall cps, isBasicLatin cps -> toLowercase cps = map toLowerCaseUnit cps.

(** A conversion that lowers Basic Latin and keeps every other code
    point; it stands in for the tables where sample data, all of Basic
    Latin, are evaluated. *)
Definition basicLatinOnly : UnicodeData := map toLowerCaseUnit.

(** [s.substring(0, n)]: the first [min n (length s)] code units. *)
Definition substring0 (n : nat) (s : jsstring) : jsstring := take n s.

(** ToBoolean on a string: the empty string is the only falsy one. *)
Definition truthy (s : jsstring) : bool :=
  match s with [] => false | _ => true end.

(** [Object.keys(o).length === 0] for an object used as a dictionary. *)
Definition noKeys (o : gmap string jsstring) : bool :=
  bool_decide (size o = 0%nat).

End JS.

Import JS.

(* ================================================================== *)
(** * services/api.js *)
(* ================================================================== *)

Module Api.

(** The POST requests issued by the three forms, with their JSON body. *)
Inductive Request :=
| submitFeedback (user_id : Z) (rating : Z) (comment : jsstring)
| signin (email password : jsstring)
| signup (name email password : jsstring).

(** The e-mail field of a request body, when it has one. *)
Definition emailOf (r : Request) : option jsstring :=
  match r with
  | submitFeedback _ _ _ => None
  | signin e _ => Some e
  | signup _ e _ => Some e
  end.

End Api.

(* ================================================================== *)
(** * pages/Feedback.jsx *)
(* ================================================================== *)

Module Feedback.

Record FormData := { rating : Z; comment : jsstring }.

(** A stored feedback as the back end returns it. *)
Record FeedbackItem := {
  fb_id : Z; fb_rating : Z; fb_comment : jsstring;
  fb_sentiment : jsstring; fb_created_at : jsstring }.

(** The [useState] cells of the component that its handlers read or
    write; the two cells that only drive the display ([hoverRating] and
    [loadingFeedbacks]) are left out. *)
Record State := {
  formData : FormData;
  loading : bool;
  error : jsstring;
  success : jsstring;
  formErrors : gmap string jsstring;
  sentimentResult : option jsstring;
  feedbacks : list FeedbackItem }.

Definition initial : State :=
  {| formData := {| rating := 0; comment := [] |};
     loading := false; error := []; success := [];
     formErrors := ∅; sentimentResult := None; feedbacks := [] |}.

(** The body of a [submitFeedback] response. *)
Record Response := {
  r_success : bool;
  r_message : jsstring;
  r_sentiment : jsstring;
  r_feedback : FeedbackItem }.

(** [validateForm]: the [errors] object it builds. *)
Definition validationErrors (fd : FormData) : gmap string jsstring :=
  let errors : gmap string jsstring := ∅ in
  let errors :=
    if Z.eqb (rating fd) 0
    then <["rating" := lit "Please select a rating"]> errors
    else errors in
  let errors :=
    if negb (truthy (trim (comment fd)))
    then <["comment" := lit "Please enter your feedback"]> errors
    else if (length (trim (comment fd)) <? 5)%nat
         then <["comment" := lit "Feedback must be at least 5 characters"]> errors
         else errors in
  errors.

(** [validateForm]: stores the errors and returns whether there is none. *)
Definition validateForm (st : State) : State * bool :=
  let errors := validationErrors (formData st) in
  ({| formData := formData st; loading := loading st; error := error st;
      success := success st; formErrors := errors;
      sentimentResult := sentimentResult st; feedbacks := feedbacks st |},
   noKeys errors).

(** [handleSubmit] up to its [await]: the next state and the request
    handed to [submitFeedback], if any. *)
Definition handleSubmit (user_id : Z) (st : State) : State * option Api.Request :=
  let '(st1, ok) := validateForm st in
  if negb ok then (st1, None)
  else
    ({| formData := formData st1; loading := true; error := [];
        success := []; formErrors := formErrors st1;
        sentimentResult := None; feedbacks := feedbacks st1 |},
     Some (Api.submitFeedback user_id (rating (formData st))
                              (trim (comment (formData st))))).

(** [handleSubmit] after the [await] resolved with a response body. *)
Definition handleResponse (r : Response) (st : State) : State :=
  if r_success r then
    {| formData := {| rating := 0; comment := [] |};
       loading := false; error := error st;
       success := lit "Feedback submitted successfully!";
       formErrors := formErrors st;
       sentimentResult := Some (r_sentiment r);
       feedbacks := r_feedback r :: feedbacks st |}
  else
    {| formData := formData st; loading := false;
       error := if truthy (r_message r) then r_message r
                else lit "Failed to submit feedback";
       success := success st; formErrors := formErrors st;
       sentimentResult := sentimentResult st; feedbacks := feedbacks st |}.

(** [handleSubmit] when the [await] threw: the [catch] and [finally]
    blocks. *)
Definition handleFailure (message : jsstring) (st : State) : State :=
  {| formData := formData st; loading := false;
     error := if truthy message then message
              else lit "An error occurred. Please try again.";
     success := success st; formErrors := formErrors st;
     sentimentResult := sentimentResult st; feedbacks := feedbacks st |}.

(** The [setTimeout] callback that clears the success message. *)
Definition clearSuccess (st : State) : State :=
  {| formData := formData st; loading := loading st; error := error st;
     success := []; formErrors := formErrors st;
     sentimentResult := sentimentResult st; feedbacks := feedbacks st |}.

(** [loadFeedbacks] after a successful response: the list is replaced. *)
Definition loadFeedbacks (fs : list FeedbackItem) (st : State) : State :=
  {| formData := formData st; loading := loading st; error := error st;
     success := success st; formErrors := formErrors st;
     sentimentResult := sentimentResult st; feedbacks := fs |}.

(** [handleChange] of the comment textarea (the only input wired to it). *)
Definition handleChange (value : jsstring) (st : State) : State :=
  {| formData := {| rating := rating (formData st); comment := value |};
     loading := loading st; error := []; success := success st;
     formErrors :=
       match formErrors st !! "comment" with
       | Some e => if truthy e then <["comment" := []]> (formErrors st)
                   else formErrors st
       | None => formErrors st
       end;
     sentimentResult := None; feedbacks := feedbacks st |}.

(** [handleRatingClick] *)
Definition handleRatingClick (r : Z) (st : State) : State :=
  {| formData := {| rating := r; comment := comment (formData st) |};
     loading := loading st; error := error st; success := success st;
     formErrors :=
       match formErrors st !! "rating" with
       | Some e => if truthy e then <["rating" := []]> (formErrors st)
                   else formErrors st
       | None => formErrors st
       end;
     sentimentResult := sentimentResult st; feedbacks := feedbacks st |}.

(** The stars rendered by [[1, 2, 3, 4, 5].map]. *)
Definition stars : list Z := [1; 2; 3; 4; 5].

(** What can happen to the component. *)
Inductive Event :=
| Change (value : jsstring)
| RatingClick (star : Z)
| Submit (user_id : Z)
| Respond (r : Response)
| Fail (message : jsstring)
| SuccessTimeout
| Loaded (fs : list FeedbackItem).

Definition step (e : Event) (st : State) : State :=
  match e with
  | Change v => handleChange v st
  | RatingClick s => handleRatingClick s st
  | Submit u => fst (handleSubmit u st)
  | Respond r => handleResponse r st
  | Fail m => handleFailure m st
  | SuccessTimeout => clearSuccess st
  | Loaded fs => loadFeedbacks fs st
  end.

(** An event the rendered page can deliver: a star click carries one of
    the five rendered stars. *)
Definition deliverable (e : Event) : Prop :=
  match e with
  | RatingClick s => s ∈ stars
  | _ => True
  end.

Inductive reachable : State -> Prop :=
| reach_init : reachable initial
| reach_step e st : reachable st -> deliverable e -> reachable (step e st).

End Feedback.

(* ================================================================== *)
(** * pages/Login.jsx *)
(* ================================================================== *)

Module Login.

Record FormData := { email : jsstring; password : jsstring }.

Record State := {
  formData : FormData;
  loading : bool;
  error : jsstring;
  formErrors : gmap string jsstring }.

Definition initial : State :=
  {| formData := {| email := []; password := [] |};
     loading := false; error := []; formErrors := ∅ |}.

(** [validateForm]: the [errors] object it builds. *)
Definition validationErrors (fd : FormData) : gmap string jsstring :=
  let errors : gmap string jsstring := ∅ in
  let errors :=
    if negb (truthy (trim (email fd)))
    then <["email" := lit "Email is required"]> errors else errors in
  let errors :=
    if negb (truthy (password fd))
    then <["password" := lit "Password is required"]> errors else errors in
  errors.

Definition validateForm (st : State) : State * bool :=
  let errors := validationErrors (formData st) in
  ({| formData := formData st; loading := loading st; error := error st;
      formErrors := errors |},
   noKeys errors).

(** [handleSubmit] up to its [await]. *)
Definition handleSubmit `{UnicodeData} (st : State) : State * option Api.Request :=
  let '(st1, ok) := validateForm st in
  if negb ok then (st1, None)
  else
    ({| formData := formData st1; loading := true; error := [];
        formErrors := formErrors st1 |},
     Some (Api.signin (toLowerCase (trim (email (formData st))))
                      (password (formData st)))).

End Login.

(* ================================================================== *)
(** * pages/Signup.jsx *)
(* ================================================================== *)

Module Signup.

Record FormData := {
  name : jsstring; email : jsstring;
  password : jsstring; confirmPassword : jsstring }.

Record State := {
  formData : FormData;
  loading : bool;
  error : jsstring;
  success : jsstring;
  formErrors : gmap string jsstring }.

Definition initial : State :=
  {| formData := {| name := []; email := []; password := [];
                    confirmPassword := [] |};
     loading := false; error := []; success := []; formErrors := ∅ |}.

(** The character class [[^\s@]]. *)
Definition notSpaceNorAt (c : N) : bool :=
  negb (isWhiteSpace c) && negb (c =? 64)%N.

Fixpoint span (p : N -> bool) (s : jsstring) : jsstring * jsstring :=
  match s with
  | [] => ([], [])
  | c :: t => if p c then let '(a, b) := span p t in (c :: a, b)
              else ([], s)
  end.

(** [emailRegex.test] for [/^[^\s@]+@[^\s@]+\.[^\s@]+$/]: a non-empty
    run of the class, an [@], and then only characters of the class with
    a dot that is neither the first nor the last of them. *)
Definition emailRegex_test (s : jsstring) : bool :=
  match span notSpaceNorAt s with
  | (_ :: _, 64%N :: rest) =>
      forallb notSpaceNorAt rest
      && existsb (N.eqb 46) (removelast (tail rest))
  | _ => false
  end.

(** [validateForm]: the [errors] object it builds. *)
Definition validationErrors (fd : FormData) : gmap string jsstring :=
  let errors : gmap string jsstring := ∅ in
  let errors :=
    if negb (truthy (trim (name fd)))
    then <["name" := lit "Name is required"]> errors
    else if (length (trim (name fd)) <? 2)%nat
         then <["name" := lit "Name must be at least 2 characters"]> errors
         else errors in
  let errors :=
    if negb (truthy (trim (email fd)))
    then <["email" := lit "Email is required"]> errors
    else if negb (emailRegex_test (email fd))
         then <["email" := lit "Please enter a valid email"]> errors
         else errors in
  let errors :=
    if negb (truthy (password fd))
    then <["password" := lit "Password is required"]> errors
    else if (length (password fd) <? 6)%nat
         then <["password" := lit "Password must be at least 6 characters"]> errors
         else errors in
  let errors :=
    if negb (truthy (confirmPassword fd))
    then <["confirmPassword" := lit "Please confirm your password"]> errors
    else if negb (bool_decide (password fd = confirmPassword fd))
         then <["confirmPassword" := lit "Passwords do not match"]> errors
         else errors in
  errors.

Definition validateForm (st : State) : State * bool :=
  let errors := validationErrors (formData st) in
  ({| formData := formData st; loading := loading st; error := error st;
      success := success st; formErrors := errors |},
   noKeys errors).

(** [handleSubmit] up to its [await]. *)
Definition handleSubmit `{UnicodeData} (st : State) : State * option Api.Request :=
  let '(st1, ok) := validateForm st in
  if negb ok then (st1, None)
  else
    ({| formData := formData st1; loading := true; error := [];
        success := []; formErrors := formErrors st1 |},
     Some (Api.signup (trim (name (formData st)))
                      (toLowerCase (trim (email (formData st))))
                      (password (formData st)))).

End Signup.

(* ================================================================== *)
(** * ECMAScript Numbers *)
(* ================================================================== *)

Module Number.

(** A Number is an IEEE-754 binary64 value; the arithmetic operators
    round to nearest, ties to even. *)
Definition prec : Z := 53.
Definition emax : Z := 1024.

Abbreviation number := spec_float.

(** The Number denoted by an integer numeral (exact below 2^53). *)
Definition ofZ (z : Z) : number := binary_normalize prec emax z 0 false.

(** [x / y], [x * y] and [x > y] *)
Definition div (x y : number) : number := SFdiv prec emax x y.
Definition mul (x y : number) : number := SFmul prec emax x y.
Definition gt (x y : number) : bool := SFltb y x.

(** The exact rational value of a finite Number. *)
Definition toQ (x : number) : Q :=
  match x with
  | S754_finite s m e =>
      let v := (inject_Z (Zpos m) * Qpower 2 e)%Q in
      if s then Qopp v else v
  | _ => 0%Q
  end.

(** Decimal digits of a non-negative integer, most significant first. *)
Fixpoint digitsAux (fuel : nat) (n : Z) (acc : jsstring) : jsstring :=
  match fuel with
  | O => acc
  | S fuel' =>
      let acc' := (48 + Z.to_N (n mod 10))%N :: acc in
      if n <? 10 then acc' else digitsAux fuel' (n / 10) acc'
  end.

Definition decimal (n : Z) : jsstring :=
  digitsAux (S (Z.to_nat (Z.log2 n))) n [].

(** Step 8 of [Number.prototype.toFixed] for a positive finite value
    [m * 2^e] and [f] fraction digits: the integer [n] for which
    [n / 10^f - x] is as close to zero as possible, the larger one when
    there are two. *)
Definition scaledNearest (f : nat) (m : positive) (e : Z) : Z :=
  if 0 <=? e then 10 ^ Z.of_nat f * Zpos m * 2 ^ e
  else (2 * 10 ^ Z.of_nat f * Zpos m + 2 ^ (- e)) / 2 ^ (1 - e).

(** Steps 8-10: the digits of [n], padded with zeroes to more than [f]
    digits, with a point before the last [f] of them. *)
Definition fixedDigits (f : nat) (n : Z) : jsstring :=
  let m := if n =? 0 then lit "0" else decimal n in
  match f with
  | O => m
  | _ =>
      let m := if (length m <=? f)%nat
               then replicate (f + 1 - length m) 48%N ++ m else m in
      let k := length m in
      take (k - f) m ++ lit "." ++ drop (k - f) m
  end.

(** [x.toFixed(f)].  Values of 10^21 and more are printed by
    [Number::toString] in exponent notation, which is outside this
    model: the result is [None] there. *)
Definition toFixed (f : nat) (x : number) : option jsstring :=
  match x with
  | S754_nan => Some (lit "NaN")
  | S754_infinity s => Some (if s then lit "-Infinity" else lit "Infinity")
  | S754_zero _ => Some (fixedDigits f 0)
  | S754_finite s m e =>
      if Qle_bool (10 ^ 21) (toQ (S754_finite false m e)) then None
      else Some ((if s then lit "-" else []) ++ fixedDigits f (scaledNearest f m e))
  end.

End Number.

(* ================================================================== *)
(** * pages/AdminDashboard.jsx *)
(* ================================================================== *)

Module Admin.

(** The [summary] state cell: the counts sent by [/api/admin/summary]. *)
Record Summary := {
  Positive : Z; Negative : Z; Neutral : Z; Total : Z }.

(** The initial value given to [useState]. *)
Definition initialSummary : Summary :=
  {| Positive := 0; Negative := 0; Neutral := 0; Total := 0 |}.

(** The comment cell of the feedback table. *)
Definition commentCell (comment : jsstring) : jsstring :=
  if (100 <? length comment)%nat
  then substring0 100 comment ++ lit "..."
  else comment.

(** [((count / total) * 100)]: the Number handed to [toFixed]. *)
Definition percentage (count total : Z) : Number.number :=
  Number.mul (Number.div (Number.ofZ count) (Number.ofZ total))
             (Number.ofZ 100).

(** [{((count / total) * 100).toFixed(1)}%] *)
Definition percentCell (count total : Z) : option jsstring :=
  match Number.toFixed 1 (percentage count total) with
  | Some s => Some (s ++ lit "%")
  | None => None
  end.

(** The four stat cards: [{summary.Total}], [{summary.Positive}], ... *)
Definition statCards (s : Summary) : list jsstring :=
  map (fun n => if n =? 0 then lit "0" else Number.decimal n)
      [Total s; Positive s; Negative s; Neutral s].

(** The grid under "Sentiment Analysis Summary":
    [summary.Total > 0 && ( ... )].  [None] when nothing is rendered,
    otherwise the three percentage cells in source order. *)
Definition summaryGrid (s : Summary)
  : option (option jsstring * option jsstring * option jsstring) :=
  if Number.gt (Number.ofZ (Total s)) (Number.ofZ 0)
  then Some (percentCell (Positive s) (Total s),
             percentCell (Negative s) (Total s),
             percentCell (Neutral s) (Total s))
  else None.

(** The integer number of tenths shown by a percentage cell, for a
    positive finite percentage: the [n] of [toFixed(1)]. *)
Definition shownTenths (count total : Z) : option Z :=
  match percentage count total with
  | S754_zero _ => Some 0
  | S754_finite false m e => Some (Number.scaledNearest 1 m e)
  | _ => None
  end.

End Admin.

(* ================================================================== *)
(** * The classification and aggregation core *)
(* ================================================================== *)

(** The back end ([sentiment_model.py] and the summary route of
    [app.py]) is not among the sources; its operations are modelled from
    the written specification, section by section. *)

Module Sentiment.

(** Modelled from the spec: the label enumeration of section 3, which
    [sentiment_model.py] (missing) produces. *)
Inductive SentimentLabel := Positive | Negative | Neutral.

#[export] Instance SentimentLabel_eq_dec : EqDecision SentimentLabel.
Proof. solve_decision. Defined.

(** Modelled from the spec: the fixed class precedence order
    (Positive, Negative, Neutral) of section 4.2, used by the missing
    [predict]. *)
Definition precedence : list SentimentLabel := [Positive; Negative; Neutral].

Definition rank (c : SentimentLabel) : nat :=
  match c with Positive => 0 | Negative => 1 | Neutral => 2 end.

(** Modelled from the spec: an example of the reference corpus
    (section 3); the corpus itself is missing. *)
Record TrainingExample := { text : string; label : SentimentLabel }.

(** ** Vectorizer *)

(** Modelled from the spec: the vocabulary of the missing vectorizer is
    an ordered mapping from token to a dense index; the token at
    position [i] has index [i]. *)
Abbreviation Vocabulary := (list string).

(** Modelled from the spec: a feature vector of the missing vectorizer
    is a dense array of occurrence counts, one entry per vocabulary
    token. *)
Abbreviation FeatureVector := (list nat).

Definition isUpper (a : Ascii.ascii) : bool :=
  let n := Ascii.N_of_ascii a in ((65 <=? n) && (n <=? 90))%N.

Definition isAlnum (a : Ascii.ascii) : bool :=
  let n := Ascii.N_of_ascii a in
  (((48 <=? n) && (n <=? 57)) || ((65 <=? n) && (n <=? 90))
   || ((97 <=? n) && (n <=? 122)))%N.

Definition lower (a : Ascii.ascii) : Ascii.ascii :=
  if isUpper a then Ascii.ascii_of_N (Ascii.N_of_ascii a + 32) else a.

(** A pending run of alphanumeric characters (kept reversed) becomes a
    token unless it is empty. *)
Definition flush (cur : list Ascii.ascii) : list string :=
  match cur with
  | [] => []
  | _ => [String.string_of_list_ascii (rev cur)]
  end.

Fixpoint tokensFrom (cur : list Ascii.ascii) (s : list Ascii.ascii) : list string :=
  match s with
  | [] => flush cur
  | a :: t =>
      if isAlnum a then tokensFrom (lower a :: cur) t
      else flush cur ++ tokensFrom [] t
  end.

(** Modelled from the spec: the normalisation of the missing vectorizer
    (section 4.1) - lowercase, split on non-alphanumeric characters,
    discard empty tokens.  Letters and digits are those of ASCII. *)
Definition tokenize (text : string) : list string :=
  tokensFrom [] (String.list_ascii_of_string text).

Definition addToken (v : Vocabulary) (t : string) : Vocabulary :=
  if bool_decide (t ∈ v) then v else v ++ [t].

(** Modelled from the spec: the missing [Vectorizer.fit] of section 4.1
    - every distinct token gets the next free index in discovery
    order. *)
Definition fitVocabulary (texts : list string) : Vocabulary :=
  fold_left addToken (concat (map tokenize texts)) [].

Definition occurrences (t : string) (ts : list string) : nat :=
  length (filter (fun u => u = t) ts).

(** Modelled from the spec: the missing [Vectorizer.transform] of
    section 4.1 - entry [i] is the number of times the token of index
    [i] occurs in the text; unknown tokens are ignored. *)
Definition transform (text : string) (vocabulary : Vocabulary) : FeatureVector :=
  map (fun t => occurrences t (tokenize text)) vocabulary.

(** ** Classifier *)

(** Modelled from the spec: the trained parameters of the missing
    classifier (section 3) - the smoothed log-probability of each class
    and of each vocabulary token given each class. *)
Record Model := {
  class_log_prior : SentimentLabel -> Q;
  feature_log_prob : SentimentLabel -> list Q }.

(** The contribution of the tokens: a sum over the entries with a
    non-zero count only. *)
Fixpoint tokenScore (v : FeatureVector) (logp : list Q) : Q :=
  match v, logp with
  | n :: v', p :: logp' =>
      ((if Nat.eqb n 0 then 0 else inject_Z (Z.of_nat n) * p)
       + tokenScore v' logp')%Q
  | _, _ => 0%Q
  end.

(** Modelled from the spec: the score of the missing [predict],
    [score(c) = log P(c) + sum_t count(t) * log P(t|c)]. *)
Definition score (m : Model) (v : FeatureVector) (c : SentimentLabel) : Q :=
  (class_log_prior m c + tokenScore v (feature_log_prob m c))%Q.

(** A later class of the precedence order replaces the current best only
    with a strictly greater score. *)
Definition better (f : SentimentLabel -> Q) (best c : SentimentLabel) : SentimentLabel :=
  if Qle_bool (f c) (f best) then best else c.

Definition argmaxFirst (f : SentimentLabel -> Q) : SentimentLabel :=
  fold_left (better f) [Negative; Neutral] Positive.

(** Modelled from the spec: the missing [Classifier.predict] of section
    4.2 - the class of maximal score, the first of the precedence order
    among tied maxima. *)
Definition predict (m : Model) (v : FeatureVector) : SentimentLabel :=
  argmaxFirst (score m v).

(** ** Training *)

Section Training.

(** The logarithm used to move to log-space. *)
Variable ln : Q -> Q.

(** Modelled from the spec: the move to log-space of the missing
    [Classifier.fit] (section 4.2).  A probability of zero has no
    logarithm; this is what the smoothing is there to exclude. *)
Definition logProb (p : Q) : option Q :=
  if Qle_bool p 0 then None else Some (ln p).

Definition examplesOf (c : SentimentLabel)
    (vectors : list FeatureVector) (labels : list SentimentLabel)
  : list FeatureVector :=
  map fst (filter (fun vl => snd vl = c) (zip vectors labels)).

(** Modelled from the spec: the prior of the missing [Classifier.fit],
    [P(c) = count(c) / total_examples]. *)
Definition prior (labels : list SentimentLabel) (c : SentimentLabel) : Q :=
  (inject_Z (Z.of_nat (length (filter (fun l => l = c) labels)))
   / inject_Z (Z.of_nat (length labels)))%Q.

Definition tokenSum (i : nat) (vs : list FeatureVector) : nat :=
  foldr (fun v acc => (nth i v 0 + acc)%nat) 0%nat vs.

Definition tokenTotal (vs : list FeatureVector) : nat :=
  foldr (fun v acc => (foldr Nat.add 0 v + acc)%nat) 0%nat vs.

(** Modelled from the spec: the add-one smoothing of the missing
    [Classifier.fit],
    [P(t|c) = (count of t in class c + 1) / (tokens of class c + |vocabulary|)]. *)
Definition likelihood (size : nat) (vs : list FeatureVector) (i : nat) : Q :=
  (inject_Z (Z.of_nat (tokenSum i vs + 1))
   / inject_Z (Z.of_nat (tokenTotal vs + size)))%Q.

(** The parameters of one class: the logarithm of its prior and of the
    likelihood of every vocabulary token. *)
Definition fitClass (size : nat)
    (vectors : list FeatureVector) (labels : list SentimentLabel)
    (c : SentimentLabel) : option (Q * list Q) :=
  match logProb (prior labels c),
        mapM (fun i => logProb (likelihood size (examplesOf c vectors labels) i))
             (seq 0 size) with
  | Some lp, Some ll => Some (lp, ll)
  | _, _ => None
  end.

(** Modelled from the spec: the missing [Classifier.fit] of section
    4.2.  It fails when a probability has no logarithm: a class without
    examples has prior zero, the configuration error of that section. *)
Definition fitClassifier (size : nat)
    (vectors : list FeatureVector) (labels : list SentimentLabel)
  : option Model :=
  match fitClass size vectors labels Positive,
        fitClass size vectors labels Negative,
        fitClass size vectors labels Neutral with
  | Some p, Some n, Some u =>
      let params c :=
        match c with Positive => p | Negative => n | Neutral => u end in
      Some {| class_log_prior := fun c => fst (params c);
              feature_log_prob := fun c => snd (params c) |}
  | _, _, _ => None
  end.

End Training.

(** ** Sentiment service *)

Record Service := { vocabulary : Vocabulary; model : Model }.

(** Modelled from the spec: the initialisation of the missing service
    (section 4.3) - fit the vectorizer, transform the corpus, fit the
    classifier; no service on failure. *)
Definition initialize (ln : Q -> Q) (corpus : list TrainingExample) : option Service :=
  let texts := map text corpus in
  let vocab := fitVocabulary texts in
  match fitClassifier ln (length vocab)
          (map (fun t => transform t vocab) texts) (map label corpus) with
  | Some m => Some {| vocabulary := vocab; model := m |}
  | None => None
  end.

(** Modelled from the spec: a model is used with the vocabulary it was
    fit with (section 3: the two are inseparable, using one without the
    other is undefined) - the vector has one entry per token for which
    the model holds a likelihood, in every class. *)
Definition fits (m : Model) (v : FeatureVector) : bool :=
  forallb (fun c => Nat.eqb (length (feature_log_prob m c)) (length v))
          precedence.

(** Modelled from the spec: the missing [classify] of section 4.3 -
    transform the text through the held vocabulary and predict.  There
    is no label where the prediction is undefined. *)
Definition classify (text : string) (svc : Service) : option SentimentLabel :=
  let v := transform text (vocabulary svc) in
  if fits (model svc) v then Some (predict (model svc) v) else None.

(** ** Aggregation engine *)

Definition countOf (c : SentimentLabel) (labels : list SentimentLabel) : Z :=
  Z.of_nat (length (filter (fun l => l = c) labels)).

(** Modelled from the spec: the missing [summarize] of section 4.4 -
    the counts of the three labels and the length of the input; this is
    the summary object the dashboard receives. *)
Definition summarize (labels : list SentimentLabel) : Admin.Summary :=
  {| Admin.Positive := countOf Positive labels;
     Admin.Negative := countOf Negative labels;
     Admin.Neutral := countOf Neutral labels;
     Admin.Total := Z.of_nat (length labels) |}.

(** The summary with one more record of label [c]. *)
Definition bump (c : SentimentLabel) (s : Admin.Summary) : Admin.Summary :=
  match c with
  | Positive =>
      {| Admin.Positive := Admin.Positive s + 1; Admin.Negative := Admin.Negative s;
         Admin.Neutral := Admin.Neutral s; Admin.Total := Admin.Total s + 1 |}
  | Negative =>
      {| Admin.Positive := Admin.Positive s; Admin.Negative := Admin.Negative s + 1;
         Admin.Neutral := Admin.Neutral s; Admin.Total := Admin.Total s + 1 |}
  | Neutral =>
      {| Admin.Positive := Admin.Positive s; Admin.Negative := Admin.Negative s;
         Admin.Neutral := Admin.Neutral s + 1; Admin.Total := Admin.Total s + 1 |}
  end.

End Sentiment.

(* ================================================================== *)
(** * Specification predicates and sample data *)
(* ================================================================== *)

(** [trim] in the words of its specification: the string is some white
    space, the result, and some white space; the result neither starts
    nor ends with white space. *)
Definition trimmedOf (s t : jsstring) : Prop :=
  exists l r,
    s = l ++ t ++ r
    /\ forallb isWhiteSpace l = true /\ forallb isWhiteSpace r = true
    /\ (forall c u, t = c :: u -> isWhiteSpace c = false)
    /\ (forall u c, t = u ++ [c] -> isWhiteSpace c = false).

(** The e-mail of a request in the words of the claim: the entered text
    without its surrounding white space, lowered by [toLowerCase]. *)
Definition normalisedEmail `{UnicodeData} (entered sent : jsstring) : Prop :=
  exists core, trimmedOf entered core /\ sent = toLowerCase core.

(** The same for an e-mail of Basic Latin, code unit by code unit: as
    many code units as the entered text has without its surrounding
    white space, every A..Z replaced by a..z and the rest kept. *)
Definition normalisedBasicLatin (entered sent : jsstring) : Prop :=
  exists core,
    trimmedOf entered core
    /\ length sent = length core
    /\ (forall i c, core !! i = Some c ->
          sent !! i = Some (if isUpperUnit c then (c + 32)%N else c))
    /\ forallb (fun c => negb (isUpperUnit c)) sent = true.

(** What the regular expression of the signup form accepts, in the words
    of the expression: three non-empty runs of [[^\s@]] separated by an
    [@] and a dot. *)
Definition emailShape (s : jsstring) : Prop :=
  exists a b c,
    s = a ++ [64%N] ++ b ++ [46%N] ++ c
    /\ a <> [] /\ b <> [] /\ c <> []
    /\ forallb Signup.notSpaceNorAt a = true
    /\ forallb Signup.notSpaceNorAt b = true
    /\ forallb Signup.notSpaceNorAt c = true.

(** The feedback form is valid when a star is selected and the trimmed
    comment has at least five code units. *)
Definition feedbackValid (fd : Feedback.FormData) : Prop :=
  Feedback.rating fd <> 0 /\ (5 <= length (trim (Feedback.comment fd)))%nat.

(** A state the feedback page reaches: four stars and a comment typed in. *)
Definition feedbackFilled : Feedback.State :=
  Feedback.step (Feedback.RatingClick 4)
    (Feedback.step (Feedback.Change (lit "  Great!  ")) Feedback.initial).

Definition loginFilled : Login.State :=
  {| Login.formData := {| Login.email := lit "  John@Example.COM ";
                          Login.password := lit "password123" |};
     Login.loading := false; Login.error := []; Login.formErrors := ∅ |}.

Definition signupFilled : Signup.State :=
  {| Signup.formData := {| Signup.name := lit "John Doe";
                           Signup.email := lit "John@Example.com";
                           Signup.password := lit "password123";
                           Signup.confirmPassword := lit "password123" |};
     Signup.loading := false; Signup.error := []; Signup.success := [];
     Signup.formErrors := ∅ |}.

(** A model whose priors tie Negative and Neutral above Positive. *)
Definition tiedModel : Sentiment.Model :=
  {| Sentiment.class_log_prior := fun c =>
       match c with Sentiment.Positive => (-2)%Q | _ => (-1)%Q end;
     Sentiment.feature_log_prob := fun _ => [(-1)%Q; (-3)%Q] |}.

(** A service over a three-word vocabulary. *)
Definition smallService : Sentiment.Service :=
  {| Sentiment.vocabulary := ["love"; "terrible"; "okay"];
     Sentiment.model :=
       {| Sentiment.class_log_prior := fun c =>
            match c with
            | Sentiment.Positive => (-3 # 2)%Q
            | Sentiment.Negative => (-1)%Q
            | Sentiment.Neutral => (-2)%Q
            end;
          Sentiment.feature_log_prob := fun c =>
            match c with
            | Sentiment.Positive => [(-1 # 2)%Q; (-3)%Q; (-2)%Q]
            | Sentiment.Negative => [(-3)%Q; (-1 # 2)%Q; (-2)%Q]
            | Sentiment.Neutral => [(-2)%Q; (-2)%Q; (-1 # 2)%Q]
            end |} |}.

(** The three examples of the reference corpus that section 8 of the
    specification quotes. *)
Definition sampleCorpus : list Sentiment.TrainingExample :=
  [ {| Sentiment.text := "I love this product! It's amazing.";
       Sentiment.label := Sentiment.Positive |};
    {| Sentiment.text := "Terrible experience! Complete waste of money.";
       Sentiment.label := Sentiment.Negative |};
    {| Sentiment.text := "The product is okay, nothing special.";
       Sentiment.label := Sentiment.Neutral |} ].

(** A rational stand-in for the logarithm where the sample corpus is
    evaluated: the first term of the series
    [ln p = 2 (z + z^3/3 + ...)] with [z = (p - 1) / (p + 1)]. *)
Definition lnSample (p : Q) : Q := (2 * (p - 1) / (p + 1))%Q.

(** A service whose model does not belong to its vocabulary. *)
Definition mismatchedService : Sentiment.Service :=
  {| Sentiment.vocabulary := ["love"];
     Sentiment.model := tiedModel |}.

(** Where a rational [N / D] lies between the integers [m] and [m + 1]:
    the meaning of a [location]. *)
Definition loc_ok (N D m : Z) (l : location) : Prop :=
  match l with
  | loc_Exact => N = m * D
  | loc_Inexact Lt => 2 * m * D < 2 * N < (2 * m + 1) * D
  | loc_Inexact Eq => 2 * N = (2 * m + 1) * D
  | loc_Inexact Gt => (2 * m + 1) * D < 2 * N < (2 * m + 2) * D
  end.

Definition rec_ok (N D : Z) (r : shr_record) : Prop :=
  loc_ok N D (shr_m r) (loc_of_shr_record r).

(** A normal positive Number: a mantissa of 53 digits, an exponent
    between [lo] and [hi]. *)
Definition normal (x : spec_float) (lo hi : Z) : Prop :=
  exists m e, x = S754_finite false m e
              /\ 2 ^ 52 <= Zpos m < 2 ^ 53 /\ lo <= e <= hi.

(** The unit round-off of binary64, 2^-53. *)
Definition roundoff : Q := 1 # 9007199254740992.

(** The text of a percentage of [n] tenths: integer part, a point, one
    fractional digit and the percent sign. *)
Definition percentText (n : Z) : jsstring :=
  Number.decimal (n / 10) ++ lit "." ++ Number.decimal (n mod 10) ++ lit "%".

(** [n / 10] is a one-decimal value nearest to [100 * count / total]:
    it is at most 0.05 away from it. *)
Definition nearestTenth (n count total : Z) : Prop :=
  2 * Z.abs (n * total - 1000 * count) <= total.

(** The one-decimal value obtained from the exact quotient by rounding
    half up, and by rounding half to even. *)
Definition halfUpTenths (count total : Z) : Z :=
  (2000 * count + total) / (2 * total).

Definition halfEvenTenths (count total : Z) : Z :=
  let n := (1000 * count) / total in
  let r := (1000 * count) mod total in
  if 2 * r <? total then n
  else if total <? 2 * r then n + 1
  else if Z.even n then n else n + 1.

(** The summary of four labelled feedbacks. *)
Definition summaryOfFour : Admin.Summary :=
  {| Admin.Positive := 2; Admin.Negative := 1; Admin.Neutral := 1;
     Admin.Total := 4 |}.

(** A summary of 80 feedbacks, 23 of them positive: 28.75 percent. *)
Definition summaryOfEighty : Admin.Summary :=
  {| Admin.Positive := 23; Admin.Negative := 41; Admin.Neutral := 16;
     Admin.Total := 80 |}.

(** A summary whose total exceeds two trillion. *)
Definition summaryHuge : Admin.Summary :=
  {| Admin.Positive := 8325833228702; Admin.Negative := 253077877637;
     Admin.Neutral := 0; Admin.Total := 8578911106339 |}.

(* ================================================================== *)
(** * services/api.js: the wrapper around every call *)
(* ================================================================== *)

Module ApiClient.

(** The [data] of an error response, and the object thrown for a
    network error: [{ success, message }]; [message] may be absent. *)
Record ErrorBody := { e_success : bool; e_message : option jsstring }.

(** How the axios promise settles: fulfilled with [response.data], or
    rejected with an error whose [response] is absent (network error,
    timeout), or whose [response.data] is falsy, or is a body. *)
Inductive Settled (A : Type) :=
| Fulfilled (data : A)
| Rejected (response : option (option ErrorBody)).

Arguments Fulfilled {A} data.
Arguments Rejected {A} response.

Inductive Completion (A : Type) :=
| Returned (data : A)
| Thrown (e : ErrorBody).

Arguments Returned {A} data.
Arguments Thrown {A} e.

Definition networkError : ErrorBody :=
  {| e_success := false; e_message := Some (lit "Network error") |}.

(** The body shared by [signup], [signin], [submitFeedback],
    [getUserFeedbacks], [adminLogin], [getAllFeedbacks],
    [getSentimentSummary] and [getAllUsers]:
    [try { return response.data }
     catch (error) { throw error.response?.data || networkError }]. *)
Definition call {A : Type} (s : Settled A) : Completion A :=
  match s with
  | Fulfilled data => Returned data
  | Rejected (Some (Some body)) => Thrown body
  | Rejected _ => Thrown networkError
  end.

(** [message || fallback] for a message that may be absent. *)
Definition orElse (message : option jsstring) (fallback : jsstring) : jsstring :=
  match message with
  | Some m => if truthy m then m else fallback
  | None => fallback
  end.

End ApiClient.

(* ================================================================== *)
(** * pages/Login.jsx: the rest of [handleSubmit] *)
(* ================================================================== *)

Module LoginRun.

Import ApiClient.

Record User := { u_id : Z; u_name : jsstring; u_email : jsstring }.

(** The body of a [signin] response. *)
Record Response := {
  r_success : bool; r_message : option jsstring; r_user : User }.

(** [handleSubmit] after its [await]: the next state and the user
    handed to [onLogin], if it is called. *)
Definition settle (c : Completion Response) (st : Login.State)
  : Login.State * option User :=
  match c with
  | Returned r =>
      if r_success r then
        ({| Login.formData := Login.formData st; Login.loading := false;
            Login.error := Login.error st;
            Login.formErrors := Login.formErrors st |},
         Some (r_user r))
      else
        ({| Login.formData := Login.formData st; Login.loading := false;
            Login.error := orElse (r_message r) (lit "Login failed");
            Login.formErrors := Login.formErrors st |},
         None)
  | Thrown e =>
      ({| Login.formData := Login.formData st; Login.loading := false;
          Login.error :=
            orElse (e_message e) (lit "An error occurred. Please try again.");
          Login.formErrors := Login.formErrors st |},
       None)
  end.

(** The whole of [handleSubmit] for a given settlement of the request:
    the final state, the request made and the user handed to [onLogin]. *)
Definition handleSubmit `{UnicodeData} (s : Settled Response) (st : Login.State)
  : Login.State * option Api.Request * option User :=
  match Login.handleSubmit st with
  | (st1, None) => (st1, None, None)
  | (st1, Some q) =>
      let '(st2, u) := settle (call s) st1 in (st2, Some q, u)
  end.

(** The input fields of the form. *)
Inductive Field := Email | Password.

Definition fieldName (f : Field) : string :=
  match f with Email => "email" | Password => "password" end.

(** [handleChange] for the input named [f]. *)
Definition handleChange (f : Field) (value : jsstring) (st : Login.State)
  : Login.State :=
  {| Login.formData :=
       match f with
       | Email => {| Login.email := value;
                     Login.password := Login.password (Login.formData st) |}
       | Password => {| Login.email := Login.email (Login.formData st);
                        Login.password := value |}
       end;
     Login.loading := Login.loading st;
     Login.error := [];
     Login.formErrors :=
       match Login.formErrors st !! fieldName f with
       | Some e => if truthy e then <[fieldName f := []]> (Login.formErrors st)
                   else Login.formErrors st
       | None => Login.formErrors st
       end |}.

End LoginRun.

(* ================================================================== *)
(** * pages/Signup.jsx: the rest of [handleSubmit] *)
(* ================================================================== *)

Module SignupRun.

Import ApiClient.

(** The body of a [signup] response. *)
Record Response := {
  r_success : bool; r_message : option jsstring; r_user : LoginRun.User }.

(** [handleSubmit] after its [await]: the next state and the user for
    whom [onSignup] is scheduled 1500 ms later, if it is. *)
Definition settle (c : Completion Response) (st : Signup.State)
  : Signup.State * option LoginRun.User :=
  match c with
  | Returned r =>
      if r_success r then
        ({| Signup.formData := Signup.formData st; Signup.loading := false;
            Signup.error := Signup.error st;
            Signup.success :=
              lit "Account created successfully! Redirecting...";
            Signup.formErrors := Signup.formErrors st |},
         Some (r_user r))
      else
        ({| Signup.formData := Signup.formData st; Signup.loading := false;
            Signup.error := orElse (r_message r) (lit "Registration failed");
            Signup.success := Signup.success st;
            Signup.formErrors := Signup.formErrors st |},
         None)
  | Thrown e =>
      ({| Signup.formData := Signup.formData st; Signup.loading := false;
          Signup.error :=
            orElse (e_message e) (lit "An error occurred. Please try again.");
          Signup.success := Signup.success st;
          Signup.formErrors := Signup.formErrors st |},
       None)
  end.

End SignupRun.

(* ================================================================== *)
(** * pages/Feedback.jsx: a run of the page *)
(* ================================================================== *)

Module FeedbackRun.

Import ApiClient.

(** The page together with the requests it has handed to axios: those
    not yet settled, and all of them in order. *)
Record World := {
  ui : Feedback.State;
  inflight : list Api.Request;
  sent : list Api.Request }.

Definition start : World :=
  {| ui := Feedback.initial; inflight := []; sent := [] |}.

(** [handleSubmit] after its [await], for a completion of the call. *)
Definition settle (c : Completion Feedback.Response) (st : Feedback.State)
  : Feedback.State :=
  match c with
  | Returned r => Feedback.handleResponse r st
  | Thrown e => Feedback.handleFailure (default [] (e_message e)) st
  end.

Inductive Action :=
| TypeComment (value : jsstring)
| ClickStar (star : Z)
| ClickSubmit (user_id : Z)
| Settle (s : Settled Feedback.Response)
| SuccessTimeout
| Loaded (fs : list Feedback.FeedbackItem).

(** What the rendered page lets happen: the textarea and the submit
    button carry [disabled={loading}], the stars are the five rendered
    ones, and only a pending request can settle. *)
Definition enabled (a : Action) (w : World) : Prop :=
  match a with
  | TypeComment _ => Feedback.loading (ui w) = false
  | ClickSubmit _ => Feedback.loading (ui w) = false
  | ClickStar s => s ∈ Feedback.stars
  | Settle _ => inflight w <> []
  | SuccessTimeout => True
  | Loaded _ => True
  end.

Definition run (a : Action) (w : World) : World :=
  match a with
  | TypeComment v =>
      {| ui := Feedback.handleChange v (ui w);
         inflight := inflight w; sent := sent w |}
  | ClickStar s =>
      {| ui := Feedback.handleRatingClick s (ui w);
         inflight := inflight w; sent := sent w |}
  | ClickSubmit u =>
      let '(st, req) := Feedback.handleSubmit u (ui w) in
      {| ui := st;
         inflight := inflight w ++ option_list req;
         sent := sent w ++ option_list req |}
  | Settle s =>
      {| ui := settle (call s) (ui w);
         inflight := tail (inflight w); sent := sent w |}
  | SuccessTimeout =>
      {| ui := Feedback.clearSuccess (ui w);
         inflight := inflight w; sent := sent w |}
  | Loaded fs =>
      {| ui := Feedback.loadFeedbacks fs (ui w);
         inflight := inflight w; sent := sent w |}
  end.

Inductive reachable : World -> Prop :=
| reach_start : reachable start
| reach_run a w : reachable w -> enabled a w -> reachable (run a w).

(** A well-formed [submitFeedback] body: a rating of one to five stars
    and a comment of at least five code units without surrounding
    white space. *)
Definition wellFormed (q : Api.Request) : Prop :=
  match q with
  | Api.submitFeedback _ r c =>
      1 <= r <= 5 /\ (5 <= length c)%nat /\ trim c = c
  | _ => False
  end.

End FeedbackRun.

(* ================================================================== *)
(** * pages/AdminDashboard.jsx: login, loading and the table cells *)
(* ================================================================== *)

Module Dashboard.

Import ApiClient.

Record LoginForm := { username : jsstring; password : jsstring }.

(** A feedback as [/api/admin/feedbacks] returns it; the sentiment may
    be absent. *)
Record FeedbackRow := {
  id : Z; user_name : jsstring; rating : Z; comment : jsstring;
  sentiment : option jsstring; created_at : jsstring }.

(** The [useState] cells of the component. *)
Record State := {
  loginForm : LoginForm;
  feedbacks : list FeedbackRow;
  summary : Admin.Summary;
  loginLoading : bool;
  dataLoading : bool;
  error : jsstring;
  formErrors : gmap string jsstring }.

(** The request of [adminLogin]: the [loginForm] object itself. *)
Inductive Request := adminLogin (username password : jsstring).

Record LoginResponse := { l_success : bool; l_message : option jsstring }.

(** [validateLoginForm]: the [errors] object it builds. *)
Definition validationErrors (f : LoginForm) : gmap string jsstring :=
  let errors : gmap string jsstring := ∅ in
  let errors :=
    if negb (truthy (trim (username f)))
    then <["username" := lit "Username is required"]> errors else errors in
  let errors :=
    if negb (truthy (password f))
    then <["password" := lit "Password is required"]> errors else errors in
  errors.

Definition setLogin (st : State) (f : LoginForm) (l : bool) (e : jsstring)
    (fe : gmap string jsstring) : State :=
  {| loginForm := f; feedbacks := feedbacks st; summary := summary st;
     loginLoading := l; dataLoading := dataLoading st; error := e;
     formErrors := fe |}.

(** [handleAdminLogin] up to its [await]. *)
Definition handleAdminLogin (st : State) : State * option Request :=
  let errors := validationErrors (loginForm st) in
  if negb (noKeys errors)
  then (setLogin st (loginForm st) (loginLoading st) (error st) errors, None)
  else (setLogin st (loginForm st) true [] errors,
        Some (adminLogin (username (loginForm st)) (password (loginForm st)))).

(** [handleAdminLogin] after its [await]: the next state and whether
    [onAdminLogin] is called. *)
Definition settleLogin (c : Completion LoginResponse) (st : State)
  : State * bool :=
  match c with
  | Returned r =>
      if l_success r then
        (setLogin st {| username := []; password := [] |} false (error st)
                  (formErrors st), true)
      else
        (setLogin st (loginForm st) false
                  (orElse (l_message r) (lit "Login failed")) (formErrors st),
         false)
  | Thrown e =>
      (setLogin st (loginForm st) false
                (orElse (e_message e) (lit "An error occurred"))
                (formErrors st), false)
  end.

(** The bodies of the two responses read by [loadDashboardData]. *)
Record FeedbacksRes := { f_success : bool; f_feedbacks : list FeedbackRow }.
Record SummaryRes := { s_success : bool; s_summary : Admin.Summary }.

(** [loadDashboardData] once [Promise.all] of the two calls settled:
    a rejection of either call goes to the [catch], which only logs. *)
Definition loadDashboardData
    (f : Settled FeedbacksRes) (s : Settled SummaryRes) (st : State) : State :=
  match call f, call s with
  | Returned fr, Returned sr =>
      {| loginForm := loginForm st;
         feedbacks := if f_success fr then f_feedbacks fr else feedbacks st;
         summary := if s_success sr then s_summary sr else summary st;
         loginLoading := loginLoading st; dataLoading := false;
         error := error st; formErrors := formErrors st |}
  | _, _ =>
      {| loginForm := loginForm st; feedbacks := feedbacks st;
         summary := summary st; loginLoading := loginLoading st;
         dataLoading := false; error := error st;
         formErrors := formErrors st |}
  end.

(** [String.prototype.repeat]: a negative count is a RangeError. *)
Definition repeat (s : jsstring) (count : Z) : option jsstring :=
  if count <? 0 then None
  else Some (concat (replicate (Z.to_nat count) s)).

Definition blackStar : N := 9733.
Definition whiteStar : N := 9734.

(** The stars of a table row:
    [{'★'.repeat(rating)}{'☆'.repeat(5 - rating)}]; [None] when the
    expression throws. *)
Definition ratingStars (rating : Z) : option jsstring :=
  match repeat [blackStar] rating with
  | Some filled =>
      match repeat [whiteStar] (5 - rating) with
      | Some hollow => Some (filled ++ hollow)
      | None => None
      end
  | None => None
  end.

(** The four icons, as UTF-16 code units. *)
Definition smiling : jsstring := [55357; 56842]%N.
Definition disappointed : jsstring := [55357; 56862]%N.
Definition neutralFace : jsstring := [55357; 56848]%N.
Definition thinking : jsstring := [55358; 56596]%N.

(** [getSentimentIcon]: a [switch] on [sentiment?.toLowerCase()] whose
    cases are three words of Basic Latin.  Only a text of Basic Latin
    letters lowers to one of these words (outside Basic Latin no letter
    lowers to one of theirs), so the case taken is decided by lowering
    Basic Latin alone and does not depend on the tables. *)
Definition getSentimentIcon (sentiment : option jsstring) : jsstring :=
  match sentiment with
  | None => thinking
  | Some s =>
      let l := toLowerCaseBasicLatin s in
      if bool_decide (l = lit "positive") then smiling
      else if bool_decide (l = lit "negative") then disappointed
      else if bool_decide (l = lit "neutral") then neutralFace
      else thinking
  end.

(** The sentiment cell of a row: the class name
    [`feedback-sentiment sentiment-${sentiment.toLowerCase()}`] and the
    text [{getSentimentIcon(sentiment)} {sentiment}]; [None] when
    [sentiment.toLowerCase()] throws on a missing sentiment.  The class
    name is given for a sentiment of Basic Latin. *)
Definition sentimentCell (sentiment : option jsstring)
  : option (jsstring * jsstring) :=
  match sentiment with
  | None => None
  | Some s =>
      Some (lit "feedback-sentiment sentiment-" ++ toLowerCaseBasicLatin s,
            getSentimentIcon sentiment ++ lit " " ++ s)
  end.

End Dashboard.

(* ================================================================== *)
(** * pages/Feedback.jsx: the stars *)
(* ================================================================== *)

Module FeedbackStars.

(** The five stars of a previous feedback,
    [[...Array(5)].map((_, i) => i < feedback.rating ? gold : grey)]:
    [true] for a gold star. *)
Definition starColours (rating : Z) : list bool :=
  map (fun i => i <? rating) [0; 1; 2; 3; 4].

(** The stars of the form,
    [star <= (hoverRating || formData.rating) ? 'active' : ''];
    [true] for an active star. *)
Definition activeStars (hoverRating rating : Z) : list bool :=
  map (fun star => star <=? (if hoverRating =? 0 then rating else hoverRating))
      Feedback.stars.

End FeedbackStars.

(* ================================================================== *)
(** * components/Navbar.jsx and components/ProtectedRoute.jsx *)
(* ================================================================== *)

Module Navbar.

Inductive Item :=
| Link (to label : string) (active : bool)
| Welcome (name : jsstring)
| AdminMode
| Logout.

Definition link (pathname to label : string) : Item :=
  Link to label (String.eqb pathname to).

(** The children of [navbar-links] in source order, for [user] given by
    its name when present. *)
Definition links (user : option jsstring) (isAdmin : bool) (pathname : string)
  : list Item :=
  (if negb (bool_decide (is_Some user)) && negb isAdmin
   then [link pathname "/login" "Login"; link pathname "/signup" "Sign Up";
         link pathname "/admin" "Admin"]
   else [])
  ++ (if bool_decide (is_Some user) && negb isAdmin
      then [link pathname "/feedback" "Feedback"] else [])
  ++ (if isAdmin then [link pathname "/admin/dashboard" "Dashboard"] else [])
  ++ (if bool_decide (is_Some user) || isAdmin
      then match user with Some n => [Welcome n] | None => [] end
           ++ (if isAdmin && negb (bool_decide (is_Some user))
               then [AdminMode] else [])
           ++ [Logout]
      else []).

Definition isLink (i : Item) : bool :=
  match i with Link _ _ _ => true | _ => false end.

Definition isActive (i : Item) : bool :=
  match i with Link _ _ a => a | _ => false end.

End Navbar.

Module Routes.

(** What a guard renders: [<Navigate to=... replace />] or its children. *)
Inductive Rendered := Navigate (to : string) | Children.

(** The default of [redirectTo] applies when the prop is absent. *)
Definition ProtectedRoute {U : Type} (user : option U) (redirectTo : option string)
  : Rendered :=
  match user with
  | None => Navigate (default "/login" redirectTo)
  | Some _ => Children
  end.

Definition AdminRoute (isAdmin : bool) (redirectTo : option string) : Rendered :=
  if negb isAdmin then Navigate (default "/admin" redirectTo) else Children.

Definition GuestRoute {U : Type} (user : option U) (redirectTo : option string)
  : Rendered :=
  match user with
  | Some _ => Navigate (default "/feedback" redirectTo)
  | None => Children
  end.

End Routes.

(* ================================================================== *)
(** * Reading numerals back *)
(* ================================================================== *)

Definition isDigit (c : N) : bool := ((48 <=? c) && (c <=? 57))%N.

(** The value of a string of decimal digits. *)
Definition parseDecimal (s : jsstring) : Z :=
  fold_left (fun acc c => 10 * acc + (Z.of_N c - 48)) s 0.

(** The number of tenths written by a text of the form
    digits, point, one digit, percent sign. *)
Definition readTenths (s : jsstring) : option Z :=
  match Signup.span isDigit s with
  | (a, [p; d; q]) =>
      if truthy a && (p =? 46)%N && isDigit d && (q =? 37)%N
      then Some (10 * parseDecimal a + (Z.of_N d - 48))
      else None
  | _ => None
  end.

(** The signup form accepts its data. *)
Definition signupValid (fd : Signup.FormData) : Prop :=
  (2 <= length (trim (Signup.name fd)))%nat
  /\ emailShape (Signup.email fd)
  /\ (6 <= length (Signup.password fd))%nat
  /\ Signup.confirmPassword fd = Signup.password fd.

(** The dashboard before login, with a padded user name typed in. *)
Definition dashboardStart : Dashboard.State :=
  {| Dashboard.loginForm :=
       {| Dashboard.username := lit " admin "; Dashboard.password := lit "admin123" |};
     Dashboard.feedbacks := []; Dashboard.summary := Admin.initialSummary;
     Dashboard.loginLoading := false; Dashboard.dataLoading := false;
     Dashboard.error := []; Dashboard.formErrors := ∅ |}.

(** A run of the feedback page that has just submitted four stars and
    a comment. *)
Definition feedbackPending : FeedbackRun.World :=
  FeedbackRun.run (FeedbackRun.ClickSubmit 7)
    (FeedbackRun.run (FeedbackRun.ClickStar 4)
       (FeedbackRun.run (FeedbackRun.TypeComment (lit "  Great!  "))
          FeedbackRun.start)).


(* ================================================================== *)
(** * Facts about the string primitives *)
(* ================================================================== *)

Section StringFacts.

Implicit Types s t : jsstring.

Lemma trimStart_split s :
  exists l, s = l ++ trimStart s /\ forallb isWhiteSpace l = true.
Proof.
  induction s as [|c s IH]; simpl.
  - exists []. done.
  - destruct (isWhiteSpace c) eqn:Hc.
    + destruct IH as (l & Hl & Hw). exists (c :: l). split.
      * simpl. congruence.
      * simpl. by rewrite Hc.
    + exists []. done.
Qed.

Lemma trimStart_head s c t :
  trimStart s = c :: t -> isWhiteSpace c = false.
Proof.
  induction s as [|d s IH]; simpl; [done|].
  destruct (isWhiteSpace d) eqn:Hd; [done|].
  intros [= -> _]. done.
Qed.

Lemma trimStart_fixed s c t :
  s = c :: t -> isWhiteSpace c = false -> trimStart s = s.
Proof. intros -> Hc. simpl. by rewrite Hc. Qed.

Lemma trimEnd_split s :
  exists r, s = trimEnd s ++ r /\ forallb isWhiteSpace r = true.
Proof.
  unfold trimEnd. destruct (trimStart_split (rev s)) as (l & Hl & Hw).
  exists (rev l). split.
  - rewrite <- rev_app_distr, <- Hl. by rewrite rev_involutive.
  - rewrite forallb_forall in *. intros x Hx. apply Hw. by apply in_rev.
Qed.

Lemma trimEnd_last s t c :
  trimEnd s = t ++ [c] -> isWhiteSpace c = false.
Proof.
  unfold trimEnd. intros H.
  apply (f_equal (@rev N)) in H. rewrite rev_involutive, rev_app_distr in H.
  simpl in H. by apply trimStart_head in H.
Qed.

(** Stripping the end of a string keeps its first character when that
    character is not white space. *)
Lemma trimEnd_head s c t :
  s = c :: t -> isWhiteSpace c = false -> exists t', trimEnd s = c :: t'.
Proof.
  intros -> Hc. unfold trimEnd. simpl.
  destruct (trimStart_split (rev t ++ [c])) as (l & Hl & Hw).
  destruct (trimStart (rev t ++ [c])) as [|d u] eqn:Hu using rev_ind.
  - rewrite app_nil_r in Hl. rewrite <- Hl in Hw.
    rewrite forallb_app in Hw. simpl in Hw. rewrite Hc in Hw.
    rewrite andb_false_r in Hw. done.
  - clear IHu. rewrite app_assoc in Hl.
    apply app_inj_tail in Hl as [_ ->].
    rewrite rev_app_distr. simpl. eauto.
Qed.

Lemma trim_trimmedOf s : trimmedOf s (trim s).
Proof.
  unfold trimmedOf, trim.
  destruct (trimStart_split s) as (l & Hl & Hwl).
  destruct (trimEnd_split (trimStart s)) as (r & Hr & Hwr).
  exists l, r. repeat split; try done.
  - by rewrite <- Hr.
  - intros c u Hu.
    destruct (trimStart s) as [|d v] eqn:Hs.
    + by rewrite Hu in Hr.
    + pose proof (trimStart_head _ _ _ Hs) as Hd.
      destruct (trimEnd_head (d :: v) d v eq_refl Hd) as (t' & Ht').
      rewrite Ht' in Hu. injection Hu as -> _. done.
  - intros u c Hu. by apply trimEnd_last in Hu.
Qed.

Lemma toLowerCaseBasicLatin_no_upper s :
  forallb (fun c => negb (isUpperUnit c)) (toLowerCaseBasicLatin s) = true.
Proof.
  unfold toLowerCaseBasicLatin. rewrite forallb_forall. intros d Hd.
  apply in_map_iff in Hd as (c & <- & _).
  unfold toLowerCaseUnit, isUpperUnit.
  destruct ((65 <=? c)%N && (c <=? 90)%N) eqn:E.
  - apply andb_true_iff in E as [H1 H2].
    apply N.leb_le in H1, H2.
    apply negb_true_iff, andb_false_iff. right. apply N.leb_gt. lia.
  - by rewrite E.
Qed.

Lemma toLowerCaseBasicLatin_length s : length (toLowerCaseBasicLatin s) = length s.
Proof. apply length_map. Qed.

Lemma toLowerCaseBasicLatin_lookup s i c :
  s !! i = Some c -> toLowerCaseBasicLatin s !! i = Some (toLowerCaseUnit c).
Proof. intros H. unfold toLowerCaseBasicLatin. by rewrite list_lookup_fmap, H. Qed.

Lemma utf16EncodeCodePoint_pair c d :
  isLeadingSurrogate c = true -> isTrailingSurrogate d = true ->
  utf16EncodeCodePoint (surrogatePairToCodePoint c d) = [c; d].
Proof.
  unfold isLeadingSurrogate, isTrailingSurrogate. intros Hc Hd.
  apply andb_true_iff in Hc as [Hc1 Hc2]. apply andb_true_iff in Hd as [Hd1 Hd2].
  apply N.leb_le in Hc1, Hc2, Hd1, Hd2.
  unfold utf16EncodeCodePoint, surrogatePairToCodePoint.
  set (a := (c - 55296)%N). set (b := (d - 56320)%N).
  assert (Hb : (b < 1024)%N) by lia.
  destruct (N.leb_spec (a * 1024 + b + 65536) 65535) as [H|_]; [lia|].
  replace (a * 1024 + b + 65536 - 65536)%N with (b + a * 1024)%N by lia.
  rewrite N.div_add by lia. rewrite N.Div0.mod_add.
  rewrite N.div_small, N.mod_small by lia.
  f_equal; [|f_equal]; lia.
Qed.

(** Decoding and encoding again gives the string back: a conversion
    that changes no code point changes no string. *)
Lemma codePointsToString_stringToCodePoints (s : jsstring) :
  Forall (fun c => (c <= 65535)%N) s ->
  codePointsToString (stringToCodePoints s) = s.
Proof.
  assert (G : forall n (s : jsstring), (length s <= n)%nat ->
            Forall (fun c => (c <= 65535)%N) s ->
            codePointsToString (stringToCodePoints s) = s);
    [|by apply (G (length s))].
  clear s. induction n as [|n IH]; intros s Hn Hs.
  - destruct s; [done | simpl in Hn; lia].
  - destruct s as [|c t]; [done|]. cbn [stringToCodePoints].
    destruct t as [|d u].
    + apply Forall_cons in Hs as [Hc _].
      unfold codePointsToString, utf16EncodeCodePoint. cbn [map concat].
      destruct (N.leb_spec c 65535); [done | lia].
    + destruct (isLeadingSurrogate c && isTrailingSurrogate d) eqn:E.
      * apply andb_true_iff in E as [Ec Ed].
        unfold codePointsToString in *. cbn [map concat].
        rewrite (utf16EncodeCodePoint_pair c d Ec Ed).
        apply Forall_cons in Hs as [_ Hs]. apply Forall_cons in Hs as [_ Hs].
        rewrite IH; [done | simpl in Hn; lia | exact Hs].
      * unfold codePointsToString in *. cbn [map concat].
        apply Forall_cons in Hs as [Hc Hs].
        rewrite IH; [|simpl in Hn |- *; lia | exact Hs].
        unfold utf16EncodeCodePoint.
        destruct (N.leb_spec c 65535); [done | lia].
Qed.

Example stringToCodePoints_pair :
  stringToCodePoints [104; 55357; 56842; 56842; 55357]%N
  = [104; 128522; 56842; 55357]%N.
Proof. reflexivity. Qed.

(** On Basic Latin text [toLowerCase] works code unit by code unit. *)
Lemma stringToCodePoints_basicLatin s :
  isBasicLatin s -> stringToCodePoints s = s.
Proof.
  induction 1 as [|c s Hc Hs IH]; [done|].
  cbn [stringToCodePoints]. destruct s as [|d u]; [done|].
  assert (E : isLeadingSurrogate c = false)
    by (unfold isLeadingSurrogate; apply andb_false_iff; left;
        apply N.leb_gt; lia).
  rewrite E. cbn [andb]. by rewrite IH.
Qed.

Lemma codePointsToString_basicLatin cps :
  isBasicLatin cps -> codePointsToString cps = cps.
Proof.
  unfold codePointsToString.
  induction 1 as [|c cps Hc Hs IH]; [done|].
  cbn [map concat]. rewrite IH. unfold utf16EncodeCodePoint.
  destruct (N.leb_spec c 65535); [done | lia].
Qed.

Lemma toLowerCaseBasicLatin_isBasicLatin s :
  isBasicLatin s -> isBasicLatin (toLowerCaseBasicLatin s).
Proof.
  unfold isBasicLatin, toLowerCaseBasicLatin.
  induction 1 as [|c s Hc Hs IH]; [constructor|].
  cbn [map]. constructor; [|exact IH]. unfold toLowerCaseUnit.
  destruct ((65 <=? c)%N && (c <=? 90)%N) eqn:E; [|done].
  apply andb_true_iff in E as [_ E]. apply N.leb_le in E. lia.
Qed.

Lemma toLowerCase_basicLatin `{UnicodeData} s :
  basicLatinLowering -> isBasicLatin s ->
  toLowerCase s = toLowerCaseBasicLatin s.
Proof.
  intros Law Hs. unfold toLowerCase.
  rewrite (stringToCodePoints_basicLatin s Hs), (Law s Hs).
  apply codePointsToString_basicLatin.
  by apply toLowerCaseBasicLatin_isBasicLatin.
Qed.

Lemma trim_isBasicLatin s : isBasicLatin s -> isBasicLatin (trim s).
Proof.
  intros Hs. destruct (trim_trimmedOf s) as (l & r & E & _).
  unfold isBasicLatin in *. rewrite E in Hs.
  apply Forall_app in Hs as [_ Hs]. by apply Forall_app in Hs as [Hs _].
Qed.

Lemma basicLatinOnly_lowering : @basicLatinLowering basicLatinOnly.
Proof. intros cps _. reflexivity. Qed.

Lemma noKeys_true (o : gmap string jsstring) : noKeys o = true <-> o = ∅.
Proof.
  unfold noKeys. rewrite bool_decide_eq_true. apply map_size_empty_iff.
Qed.

Lemma truthy_length s : truthy s = true <-> (0 < length s)%nat.
Proof. destruct s; simpl; split; intros; try done; lia. Qed.

End StringFacts.

(* ================================================================== *)
(** * The admin feedback table *)
(* ================================================================== *)

Example commentCell_short :
  Admin.commentCell (lit "Great quality and fast delivery. Recommended!")
  = lit "Great quality and fast delivery. Recommended!".
Proof. reflexivity. Qed.

Example commentCell_101 :
  Admin.commentCell (replicate 101 97%N) = replicate 100 97%N ++ lit "...".
Proof. reflexivity. Qed.

(** C10: a comment of more than 100 code units is shown as its first
    100 code units followed by three dots (103 units in all); a comment
    of 100 code units or fewer is shown unchanged. *)
Theorem C10_comment_cell_truncation (comment : jsstring) :
  ((100 < length comment)%nat
   /\ Admin.commentCell comment = take 100 comment ++ lit "..."
   /\ length (take 100 comment) = 100%nat
   /\ length (Admin.commentCell comment) = 103%nat)
  \/ ((length comment <= 100)%nat /\ Admin.commentCell comment = comment).
Proof.
  unfold Admin.commentCell, substring0.
  destruct (100 <? length comment)%nat eqn:E.
  - apply Nat.ltb_lt in E. left. repeat split; try done.
    + rewrite length_take. lia.
    + rewrite length_app, length_take.
      change (length (lit "...")) with 3%nat. lia.
  - apply Nat.ltb_ge in E. right. done.
Qed.

(* ================================================================== *)
(** * The feedback form *)
(* ================================================================== *)

Section FeedbackFacts.

Import Feedback.

Lemma validationErrors_empty fd :
  validationErrors fd = ∅ <-> feedbackValid fd.
Proof.
  unfold validationErrors, feedbackValid.
  destruct (Z.eqb_spec (rating fd) 0) as [Hr|Hr];
    destruct (truthy (trim (comment fd))) eqn:Ht;
    [ apply truthy_length in Ht | apply not_true_iff_false in Ht
    | apply truthy_length in Ht | apply not_true_iff_false in Ht ];
    try rewrite truthy_length in Ht;
    cbn [negb];
    try destruct (Nat.ltb_spec (length (trim (comment fd))) 5) as [E|E];
    (split;
     [ intros H; first [by apply insert_non_empty in H | split; [done | lia]]
     | intros [? ?]; try done; lia ]).
Qed.

Lemma reachable_rating st :
  reachable st -> 0 <= rating (formData st) <= 5.
Proof.
  induction 1 as [|e st Hreach IH Hdel]; [simpl; lia|].
  destruct e as [v|s|u|r|m| |fs]; simpl in *; try exact IH.
  - unfold stars in Hdel.
    repeat (apply elem_of_cons in Hdel as [->|Hdel]; [lia|]).
    by apply elem_of_nil in Hdel.
  - unfold handleSubmit, validateForm.
    destruct (negb _); simpl; exact IH.
  - unfold handleResponse. destruct (r_success r); simpl; [lia | exact IH].
Qed.

End FeedbackFacts.

(** C8: for every state the page can reach, submitting the form hands a
    request to [submitFeedback] exactly when the rating is non-zero (then
    it is one of 1..5) and the trimmed comment has at least 5 code units;
    the request carries the rating and the trimmed comment.  Otherwise no
    request is made, the error dictionary is not empty, and the form data
    and the list of feedbacks are as before. *)
Theorem C8_submit_iff_valid (user_id : Z) (st : Feedback.State) :
  Feedback.reachable st ->
  let fd := Feedback.formData st in
  let '(st', req) := Feedback.handleSubmit user_id st in
  (is_Some req <-> Feedback.rating fd <> 0
                   /\ (5 <= length (trim (Feedback.comment fd)))%nat)
  /\ ((req = Some (Api.submitFeedback user_id (Feedback.rating fd)
                                      (trim (Feedback.comment fd)))
       /\ 1 <= Feedback.rating fd <= 5
       /\ (5 <= length (trim (Feedback.comment fd)))%nat
       /\ Feedback.formErrors st' = ∅)
      \/ (req = None
          /\ (Feedback.rating fd = 0
              \/ (length (trim (Feedback.comment fd)) < 5)%nat)
          /\ Feedback.formErrors st' <> ∅
          /\ Feedback.formData st' = Feedback.formData st
          /\ Feedback.feedbacks st' = Feedback.feedbacks st)).
Proof.
  intros Hreach fd. apply reachable_rating in Hreach.
  unfold Feedback.handleSubmit, Feedback.validateForm.
  destruct (noKeys (Feedback.validationErrors (Feedback.formData st))) eqn:E;
    simpl.
  - apply noKeys_true in E. pose proof E as E'.
    apply validationErrors_empty in E' as [Hr Hc].
    split.
    + split; [done | intros _; by eexists].
    + left. subst fd. repeat split; try done; lia.
  - assert (Hne : Feedback.validationErrors (Feedback.formData st) <> ∅).
    { intros H. apply noKeys_true in H. congruence. }
    assert (Hinv : ~ feedbackValid (Feedback.formData st)).
    { intros H. by apply validationErrors_empty in H. }
    unfold feedbackValid in Hinv. split.
    + split; [intros [? [=]] | done].
    + right. subst fd. repeat split; try done.
      destruct (Z.eq_dec (Feedback.rating (Feedback.formData st)) 0);
        [by left | right; lia].
Qed.

Lemma C8_submit_iff_valid_witness :
  Feedback.reachable feedbackFilled
  /\ (is_Some (snd (Feedback.handleSubmit 7 feedbackFilled))
      <-> 4 <> 0 /\ (5 <= length (lit "Great!"))%nat).
Proof.
  assert (H : Feedback.reachable feedbackFilled).
  { unfold feedbackFilled.
    apply Feedback.reach_step;
      [apply Feedback.reach_step; [apply Feedback.reach_init | exact I] |].
    simpl. unfold Feedback.stars. do 3 apply list_elem_of_further.
    apply list_elem_of_here. }
  split; [exact H|].
  exact (proj1 (C8_submit_iff_valid 7 feedbackFilled H)).
Defined.

Example feedback_filled_sent :
  snd (Feedback.handleSubmit 7 feedbackFilled)
  = Some (Api.submitFeedback 7 4 (lit "Great!")).
Proof. reflexivity. Qed.

Example feedback_unrated_not_sent :
  snd (Feedback.handleSubmit 7
         (Feedback.step (Feedback.Change (lit "Great!")) Feedback.initial))
  = None.
Proof. reflexivity. Qed.

Example feedback_short_not_sent :
  snd (Feedback.handleSubmit 7
         (Feedback.step (Feedback.RatingClick 5)
            (Feedback.step (Feedback.Change (lit "  ok   ")) Feedback.initial)))
  = None.
Proof. reflexivity. Qed.

(* ================================================================== *)
(** * The login and signup forms *)
(* ================================================================== *)

Lemma normalisedEmail_intro `{UnicodeData} entered :
  normalisedEmail entered (toLowerCase (trim entered)).
Proof. exists (trim entered). split; [apply trim_trimmedOf | reflexivity]. Qed.

Lemma normalisedBasicLatin_intro `{UnicodeData} entered :
  basicLatinLowering -> isBasicLatin entered ->
  normalisedBasicLatin entered (toLowerCase (trim entered)).
Proof.
  intros Law He.
  rewrite (toLowerCase_basicLatin _ Law (trim_isBasicLatin _ He)).
  exists (trim entered). split; [apply trim_trimmedOf|].
  split; [apply toLowerCaseBasicLatin_length|]. split.
  - intros i c Hc. by apply toLowerCaseBasicLatin_lookup in Hc.
  - apply toLowerCaseBasicLatin_no_upper.
Qed.

Lemma span_split p s :
  s = fst (Signup.span p s) ++ snd (Signup.span p s)
  /\ forallb p (fst (Signup.span p s)) = true.
Proof.
  induction s as [|c s [IH1 IH2]]; simpl; [done|].
  destruct (p c) eqn:Hc; [|done].
  destruct (Signup.span p s) as [a b]. simpl in *.
  split; [congruence | by rewrite Hc].
Qed.

Lemma existsb_dot_split (l : jsstring) :
  existsb (N.eqb 46) l = true -> exists u v, l = u ++ [46%N] ++ v.
Proof.
  intros H. apply existsb_exists in H as (x & Hin & Hx).
  apply N.eqb_eq in Hx. subst x.
  apply in_split in Hin as (u & v & ->). by exists u, v.
Qed.

Lemma emailRegex_test_shape s :
  Signup.emailRegex_test s = true -> emailShape s.
Proof.
  unfold Signup.emailRegex_test.
  destruct (span_split Signup.notSpaceNorAt s) as [Hs Ha].
  destruct (Signup.span Signup.notSpaceNorAt s) as [a rest]. simpl in *.
  destruct a as [|a0 a]; [done|].
  destruct rest as [|d rest]; [done|].
  destruct d as [|d]; [done|].
  destruct (Pos.eq_dec d 64) as [->|Hd].
  2:{ intros H. exfalso. revert H.
      repeat (destruct d as [d|d|]; try done). }
  intros H. apply andb_true_iff in H as [Hall Hdot].
  destruct rest as [|b0 rest]; [done|]. simpl in Hdot.
  destruct rest as [|b1 rest] using rev_ind; [done|]. clear IHrest.
  rewrite removelast_last in Hdot.
  apply existsb_dot_split in Hdot as (u & v & ->).
  exists (a0 :: a), (b0 :: u), (v ++ [b1]).
  repeat split; try done.
  - rewrite Hs. simpl. by rewrite <- !app_assoc.
  - intros Hv. by apply app_eq_nil in Hv as [_ ?].
  - rewrite forallb_forall in *. intros x Hx. apply Hall.
    simpl in *. rewrite !in_app_iff. simpl. tauto.
  - rewrite forallb_forall in *. intros x Hx. apply Hall.
    rewrite in_app_iff in Hx. simpl in *. rewrite !in_app_iff. simpl. tauto.
Qed.

Lemma span_run p (a rest : jsstring) c :
  forallb p a = true -> p c = false ->
  Signup.span p (a ++ c :: rest) = (a, c :: rest).
Proof.
  intros Ha Hc. induction a as [|x a IH]; simpl.
  - by rewrite Hc.
  - simpl in Ha. apply andb_true_iff in Ha as [Hx Ha].
    rewrite Hx, (IH Ha). reflexivity.
Qed.

(** The matcher accepts exactly the strings of the expression. *)
Lemma emailRegex_test_complete s :
  emailShape s -> Signup.emailRegex_test s = true.
Proof.
  intros (a & b & c & -> & Ha & Hb & Hc & Fa & Fb & Fc).
  unfold Signup.emailRegex_test. simpl.
  rewrite span_run by done.
  destruct a as [|a0 a]; [done|].
  apply andb_true_iff. split.
  - rewrite forallb_app. simpl. by rewrite Fb, Fc.
  - destruct b as [|b0 b]; [done|]. simpl.
    destruct c as [|c1 c] using rev_ind; [done|]. clear IHc.
    replace (b ++ 46%N :: c ++ [c1]) with ((b ++ 46%N :: c) ++ [c1])
      by (by rewrite <- app_assoc).
    rewrite removelast_last, existsb_app. simpl.
    by rewrite orb_true_r.
Qed.

Lemma signup_valid_email fd :
  Signup.validationErrors fd = ∅ ->
  Signup.emailRegex_test (Signup.email fd) = true.
Proof.
  unfold Signup.validationErrors.
  destruct (Signup.emailRegex_test (Signup.email fd)); [done|].
  destruct (truthy (trim (Signup.name fd)));
    destruct (length (trim (Signup.name fd)) <? 2)%nat;
    destruct (truthy (trim (Signup.email fd)));
    destruct (truthy (Signup.password fd));
    destruct (length (Signup.password fd) <? 6)%nat;
    destruct (truthy (Signup.confirmPassword fd));
    destruct (bool_decide (Signup.password fd = Signup.confirmPassword fd));
    cbn [negb]; intros H; by apply insert_non_empty in H.
Qed.

Lemma login_valid_email fd :
  Login.validationErrors fd = ∅ ->
  (0 < length (trim (Login.email fd)))%nat.
Proof.
  unfold Login.validationErrors. intros H. apply truthy_length.
  destruct (truthy (trim (Login.email fd))); [done|].
  destruct (truthy (Login.password fd));
    cbn [negb] in H; by apply insert_non_empty in H.
Qed.

(** C9: a login or signup submission that passes the client-side
    validation hands one request to the back end, and the e-mail of that
    request is [toLowerCase (trim email)]: the entered text without its
    surrounding white space, lowered by [String.prototype.toLowerCase]
    with whatever case tables the engine has.  The login form only
    requires the trimmed text to be non-empty; the signup form requires
    the entered text to have the shape of its regular expression.  A
    submission that fails validation sends nothing.  For an e-mail of
    Basic Latin the lowering keeps the number of code units, replaces
    every A..Z by a..z and keeps every other code unit. *)
Theorem C9_email_trimmed_lowercased
    {U : UnicodeData} (l : Login.State) (s : Signup.State) :
  (snd (Login.validateForm l) = true ->
     snd (Login.handleSubmit l)
     = Some (Api.signin
               (toLowerCase (trim (Login.email (Login.formData l))))
               (Login.password (Login.formData l)))
     /\ normalisedEmail (Login.email (Login.formData l))
          (toLowerCase (trim (Login.email (Login.formData l))))
     /\ (0 < length (trim (Login.email (Login.formData l))))%nat)
  /\ (snd (Signup.validateForm s) = true ->
     snd (Signup.handleSubmit s)
     = Some (Api.signup
               (trim (Signup.name (Signup.formData s)))
               (toLowerCase (trim (Signup.email (Signup.formData s))))
               (Signup.password (Signup.formData s)))
     /\ normalisedEmail (Signup.email (Signup.formData s))
          (toLowerCase (trim (Signup.email (Signup.formData s))))
     /\ emailShape (Signup.email (Signup.formData s)))
  /\ (snd (Login.validateForm l) = false -> snd (Login.handleSubmit l) = None)
  /\ (snd (Signup.validateForm s) = false -> snd (Signup.handleSubmit s) = None)
  /\ (basicLatinLowering ->
      forall entered, isBasicLatin entered ->
        normalisedBasicLatin entered (toLowerCase (trim entered))).
Proof.
  split; [|split; [|split; [|split]]].
  - intros V. split; [|split].
    + unfold Login.handleSubmit. destruct (Login.validateForm l) as [st ok].
      simpl in *. subst ok. reflexivity.
    + apply normalisedEmail_intro.
    + apply login_valid_email. by apply noKeys_true.
  - intros V. split; [|split].
    + unfold Signup.handleSubmit. destruct (Signup.validateForm s) as [st ok].
      simpl in *. subst ok. reflexivity.
    + apply normalisedEmail_intro.
    + apply emailRegex_test_shape, signup_valid_email. by apply noKeys_true.
  - unfold Login.handleSubmit. destruct (Login.validateForm l) as [st ok].
    simpl. intros ->. reflexivity.
  - unfold Signup.handleSubmit. destruct (Signup.validateForm s) as [st ok].
    simpl. intros ->. reflexivity.
  - intros Law entered He. by apply normalisedBasicLatin_intro.
Qed.

Lemma C9_email_trimmed_lowercased_witness :
  (snd (Login.validateForm loginFilled) = true
   /\ snd (Login.handleSubmit (H := basicLatinOnly) loginFilled)
      = Some (Api.signin (lit "john@example.com") (lit "password123")))
  /\ (snd (Signup.validateForm signupFilled) = true
      /\ snd (Signup.handleSubmit (H := basicLatinOnly) signupFilled)
         = Some (Api.signup (lit "John Doe") (lit "john@example.com")
                            (lit "password123")))
  /\ (@basicLatinLowering basicLatinOnly
      /\ isBasicLatin (lit " John@Example.com ")
      /\ normalisedBasicLatin (lit " John@Example.com ")
           (lit "john@example.com")).
Proof.
  pose proof (C9_email_trimmed_lowercased (U := basicLatinOnly)
                loginFilled signupFilled)
    as (HL & HS & _ & _ & HB).
  split; [|split].
  - assert (V : snd (Login.validateForm loginFilled) = true)
      by (vm_compute; reflexivity).
    split; [exact V | exact (proj1 (HL V))].
  - assert (V : snd (Signup.validateForm signupFilled) = true)
      by (vm_compute; reflexivity).
    split; [exact V | exact (proj1 (HS V))].
  - pose proof basicLatinOnly_lowering as Law.
    assert (He : isBasicLatin (lit " John@Example.com "))
      by (apply (bool_decide_unpack _); vm_compute; exact I).
    split; [exact Law|]. split; [exact He|].
    exact (HB Law (lit " John@Example.com ") He).
Defined.

Example signup_rejects_padded_email :
  Signup.emailRegex_test (lit " john@example.com") = false
  /\ Signup.emailRegex_test (lit "john@example") = false
  /\ Signup.emailRegex_test (lit "john@example.com") = true.
Proof. repeat split. Qed.

(* ================================================================== *)
(** * The classifier *)
(* ================================================================== *)

Section ClassifierFacts.

Import Sentiment.

Implicit Types f g : SentimentLabel -> Q.

Lemma Qle_bool_false (x y : Q) : Qle_bool x y = false -> (y < x)%Q.
Proof.
  intros H. apply Qnot_le_lt. intros Hle.
  apply Qle_bool_iff in Hle. congruence.
Qed.

Ltac caseArgmax f :=
  unfold argmaxFirst, better; simpl;
  let E1 := fresh "E" in
  destruct (Qle_bool (f Negative) (f Positive)) eqn:E1;
  [apply Qle_bool_iff in E1 | apply Qle_bool_false in E1];
  match goal with
  | |- context [Qle_bool ?a ?b] =>
      let E2 := fresh "E" in
      destruct (Qle_bool a b) eqn:E2;
      [apply Qle_bool_iff in E2 | apply Qle_bool_false in E2]
  end.

(** The selected class has a maximal score. *)
Lemma argmaxFirst_max f c : (f c <= f (argmaxFirst f))%Q.
Proof.
  caseArgmax f; destruct c; lra.
Qed.

(** Every class ahead of the selected one scores strictly less. *)
Lemma argmaxFirst_first f c :
  (rank c < rank (argmaxFirst f))%nat -> (f c < f (argmaxFirst f))%Q.
Proof.
  caseArgmax f; destruct c; simpl; intros H;
    solve [lia | lra].
Qed.

(** A maximal class with no tied class ahead of it is the one selected. *)
Lemma argmaxFirst_unique f c :
  (forall c', f c' <= f c)%Q ->
  (forall c', (rank c' < rank c)%nat -> ~ (f c' == f c)%Q) ->
  argmaxFirst f = c.
Proof.
  intros Hmax Hfirst.
  pose proof (Hmax Positive) as M1. pose proof (Hmax Negative) as M2.
  pose proof (Hmax Neutral) as M3.
  pose proof (Hfirst Positive) as F1. pose proof (Hfirst Negative) as F2.
  caseArgmax f; destruct c; simpl in *; try reflexivity; exfalso;
    solve [ lra
          | apply F1; [lia | lra]
          | apply F2; [lia | lra] ].
Qed.

Lemma argmaxFirst_ext f g :
  (forall c, f c == g c)%Q -> argmaxFirst f = argmaxFirst g.
Proof.
  intros H. unfold argmaxFirst, better. simpl.
  rewrite !(H Positive), !(H Negative), !(H Neutral).
  destruct (Qle_bool (g Negative) (g Positive));
    rewrite ?(H Positive), ?(H Negative); reflexivity.
Qed.

Lemma occurrences_absent (t : string) (ts : list string) :
  t ∉ ts -> occurrences t ts = 0%nat.
Proof.
  unfold occurrences. induction ts as [|u ts IH]; [done|].
  intros H. apply not_elem_of_cons in H as [Hne Hin].
  rewrite filter_cons. destruct (decide (u = t)); [congruence|]. auto.
Qed.

Lemma transform_length text (vocab : Vocabulary) :
  length (transform text vocab) = length vocab.
Proof. apply length_map. Qed.

Lemma transform_unknown text (vocab : Vocabulary) :
  Forall (fun t => t ∉ vocab) (tokenize text) ->
  transform text vocab = replicate (length vocab) 0%nat.
Proof.
  intros H. unfold transform.
  assert (Hall : Forall (fun t => t ∉ tokenize text) vocab).
  { rewrite Forall_forall in *. intros t Ht Hin. by apply (H t Hin). }
  clear H. induction Hall as [|t vocab Ht _ IH]; [done|].
  simpl. rewrite IH. f_equal. by apply occurrences_absent.
Qed.

Lemma tokenScore_zero n (logp : list Q) :
  (tokenScore (replicate n 0%nat) logp == 0)%Q.
Proof.
  revert logp. induction n as [|n IH]; intros logp; [by destruct logp|].
  destruct logp as [|p logp]; [done|].
  cbn [replicate tokenScore Nat.eqb]. rewrite IH. lra.
Qed.

Lemma tokenSum_le_total i (vs : list FeatureVector) :
  (tokenSum i vs <= tokenTotal vs)%nat.
Proof.
  induction vs as [|v vs IH]; simpl; [lia|].
  assert (nth i v 0 <= foldr Nat.add 0 v)%nat; [|lia].
  clear. revert i. induction v as [|x v IH]; intros [|i]; simpl; try lia.
  specialize (IH i). lia.
Qed.

(** Add-one smoothing: the likelihood of a vocabulary token is a
    probability and never zero. *)
Lemma likelihood_positive size (vs : list FeatureVector) i :
  (i < size)%nat -> (0 < likelihood size vs i <= 1)%Q.
Proof.
  intros Hi. unfold likelihood.
  pose proof (tokenSum_le_total i vs) as Hle.
  set (a := Z.of_nat (tokenSum i vs + 1)).
  set (b := Z.of_nat (tokenTotal vs + size)).
  assert (Ha : 0 < a) by lia. assert (Hab : a <= b) by lia.
  assert (Hb : (0 < inject_Z b)%Q).
  { change 0%Q with (inject_Z 0). rewrite <- Zlt_Qlt. lia. }
  split.
  - apply Qlt_shift_div_l; [done|]. rewrite Qmult_0_l.
    change 0%Q with (inject_Z 0). rewrite <- Zlt_Qlt. lia.
  - apply Qle_shift_div_r; [done|]. rewrite Qmult_1_l.
    rewrite <- Zle_Qle. lia.
Qed.

(** ** Training: what [fit] and [initialize] return *)

Lemma logProb_Some ln p x :
  logProb ln p = Some x -> x = ln p /\ (0 < p)%Q.
Proof.
  unfold logProb. destruct (Qle_bool p 0) eqn:E; [done|].
  intros [= <-]. split; [reflexivity | by apply Qle_bool_false].
Qed.

Lemma logProb_positive ln p : (0 < p)%Q -> logProb ln p = Some (ln p).
Proof.
  intros Hp. unfold logProb. destruct (Qle_bool p 0) eqn:E; [|done].
  apply Qle_bool_iff in E. lra.
Qed.

Lemma count_le_length (c : SentimentLabel) labels :
  (length (filter (fun l => l = c) labels) <= length labels)%nat.
Proof.
  induction labels as [|l ls IH]; [done|].
  rewrite filter_cons. destruct (decide (l = c)); simpl; lia.
Qed.

Lemma count_positive (c : SentimentLabel) labels :
  c ∈ labels <-> (0 < length (filter (fun l => l = c) labels))%nat.
Proof.
  induction labels as [|l ls IH].
  - split; [by intros ?%elem_of_nil | simpl; lia].
  - rewrite filter_cons, elem_of_cons.
    destruct (decide (l = c)) as [->|Hne]; simpl.
    + split; [lia | by left].
    + rewrite <- IH. split; [intros [?|?]; congruence || done | by right].
Qed.

(** The prior of a class is a probability; it is zero exactly for a
    class without examples. *)
Lemma prior_present labels c : c ∈ labels -> (0 < prior labels c <= 1)%Q.
Proof.
  intros Hc. apply count_positive in Hc.
  pose proof (count_le_length c labels) as Hle. unfold prior.
  set (a := Z.of_nat (length (filter (fun l => l = c) labels))).
  set (b := Z.of_nat (length labels)).
  assert (Ha : 0 < a) by lia. assert (Hab : a <= b) by lia.
  assert (Hb : (0 < inject_Z b)%Q).
  { change 0%Q with (inject_Z 0). rewrite <- Zlt_Qlt. lia. }
  split.
  - apply Qlt_shift_div_l; [done|]. rewrite Qmult_0_l.
    change 0%Q with (inject_Z 0). rewrite <- Zlt_Qlt. lia.
  - apply Qle_shift_div_r; [done|]. rewrite Qmult_1_l.
    rewrite <- Zle_Qle. lia.
Qed.

Lemma prior_absent labels c : c ∉ labels -> (prior labels c == 0)%Q.
Proof.
  intros Hc. rewrite count_positive in Hc. unfold prior.
  replace (length (filter (fun l => l = c) labels)) with 0%nat by lia.
  change (inject_Z (Z.of_nat 0)) with 0%Q. unfold Qdiv. apply Qmult_0_l.
Qed.

Lemma mapM_logProb ln (g : nat -> Q) (l : list nat) (k : list Q) :
  mapM (fun i => logProb ln (g i)) l = Some k ->
  k = map (fun i => ln (g i)) l /\ Forall (fun i => (0 < g i)%Q) l.
Proof.
  rewrite mapM_Some. induction 1 as [|i x l k Hx _ IH]; [done|].
  apply logProb_Some in Hx as [-> Hp]. destruct IH as [-> IH].
  split; [reflexivity | by constructor].
Qed.

Lemma fitClass_spec ln size vs labels c lp ll :
  fitClass ln size vs labels c = Some (lp, ll) ->
  c ∈ labels
  /\ lp = ln (prior labels c)
  /\ ll = map (fun i => ln (likelihood size (examplesOf c vs labels) i))
              (seq 0 size).
Proof.
  unfold fitClass.
  destruct (logProb ln (prior labels c)) as [x|] eqn:E1; [|done].
  destruct (mapM _ (seq 0 size)) as [k|] eqn:E2; [|done].
  intros [= <- <-]. apply logProb_Some in E1 as [-> Hp].
  apply mapM_logProb in E2 as [-> _].
  split; [|done].
  destruct (decide (c ∈ labels)) as [|Hn]; [done|].
  apply prior_absent in Hn. lra.
Qed.

(** With add-one smoothing only a missing class makes [fit] fail. *)
Lemma fitClass_present ln size vs labels c :
  c ∈ labels -> is_Some (fitClass ln size vs labels c).
Proof.
  intros Hc. unfold fitClass.
  rewrite (logProb_positive ln _ (proj1 (prior_present labels c Hc))).
  assert (H : is_Some (mapM (fun i => logProb ln
                 (likelihood size (examplesOf c vs labels) i)) (seq 0 size))).
  { apply mapM_is_Some, Forall_forall. intros i Hi.
    apply elem_of_seq in Hi. simpl.
    rewrite logProb_positive; [by eexists|].
    apply likelihood_positive. lia. }
  destruct H as [k ->]. by eexists.
Qed.

Lemma fitClassifier_spec ln size vs labels m :
  fitClassifier ln size vs labels = Some m ->
  forall c,
    c ∈ labels
    /\ class_log_prior m c = ln (prior labels c)
    /\ feature_log_prob m c
       = map (fun i => ln (likelihood size (examplesOf c vs labels) i))
             (seq 0 size).
Proof.
  unfold fitClassifier.
  destruct (fitClass ln size vs labels Positive) as [[p1 p2]|] eqn:EP; [|done].
  destruct (fitClass ln size vs labels Negative) as [[n1 n2]|] eqn:EN; [|done].
  destruct (fitClass ln size vs labels Neutral) as [[u1 u2]|] eqn:EU; [|done].
  intros [= <-] c.
  apply fitClass_spec in EP, EN, EU. destruct c; simpl; tauto.
Qed.

Lemma fitClassifier_is_Some ln size vs labels :
  is_Some (fitClassifier ln size vs labels) <-> forall c, c ∈ labels.
Proof.
  split.
  - intros [m Hm] c. by destruct (fitClassifier_spec _ _ _ _ _ Hm c).
  - intros H. unfold fitClassifier.
    destruct (fitClass_present ln size vs labels Positive (H _)) as [p ->].
    destruct (fitClass_present ln size vs labels Negative (H _)) as [n ->].
    destruct (fitClass_present ln size vs labels Neutral (H _)) as [u ->].
    by eexists.
Qed.

(** Initialisation succeeds exactly for a corpus with an example of
    every class. *)
Lemma initialize_is_Some ln (corpus : list TrainingExample) :
  is_Some (initialize ln corpus) <-> forall c, c ∈ map label corpus.
Proof.
  rewrite <- (fitClassifier_is_Some ln
    (length (fitVocabulary (map text corpus)))
    (map (fun t => transform t (fitVocabulary (map text corpus)))
         (map text corpus))).
  unfold initialize. destruct (fitClassifier _ _ _ _); split;
    intros [? ?]; done || by eexists.
Qed.

(** The parameters of an initialised service are logarithms of
    probabilities that are not zero, one likelihood per vocabulary
    token. *)
Lemma initialize_spec ln (corpus : list TrainingExample) svc :
  initialize ln corpus = Some svc ->
  forall c,
    c ∈ map label corpus
    /\ (exists p, class_log_prior (model svc) c = ln p /\ (0 < p <= 1)%Q)
    /\ length (feature_log_prob (model svc) c) = length (vocabulary svc)
    /\ Forall (fun x => exists p, x = ln p /\ (0 < p <= 1)%Q)
              (feature_log_prob (model svc) c).
Proof.
  unfold initialize.
  destruct (fitClassifier _ _ _ _) as [m|] eqn:E; [|done].
  intros [= <-] c. cbn [model vocabulary].
  destruct (fitClassifier_spec _ _ _ _ _ E c) as (Hc & Hp & Hl).
  split; [exact Hc|]. split; [|split].
  - eexists. split; [exact Hp|]. by apply prior_present.
  - by rewrite Hl, length_map, length_seq.
  - rewrite Hl. apply List.Forall_map, Forall_forall. intros i Hi.
    apply elem_of_seq in Hi. eexists. split; [reflexivity|].
    apply likelihood_positive. lia.
Qed.

Lemma initialize_vocabulary ln (corpus : list TrainingExample) svc :
  initialize ln corpus = Some svc ->
  vocabulary svc = fitVocabulary (map text corpus).
Proof.
  unfold initialize. destruct (fitClassifier _ _ _ _); [|done].
  by intros [= <-].
Qed.

Lemma initialize_fits ln (corpus : list TrainingExample) svc text :
  initialize ln corpus = Some svc ->
  fits (model svc) (transform text (vocabulary svc)) = true.
Proof.
  intros H. unfold fits. apply forallb_forall. intros c _.
  destruct (initialize_spec _ _ _ H c) as (_ & _ & Hl & _).
  rewrite Hl, transform_length. apply Nat.eqb_refl.
Qed.

Lemma classify_initialized ln (corpus : list TrainingExample) svc text :
  initialize ln corpus = Some svc ->
  classify text svc
  = Some (predict (model svc) (transform text (vocabulary svc))).
Proof.
  intros H. unfold classify. by rewrite (initialize_fits _ _ _ _ H).
Qed.

Lemma countOf_total labels :
  countOf Positive labels + countOf Negative labels + countOf Neutral labels
  = Z.of_nat (length labels).
Proof.
  unfold countOf. induction labels as [|l ls IH]; [done|].
  rewrite !filter_cons. cbn [length].
  destruct l; repeat case_decide; try done; cbn [length]; lia.
Qed.

End ClassifierFacts.

Import Sentiment.

(** C3: the service exists exactly for a corpus with an example of
    every class, and an initialised service answers every text - the
    empty string and arbitrary bytes included - with a label: one of
    Positive, Negative and Neutral, and one whose score is maximal for
    the text's feature vector.  The prediction is never undefined,
    because the vector that [transform] builds always has the length of
    the parameters that [fit] built. *)
Theorem C3_classify_closed_domain
    (ln : Q -> Q) (corpus : list TrainingExample) (text : string) :
  (is_Some (initialize ln corpus) <-> forall c, c ∈ map label corpus)
  /\ (forall svc, initialize ln corpus = Some svc ->
       exists l,
         classify text svc = Some l
         /\ (l = Positive \/ l = Negative \/ l = Neutral)
         /\ length (transform text (vocabulary svc)) = length (vocabulary svc)
         /\ (forall c, length (feature_log_prob (model svc) c)
                       = length (transform text (vocabulary svc)))
         /\ (forall c, score (model svc) (transform text (vocabulary svc)) c
                       <= score (model svc) (transform text (vocabulary svc)) l)%Q).
Proof.
  split; [apply initialize_is_Some|].
  intros svc H. eexists. split; [by apply (classify_initialized ln corpus)|].
  split; [destruct (predict _ _); auto|].
  split; [apply transform_length|]. split.
  - intros c. destruct (initialize_spec _ _ _ H c) as (_ & _ & Hl & _).
    by rewrite Hl, transform_length.
  - intros c. apply argmaxFirst_max.
Qed.

Lemma C3_classify_closed_domain_witness :
  (forall c, c ∈ map label sampleCorpus)
  /\ exists svc l,
       initialize lnSample sampleCorpus = Some svc
       /\ classify "@#$%^&*() ~~ ??" svc = Some l.
Proof.
  pose proof (C3_classify_closed_domain lnSample sampleCorpus
                "@#$%^&*() ~~ ??") as [Hinit Hsvc].
  assert (Hall : forall c, c ∈ map label sampleCorpus).
  { intros c. apply (bool_decide_unpack _). by destruct c. }
  split; [exact Hall|].
  destruct (proj2 Hinit Hall) as [svc E].
  destruct (Hsvc svc E) as (l & Hl & _).
  exists svc, l. split; [exact E | exact Hl].
Defined.

(** Outside initialised services the prediction can be undefined: a
    model used with a vocabulary it was not fit with gives no label. *)
Example classify_mismatched : classify "love" mismatchedService = None.
Proof. reflexivity. Qed.

(** C4: [predict] returns the class that has the maximal score and is
    not preceded, in the order Positive, Negative, Neutral, by a class
    with the same score: among tied maxima, the first in that order. *)
Theorem C4_predict_tie_break (m : Model) (v : FeatureVector) (c : SentimentLabel) :
  (forall c', score m v c' <= score m v c)%Q ->
  (forall c', (rank c' < rank c)%nat -> ~ (score m v c' == score m v c)%Q) ->
  predict m v = c.
Proof. intros Hmax Hfirst. by apply argmaxFirst_unique. Qed.

Lemma C4_predict_tie_break_witness :
  (forall c', score tiedModel [0; 0]%nat c' <= score tiedModel [0; 0]%nat Negative)%Q
  /\ (forall c', (rank c' < rank Negative)%nat ->
        ~ (score tiedModel [0; 0]%nat c' == score tiedModel [0; 0]%nat Negative)%Q)
  /\ predict tiedModel [0; 0]%nat = Negative.
Proof.
  assert (H1 : forall c', (score tiedModel [0; 0]%nat c'
                           <= score tiedModel [0; 0]%nat Negative)%Q).
  { intros c'. destruct c'; vm_compute; discriminate. }
  assert (H2 : forall c', (rank c' < rank Negative)%nat ->
             ~ (score tiedModel [0; 0]%nat c'
                == score tiedModel [0; 0]%nat Negative)%Q).
  { intros c'. destruct c'; simpl; intros Hr; try lia.
    vm_compute. discriminate. }
  split; [exact H1 | split; [exact H2|]].
  exact (C4_predict_tie_break tiedModel [0; 0]%nat Negative H1 H2).
Defined.

Example predict_all_tied :
  predict {| class_log_prior := fun _ => (-1)%Q;
             feature_log_prob := fun _ => [] |} [] = Positive.
Proof. reflexivity. Qed.

(** C5: for an initialised service and a text none of whose tokens is
    in the vocabulary (the empty text has no token at all), [transform]
    gives the all-zero vector of the vocabulary's length, every class
    score is the class prior alone, and [classify] returns a label that
    the priors alone decide: the class with the greatest prior, the
    first in the order Positive, Negative, Neutral when several have it
    - the same label as for the empty text.  Every parameter of the
    service is the logarithm of a probability that is not zero: with
    add-one smoothing no likelihood is zero, so that initialisation has
    these logarithms for every corpus with an example of each class. *)
Theorem C5_unknown_tokens_use_priors
    (ln : Q -> Q) (corpus : list TrainingExample)
    (svc : Service) (text : string) :
  initialize ln corpus = Some svc ->
  Forall (fun t => t ∉ vocabulary svc) (tokenize text) ->
  transform text (vocabulary svc) = replicate (length (vocabulary svc)) 0%nat
  /\ (forall c, score (model svc) (transform text (vocabulary svc)) c
               == class_log_prior (model svc) c)%Q
  /\ (exists l,
        classify text svc = Some l
        /\ classify "" svc = Some l
        /\ (forall c, class_log_prior (model svc) c
                      <= class_log_prior (model svc) l)%Q
        /\ (forall c, (rank c < rank l)%nat ->
                      class_log_prior (model svc) c
                      < class_log_prior (model svc) l)%Q)
  /\ (forall c,
        (exists p, class_log_prior (model svc) c = ln p /\ (0 < p <= 1)%Q)
        /\ length (feature_log_prob (model svc) c) = length (vocabulary svc)
        /\ Forall (fun x => exists p, x = ln p /\ (0 < p <= 1)%Q)
                  (feature_log_prob (model svc) c))
  /\ (forall corpus', (forall c, c ∈ map label corpus') ->
        is_Some (initialize ln corpus')).
Proof.
  intros Hinit H.
  assert (Hs : forall t, Forall (fun u => u ∉ vocabulary svc) (tokenize t) ->
     forall c, (score (model svc) (transform t (vocabulary svc)) c
                == class_log_prior (model svc) c)%Q).
  { intros t Ht c. unfold score. rewrite (transform_unknown _ _ Ht).
    rewrite tokenScore_zero. lra. }
  assert (He : Forall (fun u => u ∉ vocabulary svc) (tokenize "")) by constructor.
  assert (Hp : forall t, Forall (fun u => u ∉ vocabulary svc) (tokenize t) ->
     predict (model svc) (transform t (vocabulary svc))
     = argmaxFirst (class_log_prior (model svc))).
  { intros t Ht. unfold predict. apply argmaxFirst_ext. by apply Hs. }
  split; [by apply transform_unknown|].
  split; [by apply Hs|].
  split; [|split].
  - exists (argmaxFirst (class_log_prior (model svc))).
    rewrite !(classify_initialized ln corpus svc _ Hinit).
    rewrite (Hp _ H), (Hp _ He).
    split; [reflexivity|]. split; [reflexivity|].
    split; [apply argmaxFirst_max | apply argmaxFirst_first].
  - intros c. by destruct (initialize_spec _ _ _ Hinit c) as (_ & ? & ? & ?).
  - intros corpus'. apply initialize_is_Some.
Qed.

Lemma C5_unknown_tokens_use_priors_witness :
  exists svc,
    initialize lnSample sampleCorpus = Some svc
    /\ Forall (fun t => t ∉ vocabulary svc) (tokenize "Zzz, qqq 42!")
    /\ transform "Zzz, qqq 42!" (vocabulary svc)
       = replicate (length (vocabulary svc)) 0%nat.
Proof.
  assert (Hall : forall c, c ∈ map label sampleCorpus).
  { intros c. apply (bool_decide_unpack _). by destruct c. }
  destruct (proj2 (initialize_is_Some lnSample sampleCorpus) Hall) as [svc E].
  pose proof (initialize_vocabulary _ _ _ E) as Hv.
  assert (H : Forall (fun t => t ∉ vocabulary svc) (tokenize "Zzz, qqq 42!")).
  { rewrite Hv. apply (bool_decide_unpack _). vm_compute. exact I. }
  exists svc. split; [exact E|]. split; [exact H|].
  exact (proj1 (C5_unknown_tokens_use_priors lnSample sampleCorpus svc
                  "Zzz, qqq 42!" E H)).
Defined.

(** On a service with the priors -3/2, -1 and -2 a text without known
    tokens is Negative; known tokens move the label. *)
Example classify_examples :
  classify "Zzz, qqq 42!" smallService = Some Negative
  /\ classify "" smallService = Some Negative
  /\ classify "I LOVE it, love!" smallService = Some Positive
  /\ classify "okay... okay" smallService = Some Neutral.
Proof. repeat split. Qed.

(* ================================================================== *)
(** * Aggregation and the summary card *)
(* ================================================================== *)

Lemma summarize_cons c (labels : list SentimentLabel) :
  summarize (c :: labels) = bump c (summarize labels).
Proof.
  unfold summarize, countOf. rewrite !filter_cons.
  destruct c; repeat case_decide; try done; cbn [length bump];
    cbn [Admin.Positive Admin.Negative Admin.Neutral Admin.Total];
    f_equal; lia.
Qed.

(** C7: [summarize] returns the number of occurrences of each label -
    the empty input gives zeroes and every further label adds one to its
    own count and to [Total];
    [Total] is the length of the input and the sum of the three counts.
    For [Positive, Positive, Negative, Neutral] the summary is
    2 / 1 / 1 / 4 and the dashboard shows 50.0%, 25.0% and 25.0%. *)
Theorem C7_summarize_counts (labels : list SentimentLabel) :
  Admin.Positive (summarize labels) = countOf Positive labels
  /\ Admin.Negative (summarize labels) = countOf Negative labels
  /\ Admin.Neutral (summarize labels) = countOf Neutral labels
  /\ Admin.Total (summarize labels) = Z.of_nat (length labels)
  /\ Admin.Total (summarize labels)
     = Admin.Positive (summarize labels) + Admin.Negative (summarize labels)
       + Admin.Neutral (summarize labels)
  /\ summarize [] = Admin.initialSummary
  /\ (forall c, summarize (c :: labels) = bump c (summarize labels))
  /\ summarize [Positive; Positive; Negative; Neutral]
     = {| Admin.Positive := 2; Admin.Negative := 1; Admin.Neutral := 1;
          Admin.Total := 4 |}
  /\ Admin.summaryGrid (summarize [Positive; Positive; Negative; Neutral])
     = Some (Some (lit "50.0%"), Some (lit "25.0%"), Some (lit "25.0%")).
Proof.
  do 4 (split; [reflexivity|]).
  split; [simpl; symmetry; apply countOf_total|].
  split; [reflexivity|].
  split; [intros c; apply summarize_cons|].
  split; [reflexivity | vm_compute; reflexivity].
Qed.

Lemma summarize_empty (labels : list SentimentLabel) :
  Admin.Total (summarize labels) = 0 -> summarize labels = Admin.initialSummary.
Proof.
  simpl. intros H. destruct labels; [reflexivity | simpl in H; lia].
Qed.

(** C2: when [Total] is zero the guard [summary.Total > 0] is false and
    the grid of percentages is not rendered at all, so no quotient by
    [Total] is evaluated.  A summary of no records has this form: its
    three counts and its total are zero, and the four stat cards show 0. *)
Theorem C2_no_percentage_without_records
    (s : Admin.Summary) (labels : list SentimentLabel) :
  (Admin.Total s = 0 -> Admin.summaryGrid s = None)
  /\ (Admin.Total (summarize labels) = 0 ->
        labels = []
        /\ summarize labels
           = {| Admin.Positive := 0; Admin.Negative := 0;
                Admin.Neutral := 0; Admin.Total := 0 |}
        /\ Admin.summaryGrid (summarize labels) = None
        /\ Admin.statCards (summarize labels)
           = [lit "0"; lit "0"; lit "0"; lit "0"])
  /\ summarize [] = Admin.initialSummary
  /\ Admin.summaryGrid Admin.initialSummary = None.
Proof.
  split; [|split; [|split]].
  - intros H. unfold Admin.summaryGrid. rewrite H. reflexivity.
  - intros H. pose proof (summarize_empty _ H) as E.
    split; [destruct labels; [done | simpl in H; lia]|].
    rewrite E. repeat split.
  - reflexivity.
  - reflexivity.
Qed.

Lemma C2_no_percentage_without_records_witness :
  Admin.Total Admin.initialSummary = 0
  /\ Admin.summaryGrid Admin.initialSummary = None
  /\ Admin.Total (summarize []) = 0
  /\ Admin.statCards (summarize []) = [lit "0"; lit "0"; lit "0"; lit "0"].
Proof.
  pose proof (C2_no_percentage_without_records Admin.initialSummary [])
    as (W1 & W2 & _).
  split; [reflexivity|]. split; [exact (W1 eq_refl)|].
  split; [reflexivity|]. exact (proj2 (proj2 (proj2 (W2 eq_refl)))).
Defined.

(* ================================================================== *)
(** * Rounding of Numbers *)
(* ================================================================== *)

Section RoundingFacts.

Lemma digits2_size p : digits2_pos p = Pos.size p.
Proof. induction p; simpl; congruence. Qed.

Lemma digits2_bounds p :
  2 ^ (Zpos (digits2_pos p) - 1) <= Zpos p < 2 ^ Zpos (digits2_pos p).
Proof.
  rewrite digits2_size. split.
  - pose proof (Pos.size_le p) as H.
    assert (H' : 2 ^ Zpos (Pos.size p) <= 2 * Zpos p).
    { change 2 with (Zpos 2) at 1. rewrite <- Pos2Z.inj_pow. lia. }
    replace (Zpos (Pos.size p)) with (Z.succ (Zpos (Pos.size p) - 1)) in H' by lia.
    rewrite Z.pow_succ_r in H' by lia. lia.
  - pose proof (Pos.size_gt p) as H.
    change 2 with (Zpos 2). rewrite <- Pos2Z.inj_pow. lia.
Qed.

Lemma digits2_unique p k :
  2 ^ (k - 1) <= Zpos p < 2 ^ k -> Zpos (digits2_pos p) = k.
Proof.
  intros [H1 H2]. pose proof (digits2_bounds p) as [B1 B2].
  set (d := Zpos (digits2_pos p)) in *.
  assert (0 < k).
  { destruct (Z_lt_le_dec 0 k); [done|].
    destruct (Z.eq_dec k 0) as [->|]; [simpl in H2; lia|].
    rewrite Z.pow_neg_r in H2 by lia. lia. }
  destruct (Z_lt_le_dec d k) as [Hlt|Hge].
  - assert (2 ^ d <= 2 ^ (k - 1)) by (apply Z.pow_le_mono_r; lia). lia.
  - destruct (Z_lt_le_dec k d) as [Hlt|Hge']; [|lia].
    assert (2 ^ k <= 2 ^ (d - 1)) by (apply Z.pow_le_mono_r; lia). lia.
Qed.

Lemma rec_ok_of_loc N D m l :
  loc_ok N D m l -> rec_ok N D (shr_record_of_loc m l).
Proof. unfold rec_ok. destruct l as [|[]]; simpl; auto. Qed.

Lemma shr_1_ok N D r :
  0 < D -> 0 <= shr_m r -> rec_ok N D r ->
  rec_ok N (2 * D) (shr_1 r)
  /\ shr_m (shr_1 r) = shr_m r / 2.
Proof.
  intros HD Hm. unfold rec_ok. destruct r as [m rb sb]. simpl in *.
  destruct m as [|p|p]; [| |lia].
  - destruct rb, sb; simpl; intros H; split; try reflexivity; lia.
  - destruct p as [p|p|].
    + split.
      * destruct rb, sb; simpl in *; rewrite Pos2Z.inj_xI in H; lia.
      * simpl. rewrite Pos2Z.inj_xI.
        apply (Z.div_unique _ _ _ 1); lia.
    + split.
      * destruct rb, sb; simpl in *; rewrite Pos2Z.inj_xO in H; lia.
      * simpl. rewrite Pos2Z.inj_xO.
        apply (Z.div_unique _ _ _ 0); lia.
    + split.
      * destruct rb, sb; simpl in *; lia.
      * reflexivity.
Qed.

Lemma iter_shr_1_ok N D m0 p :
  0 < D ->
  forall r j,
    0 <= j -> 0 <= m0 ->
    rec_ok N (2 ^ j * D) r -> shr_m r = m0 / 2 ^ j ->
    rec_ok N (2 ^ (j + Zpos p) * D) (iter_pos shr_1 p r)
    /\ shr_m (iter_pos shr_1 p r) = m0 / 2 ^ (j + Zpos p).
Proof.
  intros HD.
  assert (Hstep : forall r j, 0 <= j -> 0 <= m0 ->
    rec_ok N (2 ^ j * D) r -> shr_m r = m0 / 2 ^ j ->
    rec_ok N (2 ^ (j + 1) * D) (shr_1 r)
    /\ shr_m (shr_1 r) = m0 / 2 ^ (j + 1)).
  { intros r j Hj Hm0 Hok Hm.
    assert (Hp : 0 < 2 ^ j) by (apply Z.pow_pos_nonneg; lia).
    destruct (shr_1_ok N (2 ^ j * D) r) as [H1 H2]; [nia| |done|].
    { rewrite Hm. apply Z.div_pos; lia. }
    rewrite Z.pow_add_r, Z.pow_1_r by lia. split.
    - replace (2 ^ j * 2 * D) with (2 * (2 ^ j * D)) by ring. done.
    - rewrite H2, Hm. rewrite Z.div_div by lia. reflexivity. }
  induction p as [p IH|p IH|]; intros r j Hj Hm0 Hok Hm; cbn [iter_pos].
  - destruct (Hstep r j Hj Hm0 Hok Hm) as [A1 A2].
    destruct (IH _ (j + 1) ltac:(lia) Hm0 A1 A2) as [B1 B2].
    destruct (IH _ (j + 1 + Zpos p) ltac:(lia) Hm0 B1 B2) as [C1 C2].
    rewrite (Pos2Z.inj_xI p).
    replace (j + (2 * Zpos p + 1)) with (j + 1 + Zpos p + Zpos p) by lia.
    split; assumption.
  - destruct (IH _ j Hj Hm0 Hok Hm) as [B1 B2].
    destruct (IH _ (j + Zpos p) ltac:(lia) Hm0 B1 B2) as [C1 C2].
    rewrite (Pos2Z.inj_xO p).
    replace (j + 2 * Zpos p) with (j + Zpos p + Zpos p) by lia.
    split; assumption.
  - by apply Hstep.
Qed.

Lemma round_nearest_even_ok N D r :
  0 < D -> rec_ok N D r ->
  let m := round_nearest_even (shr_m r) (loc_of_shr_record r) in
  - D <= 2 * (m * D - N) <= D /\ shr_m r <= m <= shr_m r + 1.
Proof.
  intros HD. unfold rec_ok.
  destruct (loc_of_shr_record r) as [|[]]; simpl; intros H.
  - lia.
  - destruct (Z.even (shr_m r)); lia.
  - lia.
  - lia.
Qed.

Lemma fexp_normal e : -1074 <= e - 53 -> fexp 53 1024 e = e - 53.
Proof. unfold fexp, emin. lia. Qed.

Lemma Zdigits2_unique m k :
  2 ^ (k - 1) <= m < 2 ^ k -> 0 < m -> Zdigits2 m = k.
Proof.
  intros H Hm. destruct m as [|p|p]; try lia. simpl.
  by apply digits2_unique.
Qed.

(** The first normalisation of [binary_round_aux]: a mantissa of [53 + k]
    digits loses its [k] low digits, which are remembered as a location. *)
Lemma shr_fexp_normal N D mx ex lx k :
  0 < D -> 0 < mx -> Zdigits2 mx = 53 + k -> 0 <= k -> -1074 <= ex + k ->
  loc_ok N D mx lx ->
  exists r,
    shr_fexp 53 1024 mx ex lx = (r, ex + k)
    /\ rec_ok N (2 ^ k * D) r
    /\ shr_m r = mx / 2 ^ k.
Proof.
  intros HD Hmx Hd Hk He Hloc. unfold shr_fexp.
  rewrite Hd, fexp_normal by lia.
  replace (53 + k + ex - 53 - ex) with k by lia.
  apply rec_ok_of_loc in Hloc.
  destruct k as [|p|p]; [| |lia].
  - eexists. split; [simpl; f_equal; lia|].
    rewrite Z.pow_0_r, Z.mul_1_l, Z.div_1_r.
    split; [exact Hloc | by destruct lx as [|[]]].
  - eexists. split; [reflexivity|].
    apply (iter_shr_1_ok N D mx p HD _ 0); try lia.
    + by rewrite Z.pow_0_r, Z.mul_1_l.
    + rewrite Z.pow_0_r, Z.div_1_r. by destruct lx as [|[]].
Qed.

Lemma binary_round_aux_normal N D mx ex lx k :
  0 < D -> 0 < mx -> Zdigits2 mx = 53 + k -> 0 <= k ->
  -1074 <= ex + k -> ex + k + 1 <= 971 ->
  loc_ok N D mx lx ->
  exists m2 e2,
    binary_round_aux 53 1024 false mx ex lx = S754_finite false m2 e2
    /\ 2 ^ 52 <= Zpos m2 < 2 ^ 53
    /\ ex + k <= e2 <= ex + k + 1
    /\ - (2 ^ k * D) <= 2 * (Zpos m2 * 2 ^ (e2 - ex) * D - N) <= 2 ^ k * D
    /\ mx * D <= N.
Proof.
  intros HD Hmx Hd Hk He1 He2 Hloc.
  destruct (shr_fexp_normal N D mx ex lx k) as (r & Hr & Hok & Hm); try done.
  unfold binary_round_aux. rewrite Hr.
  assert (Hpk : 0 < 2 ^ k) by (apply Z.pow_pos_nonneg; lia).
  assert (Hrange : 2 ^ 52 <= shr_m r < 2 ^ 53).
  { rewrite Hm.
    assert (Hb : 2 ^ (53 + k - 1) <= mx < 2 ^ (53 + k)).
    { destruct mx as [|p|p]; try lia. simpl in Hd. rewrite <- Hd.
      apply digits2_bounds. }
    replace (53 + k - 1) with (52 + k) in Hb by lia.
    rewrite !Z.pow_add_r in Hb by lia. split.
    - apply Z.div_le_lower_bound; lia.
    - apply Z.div_lt_upper_bound; lia. }
  destruct (round_nearest_even_ok N (2 ^ k * D) r) as [Herr Hm1]; [nia|done|].
  set (m1 := round_nearest_even (shr_m r) (loc_of_shr_record r)) in *.
  assert (HN : mx * D <= N).
  { destruct lx as [|[]]; simpl in Hloc; nia. }
  destruct (Z.eq_dec m1 (2 ^ 53)) as [E|NE].
  - (* the rounding carried into the next binade *)
    rewrite E. unfold shr_fexp.
    rewrite (Zdigits2_unique (2 ^ 53) 54) by (simpl; lia).
    rewrite fexp_normal by lia.
    replace (54 + (ex + k) - 53 - (ex + k)) with 1 by lia.
    cbn -[Z.pow Z.add Z.sub]. 
    exists (2 ^ 52)%positive, (ex + k + 1).
    replace (ex + k + 1 <=? 1024 - 53) with true
      by (symmetry; apply Z.leb_le; lia).
    split; [reflexivity|]. split; [lia|]. split; [lia|]. split; [|done].
    replace (ex + k + 1 - ex) with (k + 1) by lia.
    rewrite Z.pow_add_r, Z.pow_1_r by lia.
    rewrite E in Herr.
    change (Zpos (2 ^ 52)) with (2 ^ 52).
    replace (2 ^ 52 * (2 ^ k * 2) * D) with (2 ^ 53 * (2 ^ k * D)) by
      (change (2 ^ 53) with (2 ^ 52 * 2); ring).
    lia.
  - assert (Hm1' : 2 ^ 52 <= m1 < 2 ^ 53) by lia.
    unfold shr_fexp.
    rewrite (Zdigits2_unique m1 53) by (simpl; lia).
    rewrite fexp_normal by lia.
    replace (53 + (ex + k) - 53 - (ex + k)) with 0 by lia.
    cbn -[Z.pow Z.add Z.sub].
    destruct m1 as [|p1|p1]; try lia.
    exists p1, (ex + k).
    replace (ex + k <=? 1024 - 53) with true
      by (symmetry; apply Z.leb_le; lia).
    split; [reflexivity|]. split; [lia|]. split; [lia|]. split; [|done].
    replace (ex + k - ex) with k by lia.
    replace (Zpos p1 * 2 ^ k * D) with (Zpos p1 * (2 ^ k * D)) by ring.
    lia.
Qed.

Lemma new_location_ok D q r :
  0 < D -> 0 <= r < D ->
  loc_ok (q * D + r) D q (new_location D r).
Proof.
  intros HD Hr. unfold new_location.
  destruct (Z.even D) eqn:Ev.
  - unfold new_location_even. destruct (Z.eqb_spec r 0) as [->|Hr0].
    + unfold loc_ok. lia.
    + destruct (Z.compare_spec (2 * r) D); unfold loc_ok; lia.
  - unfold new_location_odd. destruct (Z.eqb_spec r 0) as [->|Hr0].
    + unfold loc_ok. lia.
    + assert (Hodd : 2 * r <> D).
      { intros <-. rewrite Z.even_mul in Ev. done. }
      destruct (Z.compare_spec (2 * r + 1) D); unfold loc_ok; lia.
Qed.

Lemma pos_iter_xO p n : Zpos (Pos.iter xO p n) = Zpos p * 2 ^ Zpos n.
Proof.
  induction n as [|n IH] using Pos.peano_ind.
  - simpl. lia.
  - rewrite Pos.iter_succ, (Pos2Z.inj_xO (Pos.iter xO p n)), IH.
    rewrite Pos2Z.inj_succ, Z.pow_succ_r by lia. ring.
Qed.

(** An integer below 2^53 is a Number: its mantissa is the integer
    shifted to 53 digits. *)
Lemma binary_normalize_small c d :
  0 < c -> Zdigits2 c = d -> d <= 53 ->
  exists m,
    binary_normalize 53 1024 c 0 false = S754_finite false m (d - 53)
    /\ Zpos m = c * 2 ^ (53 - d)
    /\ 2 ^ 52 <= Zpos m < 2 ^ 53.
Proof.
  intros Hc Hd Hd53. destruct c as [|p|p]; try lia.
  simpl in Hd. unfold binary_normalize, binary_round.
  rewrite Z.add_0_r, Hd.
  pose proof (digits2_bounds p) as Hb. rewrite Hd in Hb.
  assert (Hd0 : 0 < d) by lia.
  rewrite fexp_normal by lia.
  assert (Hal : exists mz, shl_align p 0 (d - 53) = (mz, d - 53)
                /\ Zpos mz = Zpos p * 2 ^ (53 - d)).
  { unfold shl_align. destruct (d - 53 - 0) as [|q|q] eqn:E; try lia.
    - exists p. replace (d - 53) with 0 by lia.
      replace (53 - d) with 0 by lia. split; [done | lia].
    - eexists. split; [reflexivity|]. rewrite pos_iter_xO.
      do 2 f_equal. lia. }
  destruct Hal as (mz & -> & Hmz).
  assert (Hmzb : 2 ^ 52 <= Zpos mz < 2 ^ 53).
  { rewrite Hmz.
    assert (E52 : 2 ^ 52 = 2 ^ (d - 1) * 2 ^ (53 - d))
      by (rewrite <- Z.pow_add_r by lia; f_equal; lia).
    assert (E53 : 2 ^ 53 = 2 ^ d * 2 ^ (53 - d))
      by (rewrite <- Z.pow_add_r by lia; f_equal; lia).
    assert (0 < 2 ^ (53 - d)) by (apply Z.pow_pos_nonneg; lia).
    rewrite E52, E53. nia. }
  destruct (binary_round_aux_normal (Zpos mz) 1 (Zpos mz) (d - 53) loc_Exact 0)
    as (m2 & e2 & Hres & Hm2 & He2 & Herr & _); try lia.
  { by apply Zdigits2_unique. }
  { simpl. lia. }
  rewrite Hres. 
  assert (e2 = d - 53).
  { destruct (Z.eq_dec e2 (d - 53)) as [|Hne]; [done|].
    replace (e2 - (d - 53)) with 1 in Herr by lia. lia. }
  subst e2. rewrite Z.sub_diag in Herr. 
  exists m2. split; [done|]. split; [lia | done].
Qed.

(** ** Division and multiplication of normal Numbers *)

Lemma SFdiv_normal m1 e1 m2 e2 :
  2 ^ 52 <= Zpos m1 < 2 ^ 53 -> 2 ^ 52 <= Zpos m2 < 2 ^ 53 ->
  -1074 <= e1 - e2 - 53 -> e1 - e2 - 53 + 2 <= 971 ->
  exists m e k,
    SFdiv 53 1024 (S754_finite false m1 e1) (S754_finite false m2 e2)
    = S754_finite false m e
    /\ 2 ^ 52 <= Zpos m < 2 ^ 53
    /\ 0 <= k <= 1
    /\ e1 - e2 - 53 + k <= e <= e1 - e2 - 53 + k + 1
    /\ - (2 ^ k * Zpos m2)
       <= 2 * (Zpos m * 2 ^ (e - (e1 - e2 - 53)) * Zpos m2 - Zpos m1 * 2 ^ 53)
       <= 2 ^ k * Zpos m2
    /\ 2 ^ (52 + k) * Zpos m2 <= Zpos m1 * 2 ^ 53.
Proof.
  intros H1 H2 He1 He2.
  unfold SFdiv, SFdiv_core_binary.
  rewrite (Zdigits2_unique (Zpos m1) 53), (Zdigits2_unique (Zpos m2) 53)
    by (simpl; lia).
  rewrite fexp_normal by lia.
  replace (Z.min (53 + e1 - (53 + e2) - 53) (e1 - e2)) with (e1 - e2 - 53) by lia.
  replace (e1 - e2 - (e1 - e2 - 53)) with 53 by lia.
  cbv beta iota zeta. rewrite Z.shiftl_mul_pow2 by lia.
  pose proof (Z_div_mod (Zpos m1 * 2 ^ 53) (Zpos m2) ltac:(lia)) as Hdm.
  destruct (Z.div_eucl (Zpos m1 * 2 ^ 53) (Zpos m2)) as [q r].
  destruct Hdm as [Hq Hr]. cbn [xorb].
  assert (Hqb : 2 ^ 52 <= q < 2 ^ 54).
  { change (2 ^ 54) with (2 * 2 ^ 53). nia. }
  pose proof (new_location_ok (Zpos m2) q r ltac:(lia) Hr) as Hloc.
  replace (q * Zpos m2 + r) with (Zpos m1 * 2 ^ 53) in Hloc by lia.
  destruct (Z_lt_le_dec q (2 ^ 53)) as [Hlt|Hge].
  - assert (Hd : Zdigits2 q = 53 + 0).
    { apply Zdigits2_unique; [|lia].
      change (53 + 0 - 1) with 52. change (53 + 0) with 53. lia. }
    destruct (binary_round_aux_normal (Zpos m1 * 2 ^ 53) (Zpos m2) q (e1 - e2 - 53) _ 0 ltac:(lia)
                ltac:(lia) Hd ltac:(lia) ltac:(lia) ltac:(lia) Hloc)
      as (m & e & Hres & Hm & He & Herr & HN).
    exists m, e, 0. rewrite Hres. repeat split; try lia.
  - assert (Hd : Zdigits2 q = 53 + 1).
    { apply Zdigits2_unique; [|lia].
      change (53 + 1 - 1) with 53. change (53 + 1) with 54. lia. }
    destruct (binary_round_aux_normal (Zpos m1 * 2 ^ 53) (Zpos m2) q (e1 - e2 - 53) _ 1 ltac:(lia)
                ltac:(lia) Hd ltac:(lia) ltac:(lia) ltac:(lia) Hloc)
      as (m & e & Hres & Hm & He & Herr & HN).
    exists m, e, 1. rewrite Hres. repeat split; try lia.
    change (2 ^ (52 + 1)) with (2 ^ 53). nia.
Qed.

Lemma SFmul_normal m1 e1 m2 e2 :
  2 ^ 52 <= Zpos m1 < 2 ^ 53 -> 2 ^ 52 <= Zpos m2 < 2 ^ 53 ->
  -1074 <= e1 + e2 + 52 -> e1 + e2 + 53 + 1 <= 971 ->
  exists m e k,
    SFmul 53 1024 (S754_finite false m1 e1) (S754_finite false m2 e2)
    = S754_finite false m e
    /\ 2 ^ 52 <= Zpos m < 2 ^ 53
    /\ 52 <= k <= 53
    /\ e1 + e2 + k <= e <= e1 + e2 + k + 1
    /\ - (2 ^ k * 1)
       <= 2 * (Zpos m * 2 ^ (e - (e1 + e2)) * 1 - Zpos m1 * Zpos m2)
       <= 2 ^ k * 1
    /\ 2 ^ (52 + k) * 1 <= Zpos m1 * Zpos m2.
Proof.
  intros H1 H2 He1 He2. unfold SFmul. cbn [xorb].
  rewrite Pos2Z.inj_mul.
  assert (Hp : 2 ^ 104 <= Zpos m1 * Zpos m2 < 2 ^ 106).
  { change (2 ^ 104) with (2 ^ 52 * 2 ^ 52).
    change (2 ^ 106) with (2 ^ 53 * 2 ^ 53). nia. }
  assert (Hloc : loc_ok (Zpos m1 * Zpos m2) 1 (Zpos m1 * Zpos m2) loc_Exact)
    by (unfold loc_ok; lia).
  destruct (Z_lt_le_dec (Zpos m1 * Zpos m2) (2 ^ 105)) as [Hlt|Hge].
  - assert (Hd : Zdigits2 (Zpos m1 * Zpos m2) = 53 + 52).
    { apply Zdigits2_unique; [|lia].
      change (53 + 52 - 1) with 104. change (53 + 52) with 105. lia. }
    destruct (binary_round_aux_normal (Zpos m1 * Zpos m2) 1 (Zpos m1 * Zpos m2) (e1 + e2) _ 52 ltac:(lia)
                ltac:(lia) Hd ltac:(lia) ltac:(lia) ltac:(lia) Hloc)
      as (m & e & Hres & Hm & He & Herr & HN).
    exists m, e, 52. rewrite Hres. repeat split; try lia.
  - assert (Hd : Zdigits2 (Zpos m1 * Zpos m2) = 53 + 53).
    { apply Zdigits2_unique; [|lia].
      change (53 + 53 - 1) with 105. change (53 + 53) with 106. lia. }
    destruct (binary_round_aux_normal (Zpos m1 * Zpos m2) 1 (Zpos m1 * Zpos m2) (e1 + e2) _ 53 ltac:(lia)
                ltac:(lia) Hd ltac:(lia) ltac:(lia) ltac:(lia) Hloc)
      as (m & e & Hres & Hm & He & Herr & HN).
    exists m, e, 53. rewrite Hres. repeat split; try lia.
Qed.

(** ** Values *)

Lemma pow2_pos e : (0 < 2 ^ e)%Q.
Proof. by apply Qpower_0_lt. Qed.

Lemma pow2_add a b : (2 ^ (a + b) == 2 ^ a * 2 ^ b)%Q.
Proof. by apply Qpower_plus. Qed.

Lemma pow2_inject n : 0 <= n -> (inject_Z (2 ^ n) == 2 ^ n)%Q.
Proof. intros H. by rewrite Zpower_Qpower. Qed.

Lemma scaled_le (a b d : Q) : (0 < d -> a * d <= b * d -> a <= b)%Q.
Proof. intros Hd H. by apply Qmult_le_r in H. Qed.

Lemma rounded_rel_error m e ex N D k :
  0 < D -> 0 <= k -> ex <= e ->
  - (2 ^ k * D) <= 2 * (Zpos m * 2 ^ (e - ex) * D - N) <= 2 ^ k * D ->
  2 ^ (52 + k) * D <= N ->
  let X := (inject_Z N / inject_Z D * 2 ^ ex)%Q in
  (X * (1 - roundoff) <= Number.toQ (S754_finite false m e) <= X * (1 + roundoff))%Q.
Proof.
  intros HD Hk He Herr Hbig X.
  set (V := Zpos m * 2 ^ (e - ex)) in *.
  assert (Hint : - N <= 2 ^ 53 * (V * D - N) <= N).
  { rewrite Z.pow_add_r in Hbig by lia.
    change (2 ^ 53) with (2 * 2 ^ 52). nia. }
  assert (HV : (Number.toQ (S754_finite false m e) == inject_Z V * 2 ^ ex)%Q).
  { unfold Number.toQ, V.
    replace e with ((e - ex) + ex) at 1 by lia.
    rewrite pow2_add, inject_Z_mult, pow2_inject by lia. ring. }
  rewrite HV. unfold X.
  set (v := inject_Z V). set (n := inject_Z N). set (d := inject_Z D).
  assert (Hd : (0 < d)%Q).
  { unfold d. change 0%Q with (inject_Z 0). rewrite <- Zlt_Qlt. lia. }
  pose proof (pow2_pos ex) as Ht. set (t := (2 ^ ex)%Q) in *.
  assert (Hq : (- n <= inject_Z (2 ^ 53) * (v * d - n) <= n)%Q).
  { unfold v, n, d.
    rewrite <- inject_Z_mult, <- inject_Z_opp.
    unfold Qminus. rewrite <- inject_Z_opp, <- inject_Z_plus, <- inject_Z_mult.
    rewrite <- !Zle_Qle. lia. }
  change (inject_Z (2 ^ 53)) with (9007199254740992 # 1)%Q in Hq.
  assert (Hx : (n == (n / d) * d)%Q) by (field; lra).
  set (x := (n / d)%Q) in *.
  assert (B1 : (x * (1 - roundoff) <= v)%Q).
  { apply (scaled_le _ _ d Hd). unfold roundoff. rewrite Hx in Hq at 1 2.
    destruct Hq as [Hq _]. lra. }
  assert (B2 : (v <= x * (1 + roundoff))%Q).
  { apply (scaled_le _ _ d Hd). unfold roundoff. rewrite Hx in Hq at 2 3.
    destruct Hq as [_ Hq]. lra. }
  split.
  - assert (E : (x * t * (1 - roundoff) == x * (1 - roundoff) * t)%Q) by ring.
    rewrite E. apply Qmult_le_compat_r; [done | lra].
  - assert (E : (x * t * (1 + roundoff) == x * (1 + roundoff) * t)%Q) by ring.
    rewrite E. apply Qmult_le_compat_r; [done | lra].
Qed.

Lemma inject_Z_pos z : 0 < z -> (0 < inject_Z z)%Q.
Proof. intros H. change 0%Q with (inject_Z 0). by rewrite <- Zlt_Qlt. Qed.

Lemma ofZ_exact c :
  0 < c < 2 ^ 53 ->
  normal (Number.ofZ c) (-52) 0 /\ (Number.toQ (Number.ofZ c) == inject_Z c)%Q.
Proof.
  intros Hc. destruct c as [|p|p]; try lia.
  pose proof (digits2_bounds p) as Hb.
  set (d := Zpos (digits2_pos p)) in *.
  assert (Hd1 : 1 <= d) by (unfold d; lia).
  assert (Hd53 : d <= 53).
  { destruct (Z_lt_le_dec 53 d) as [Hgt|]; [|lia].
    assert (2 ^ 53 <= 2 ^ (d - 1)) by (apply Z.pow_le_mono_r; lia). lia. }
  destruct (binary_normalize_small (Zpos p) d) as (m & Hres & Hm & Hmb);
    try done; try lia.
  unfold Number.ofZ, Number.prec, Number.emax. rewrite Hres. split.
  - exists m, (d - 53). repeat split; try done; lia.
  - unfold Number.toQ. rewrite Hm, inject_Z_mult, pow2_inject by lia.
    rewrite <- Qmult_assoc, <- pow2_add.
    replace (53 - d + (d - 53)) with 0 by lia.
    rewrite Qpower_0_r. ring.
Qed.

Lemma div_rel_error x y lo1 hi1 lo2 hi2 :
  normal x lo1 hi1 -> normal y lo2 hi2 ->
  -1074 <= lo1 - hi2 - 53 -> hi1 - lo2 - 53 + 2 <= 971 ->
  normal (Number.div x y) (lo1 - hi2 - 53) (hi1 - lo2 - 53 + 2)
  /\ (Number.toQ x / Number.toQ y * (1 - roundoff) <= Number.toQ (Number.div x y) <= Number.toQ x / Number.toQ y * (1 + roundoff))%Q.
Proof.
  intros (m1 & e1 & -> & Hm1 & He1) (m2 & e2 & -> & Hm2 & He2) Hlo Hhi.
  destruct (SFdiv_normal m1 e1 m2 e2 Hm1 Hm2)
    as (m & e & k & Hres & Hm & Hk & He & Herr & Hbig); try lia.
  unfold Number.div, Number.prec, Number.emax. rewrite Hres. split.
  - exists m, e. repeat split; try done; lia.
  - pose proof (rounded_rel_error m e (e1 - e2 - 53) (Zpos m1 * 2 ^ 53)
                  (Zpos m2) k ltac:(lia) ltac:(lia) ltac:(lia) Herr Hbig) as H.
    cbv zeta in H.
    assert (E : (inject_Z (Zpos m1 * 2 ^ 53) / inject_Z (Zpos m2)
                 * 2 ^ (e1 - e2 - 53)
                 == Number.toQ (S754_finite false m1 e1) / Number.toQ (S754_finite false m2 e2))%Q).
    { unfold Number.toQ. rewrite inject_Z_mult, pow2_inject by lia.
      replace (e1 - e2 - 53) with (e1 + (- e2 + - (53))) by lia.
      rewrite !pow2_add, !Qpower_opp.
      pose proof (pow2_pos e2). pose proof (pow2_pos 53).
      pose proof (inject_Z_pos (Zpos m2) ltac:(lia)).
      set (a := (2 ^ e1)%Q). set (b := (2 ^ e2)%Q) in *.
      set (c := (2 ^ 53)%Q) in *.
      field. repeat split; lra. }
    rewrite E in H. exact H.
Qed.

Lemma mul_rel_error x y lo1 hi1 lo2 hi2 :
  normal x lo1 hi1 -> normal y lo2 hi2 ->
  -1074 <= lo1 + lo2 + 52 -> hi1 + hi2 + 53 + 1 <= 971 ->
  normal (Number.mul x y) (lo1 + lo2 + 52) (hi1 + hi2 + 54)
  /\ (Number.toQ x * Number.toQ y * (1 - roundoff) <= Number.toQ (Number.mul x y) <= Number.toQ x * Number.toQ y * (1 + roundoff))%Q.
Proof.
  intros (m1 & e1 & -> & Hm1 & He1) (m2 & e2 & -> & Hm2 & He2) Hlo Hhi.
  destruct (SFmul_normal m1 e1 m2 e2 Hm1 Hm2)
    as (m & e & k & Hres & Hm & Hk & He & Herr & Hbig); try lia.
  unfold Number.mul, Number.prec, Number.emax. rewrite Hres. split.
  - exists m, e. repeat split; try done; lia.
  - pose proof (rounded_rel_error m e (e1 + e2) (Zpos m1 * Zpos m2)
                  1 k ltac:(lia) ltac:(lia) ltac:(lia) Herr Hbig) as H.
    cbv zeta in H.
    assert (E : (inject_Z (Zpos m1 * Zpos m2) / inject_Z 1 * 2 ^ (e1 + e2)
                 == Number.toQ (S754_finite false m1 e1) * Number.toQ (S754_finite false m2 e2))%Q).
    { unfold Number.toQ. rewrite inject_Z_mult, pow2_add.
      change (inject_Z 1) with 1%Q. field. }
    rewrite E in H. exact H.
Qed.

(** [Number.scaledNearest f m e] is the integer nearest to [10^f * m * 2^e],
    the larger one at a tie. *)
Lemma scaledNearest_spec f m e :
  let n := inject_Z (Number.scaledNearest f m e) in
  let x := (inject_Z (10 ^ Z.of_nat f) * Number.toQ (S754_finite false m e))%Q in
  (n - (1 # 2) <= x /\ x < n + (1 # 2))%Q.
Proof.
  cbv zeta. unfold Number.scaledNearest, Number.toQ.
  set (s := 10 ^ Z.of_nat f).
  destruct (Z.leb_spec 0 e) as [He|He].
  - rewrite !inject_Z_mult, pow2_inject by lia.
    set (t := (2 ^ e)%Q). split; lra.
  - assert (Hp : 0 < 2 ^ (- e)) by (apply Z.pow_pos_nonneg; lia).
    assert (HB : 2 ^ (1 - e) = 2 * 2 ^ (- e)).
    { replace (1 - e) with (Z.succ (- e)) by lia.
      rewrite Z.pow_succ_r by lia. reflexivity. }
    rewrite HB.
    set (A := 2 * s * Zpos m + 2 ^ (- e)).
    set (B := 2 * 2 ^ (- e)).
    assert (HBpos : 0 < B) by (unfold B; lia).
    pose proof (Z.mul_div_le A B HBpos) as L1.
    pose proof (Z.mul_succ_div_gt A B HBpos) as L2.
    set (n := A / B) in *.
    assert (E : (2 ^ e == / inject_Z (2 ^ (- e)))%Q).
    { rewrite pow2_inject by lia. rewrite Qpower_opp.
      rewrite Qinv_involutive. reflexivity. }
    rewrite E.
    pose proof (inject_Z_pos _ Hp) as Hpq.
    set (p := inject_Z (2 ^ (- e))) in *.
    assert (Q1 : (inject_Z B * inject_Z n <= inject_Z A)%Q)
      by (rewrite <- inject_Z_mult, <- Zle_Qle; exact L1).
    assert (Q2 : (inject_Z A < inject_Z B * (inject_Z n + 1))%Q).
    { change 1%Q with (inject_Z 1).
      rewrite <- inject_Z_plus, <- inject_Z_mult, <- Zlt_Qlt.
      unfold Z.succ in L2. exact L2. }
    unfold A, B in Q1, Q2.
    rewrite !inject_Z_plus, !inject_Z_mult in Q1, Q2.
    fold p in Q1, Q2. change (inject_Z 2) with 2%Q in Q1, Q2.
    set (sq := inject_Z s) in *. set (mq := inject_Z (Zpos m)) in *.
    set (nq := inject_Z n) in *.
    assert (Ex : (sq * (mq * / p) * p == sq * mq)%Q) by (field; lra).
    split.
    + apply (scaled_le _ _ (2 * p)%Q); [lra|].
      assert (E1 : (sq * (mq * / p) * (2 * p) == 2 * (sq * (mq * / p) * p))%Q)
        by ring.
      rewrite E1, Ex. lra.
    + apply Qnot_le_lt. intros Hc.
      apply (Qmult_le_compat_r _ _ (2 * p)%Q) in Hc; [|lra].
      assert (E1 : (sq * (mq * / p) * (2 * p) == 2 * (sq * (mq * / p) * p))%Q)
        by ring.
      rewrite E1, Ex in Hc. lra.
Qed.

Lemma ofZ_100 :
  normal (Number.ofZ 100) (-46) (-46)
  /\ (Number.toQ (Number.ofZ 100) == 100)%Q.
Proof.
  split.
  - exists 7036874417766400%positive, (-46). repeat split; try reflexivity; lia.
  - vm_compute. reflexivity.
Qed.

(** The Number computed for a percentage, against the exact quotient. *)
Lemma percentage_value c T :
  0 < c <= T -> T < 2 ^ 53 ->
  exists m e,
    Admin.percentage c T = S754_finite false m e
    /\ let q := (inject_Z c / inject_Z T)%Q in
       (100 * q * ((1 - roundoff) * (1 - roundoff))
        <= Number.toQ (S754_finite false m e)
        <= 100 * q * ((1 + roundoff) * (1 + roundoff)))%Q.
Proof.
  intros Hc HT.
  destruct (ofZ_exact c ltac:(lia)) as [Nc Vc].
  destruct (ofZ_exact T ltac:(lia)) as [NT VT].
  destruct ofZ_100 as [N100 V100].
  destruct (div_rel_error _ _ _ _ _ _ Nc NT ltac:(lia) ltac:(lia)) as [Nd Vd].
  destruct (mul_rel_error _ _ _ _ _ _ Nd N100 ltac:(lia) ltac:(lia)) as [Nm Vm].
  rewrite Vc, VT in Vd. rewrite V100 in Vm.
  destruct Nm as (m & e & Hres & _). unfold Admin.percentage.
  exists m, e. split; [exact Hres|]. cbv zeta. rewrite <- Hres.
  pose proof (inject_Z_pos c ltac:(lia)) as Hcq.
  pose proof (inject_Z_pos T ltac:(lia)) as HTq.
  assert (Hq : (0 < inject_Z c / inject_Z T)%Q).
  { apply Qlt_shift_div_l; [done | lra]. }
  set (q := (inject_Z c / inject_Z T)%Q) in *.
  set (x1 := Number.toQ (Number.div (Number.ofZ c) (Number.ofZ T))) in *.
  set (x2 := Number.toQ (Number.mul (Number.div (Number.ofZ c) (Number.ofZ T)) (Number.ofZ 100))) in *.
  unfold roundoff in *. split.
  - apply Qle_trans with (x1 * 100 * (1 - (1 # 9007199254740992)))%Q; [|lra].
    assert (E : (100 * q * ((1 - (1 # 9007199254740992)) * (1 - (1 # 9007199254740992)))
                 == (q * (1 - (1 # 9007199254740992))) * 100
                    * (1 - (1 # 9007199254740992)))%Q) by ring.
    rewrite E. lra.
  - apply Qle_trans with (x1 * 100 * (1 + (1 # 9007199254740992)))%Q; [lra|].
    assert (E : (100 * q * ((1 + (1 # 9007199254740992)) * (1 + (1 # 9007199254740992)))
                 == (q * (1 + (1 # 9007199254740992))) * 100
                    * (1 + (1 # 9007199254740992)))%Q) by ring.
    rewrite E. lra.
Qed.

Lemma shownTenths_nearest c T :
  0 <= c <= T -> 0 < T <= 2000000000000 ->
  exists n, Admin.shownTenths c T = Some n
            /\ 2 * Z.abs (n * T - 1000 * c) <= T.
Proof.
  intros Hc HT.
  destruct (Z.eq_dec c 0) as [->|Hc0].
  - exists 0. split; [|lia]. unfold Admin.shownTenths, Admin.percentage.
    change (Number.ofZ 0) with (S754_zero false).
    destruct (ofZ_exact T ltac:(lia)) as [(m & e & -> & _) _].
    reflexivity.
  - destruct (percentage_value c T ltac:(lia) ltac:(lia))
      as (m & e & Hres & Hlo & Hhi).
    unfold Admin.shownTenths. rewrite Hres. eexists. split; [reflexivity|].
    destruct (scaledNearest_spec 1 m e) as [S1 S2].
    change (inject_Z (10 ^ Z.of_nat 1)) with 10%Q in S1, S2.
    set (n := Number.scaledNearest 1 m e) in *.
    set (x := Number.toQ (S754_finite false m e)) in *.
    pose proof (inject_Z_pos T ltac:(lia)) as HTq.
    assert (HTb : (inject_Z T <= 2000000000000)%Q).
    { change 2000000000000%Q with (inject_Z 2000000000000).
      rewrite <- Zle_Qle. lia. }
    assert (Hcq : (inject_Z c == inject_Z c / inject_Z T * inject_Z T)%Q)
      by (field; lra).
    assert (Hq1 : (inject_Z c / inject_Z T <= 1)%Q).
    { apply Qle_shift_div_r; [done|]. rewrite Qmult_1_l, <- Zle_Qle. lia. }
    assert (Hq0 : (0 <= inject_Z c / inject_Z T)%Q).
    { apply Qle_shift_div_l; [done|]. rewrite Qmult_0_l.
      change 0%Q with (inject_Z 0). rewrite <- Zle_Qle. lia. }
    set (q := (inject_Z c / inject_Z T)%Q) in *.
    set (Tq := inject_Z T) in *. set (nq := inject_Z n) in *.
    (* the distance between 1000 q and n, scaled by T *)
    assert (W : (- (Tq + 1) < 2 * (nq - 1000 * q) * Tq < Tq + 1)%Q).
    { unfold roundoff in *.
      assert (W1 : (- ((1 # 2) + (1 # 4000000000000)) < nq - 1000 * q)%Q) by lra.
      assert (W2 : (nq - 1000 * q < (1 # 2) + (1 # 4000000000000))%Q) by lra.
      apply (Qmult_lt_compat_r _ _ Tq) in W1; [|lra].
      apply (Qmult_lt_compat_r _ _ Tq) in W2; [|lra].
      set (w := ((nq - 1000 * q) * Tq)%Q) in *.
      assert (E2 : (2 * (nq - 1000 * q) * Tq == 2 * w)%Q) by (unfold w; ring).
      rewrite E2. split; lra. }
    assert (E : (2 * (nq - 1000 * q) * Tq
                 == inject_Z (2 * (n * T - 1000 * c)))%Q).
    { rewrite inject_Z_mult. unfold Z.sub.
      rewrite inject_Z_plus, inject_Z_opp, !inject_Z_mult.
      fold nq Tq. rewrite Hcq. change (inject_Z 2) with 2%Q.
      change (inject_Z 1000) with 1000%Q. ring. }
    rewrite E in W. destruct W as [W1 W2].
    change 1%Q with (inject_Z 1) in W1, W2.
    unfold Tq in W1, W2.
    rewrite <- inject_Z_plus in W1, W2. rewrite <- inject_Z_opp in W1.
    rewrite <- Zlt_Qlt in W1, W2. lia.
Qed.

Lemma digitsAux_acc fuel n acc :
  Number.digitsAux fuel n acc = Number.digitsAux fuel n [] ++ acc.
Proof.
  revert n acc. induction fuel as [|fuel IH]; intros n acc; [done|].
  cbn [Number.digitsAux]. destruct (n <? 10); [done|].
  rewrite IH. rewrite (IH _ [_]). by rewrite <- app_assoc.
Qed.

Lemma digitsAux_fuel f1 f2 n acc :
  (1 <= f1)%nat -> (1 <= f2)%nat ->
  0 <= n < 2 ^ Z.of_nat f1 -> n < 2 ^ Z.of_nat f2 ->
  Number.digitsAux f1 n acc = Number.digitsAux f2 n acc.
Proof.
  revert f2 n acc. induction f1 as [|f1 IH]; intros f2 n acc H1 H2 Hn1 Hn2;
    [lia|].
  destruct f2 as [|f2]; [lia|]. cbn [Number.digitsAux].
  destruct (Z.ltb_spec n 10) as [Hlt|Hge]; [done|].
  rewrite Nat2Z.inj_succ, Z.pow_succ_r in Hn1, Hn2 by lia.
  assert (Hd : n / 10 < 2 ^ Z.of_nat f1 /\ n / 10 < 2 ^ Z.of_nat f2 /\ 0 <= n / 10).
  { repeat split; try (apply Z.div_lt_upper_bound; lia).
    apply Z.div_pos; lia. }
  assert (F1 : (1 <= f1)%nat).
  { destruct f1; [simpl in Hn1; lia | lia]. }
  assert (F2 : (1 <= f2)%nat).
  { destruct f2; [simpl in Hn2; lia | lia]. }
  apply IH; lia.
Qed.

Lemma decimal_small n : 0 <= n < 10 -> Number.decimal n = [(48 + Z.to_N n)%N].
Proof.
  intros Hn. unfold Number.decimal. cbn [Number.digitsAux].
  destruct (Z.ltb_spec n 10); [|lia]. by rewrite Z.mod_small.
Qed.

Lemma decimal_step n :
  10 <= n -> Number.decimal n = Number.decimal (n / 10) ++ [(48 + Z.to_N (n mod 10))%N].
Proof.
  intros Hn. unfold Number.decimal at 1. cbn [Number.digitsAux].
  destruct (Z.ltb_spec n 10); [lia|].
  rewrite digitsAux_acc. f_equal. unfold Number.decimal.
  pose proof (Z.log2_spec n ltac:(lia)) as [L1 L2].
  pose proof (Z.log2_nonneg n) as L0.
  assert (Hq : 0 < n / 10) by (apply Z.div_str_pos; lia).
  pose proof (Z.log2_spec (n / 10) Hq) as [M1 M2].
  pose proof (Z.log2_nonneg (n / 10)) as M0.
  assert (Hl : 1 <= Z.log2 n).
  { destruct (Z.eq_dec (Z.log2 n) 0) as [E|]; [|lia].
    rewrite E in L2. simpl in L2. lia. }
  apply digitsAux_fuel.
  - lia.
  - lia.
  - rewrite Z2Nat.id by lia. split; [lia|].
    rewrite Z.pow_succ_r in L2 by lia.
    apply Z.div_lt_upper_bound; lia.
  - rewrite Nat2Z.inj_succ, Z2Nat.id by lia. exact M2.
Qed.

(** The text of [toFixed(1)]: the digits of the tenths, a point before
    the last of them. *)
Lemma fixedDigits_one n :
  0 <= n ->
  Number.fixedDigits 1 n = Number.decimal (n / 10) ++ lit "." ++ Number.decimal (n mod 10)
  /\ length (Number.decimal (n mod 10)) = 1%nat.
Proof.
  intros Hn.
  pose proof (Z.mod_pos_bound n 10 ltac:(lia)) as Hmod.
  split; [|by rewrite decimal_small].
  unfold Number.fixedDigits.
  destruct (Z.ltb_spec n 10) as [Hlt|Hge].
  - rewrite Z.div_small, Z.mod_small by lia.
    assert (E : (if n =? 0 then lit "0" else Number.decimal n) = [(48 + Z.to_N n)%N]).
    { destruct (Z.eqb_spec n 0) as [->|]; [done | by apply decimal_small]. }
    rewrite E. rewrite (decimal_small n), (decimal_small 0) by lia. reflexivity.
  - destruct (Z.eqb_spec n 0); [lia|].
    rewrite (decimal_step n Hge), (decimal_small (n mod 10)) by lia.
    assert (Hq : 1 <= n / 10) by (apply Z.div_le_lower_bound; lia).
    assert (Hlen : (1 <= length (Number.decimal (n / 10)))%nat).
    { destruct (Z.ltb_spec (n / 10) 10).
      - rewrite decimal_small by lia. simpl. lia.
      - rewrite decimal_step by lia. rewrite length_app. simpl. lia. }
    set (a := Number.decimal (n / 10)) in *.
    set (d := [(48 + Z.to_N (n mod 10))%N]).
    assert (El : length (a ++ d) = S (length a))
      by (rewrite length_app; simpl; lia).
    cbv zeta. rewrite El.
    destruct (Nat.leb_spec (S (length a)) 1); [lia|].
    rewrite El. replace (S (length a) - 1)%nat with (length a) by lia.
    rewrite take_app_length, drop_app_length. reflexivity.
Qed.

End RoundingFacts.

(** ** The summary card *)

Lemma gt_zero T :
  0 < T < 2 ^ 53 -> Number.gt (Number.ofZ T) (Number.ofZ 0) = true.
Proof.
  intros HT. destruct (ofZ_exact T HT) as [(m & e & -> & _) _]. reflexivity.
Qed.

(** One percentage cell: its text and the value it denotes. *)
Lemma percentCell_nearest c T :
  0 <= c <= T -> 0 < T <= 2000000000000 ->
  exists n,
    Admin.shownTenths c T = Some n
    /\ Admin.percentCell c T = Some (percentText n)
    /\ 0 <= n <= 1000
    /\ nearestTenth n c T.
Proof.
  intros Hc HT.
  destruct (shownTenths_nearest c T Hc HT) as (n & Hn & Hnear).
  assert (Hrange : 0 <= n <= 1000) by nia.
  exists n. split; [exact Hn|]. split; [|split; [exact Hrange | exact Hnear]].
  destruct (fixedDigits_one n ltac:(lia)) as [Htext _].
  unfold percentText. rewrite !app_assoc, <- (app_assoc _ (lit ".")), <- Htext.
  unfold Admin.percentCell. unfold Admin.shownTenths in Hn.
  destruct (Z.eq_dec c 0) as [->|Hc0].
  - destruct (Admin.percentage 0 T) as [sg|sg| |sg m e] eqn:E; try done.
    + injection Hn as <-. reflexivity.
    + exfalso. unfold Admin.percentage in E.
      change (Number.ofZ 0) with (S754_zero false) in E.
      destruct (ofZ_exact T ltac:(lia)) as [(mT & eT & HeqT & _) _].
      rewrite HeqT in E. discriminate E.
  - destruct (percentage_value c T ltac:(lia) ltac:(lia))
      as (m & e & Hres & Hlo & Hhi).
    rewrite Hres in Hn |- *. injection Hn as <-.
    unfold Number.toFixed.
    destruct (Qle_bool (10 ^ 21) (Number.toQ (S754_finite false m e))) eqn:E;
      [|reflexivity].
    exfalso. apply Qle_bool_iff in E.
    change (10 ^ 21)%Q with (1000000000000000000000 # 1)%Q in E.
    pose proof (inject_Z_pos T ltac:(lia)) as HTq.
    assert (Hq1 : (inject_Z c / inject_Z T <= 1)%Q).
    { apply Qle_shift_div_r; [done|]. rewrite Qmult_1_l, <- Zle_Qle. lia. }
    set (q := (inject_Z c / inject_Z T)%Q) in *.
    set (x := Number.toQ (S754_finite false m e)) in *.
    unfold roundoff in Hhi.
    assert (K : (100 * q * ((1 + (1 # 9007199254740992))
                            * (1 + (1 # 9007199254740992))) <= 101)%Q).
    { assert (K0 : ((1 + (1 # 9007199254740992))
                    * (1 + (1 # 9007199254740992)) <= 101 # 100)%Q)
        by (vm_compute; discriminate).
      set (k := ((1 + (1 # 9007199254740992))
                 * (1 + (1 # 9007199254740992)))%Q) in *.
      assert (K1 : (0 <= k)%Q) by (vm_compute; discriminate).
      assert (K2 : (q * k <= 1 * k)%Q) by (apply Qmult_le_compat_r; done).
      assert (E2 : (100 * q * k == 100 * (q * k))%Q) by ring.
      rewrite E2. lra. }
    lra.
Qed.

(** C1, for totals of at most two trillion: when the three counts of a
    summary lie between 0 and [Total] and [Total] is positive, the card
    shows three percentages; each is written with exactly one fractional
    digit and is a one-decimal value nearest to [count / Total * 100]
    (at most 0.05 away from it). *)
Theorem C1_percentage_nearest_tenth (s : Admin.Summary) :
  0 <= Admin.Positive s <= Admin.Total s ->
  0 <= Admin.Negative s <= Admin.Total s ->
  0 <= Admin.Neutral s <= Admin.Total s ->
  0 < Admin.Total s <= 2000000000000 ->
  exists p n u,
    Admin.summaryGrid s
    = Some (Some (percentText p), Some (percentText n), Some (percentText u))
    /\ (0 <= p <= 1000 /\ nearestTenth p (Admin.Positive s) (Admin.Total s))
    /\ (0 <= n <= 1000 /\ nearestTenth n (Admin.Negative s) (Admin.Total s))
    /\ (0 <= u <= 1000 /\ nearestTenth u (Admin.Neutral s) (Admin.Total s))
    /\ length (Number.decimal (p mod 10)) = 1%nat
    /\ length (Number.decimal (n mod 10)) = 1%nat
    /\ length (Number.decimal (u mod 10)) = 1%nat.
Proof.
  intros HP HN HU HT.
  destruct (percentCell_nearest _ _ HP HT) as (p & _ & Pc & Pr & Pn).
  destruct (percentCell_nearest _ _ HN HT) as (n & _ & Nc & Nr & Nn).
  destruct (percentCell_nearest _ _ HU HT) as (u & _ & Uc & Ur & Un).
  exists p, n, u. unfold Admin.summaryGrid.
  rewrite gt_zero by lia. rewrite Pc, Nc, Uc.
  split; [reflexivity|]. do 3 (split; [done|]).
  split; [|split]; apply fixedDigits_one; lia.
Qed.

Lemma C1_percentage_nearest_tenth_witness :
  (0 <= Admin.Positive summaryOfFour <= Admin.Total summaryOfFour)
  /\ (0 <= Admin.Negative summaryOfFour <= Admin.Total summaryOfFour)
  /\ (0 <= Admin.Neutral summaryOfFour <= Admin.Total summaryOfFour)
  /\ (0 < Admin.Total summaryOfFour <= 2000000000000)
  /\ exists p n u,
       Admin.summaryGrid summaryOfFour
       = Some (Some (percentText p), Some (percentText n), Some (percentText u))
       /\ (0 <= p <= 1000 /\ nearestTenth p 2 4)
       /\ (0 <= n <= 1000 /\ nearestTenth n 1 4)
       /\ (0 <= u <= 1000 /\ nearestTenth u 1 4)
       /\ length (Number.decimal (p mod 10)) = 1%nat
       /\ length (Number.decimal (n mod 10)) = 1%nat
       /\ length (Number.decimal (u mod 10)) = 1%nat.
Proof.
  assert (H1 : 0 <= Admin.Positive summaryOfFour <= Admin.Total summaryOfFour)
    by (simpl; lia).
  assert (H2 : 0 <= Admin.Negative summaryOfFour <= Admin.Total summaryOfFour)
    by (simpl; lia).
  assert (H3 : 0 <= Admin.Neutral summaryOfFour <= Admin.Total summaryOfFour)
    by (simpl; lia).
  assert (H4 : 0 < Admin.Total summaryOfFour <= 2000000000000) by (simpl; lia).
  do 4 (split; [assumption|]).
  exact (C1_percentage_nearest_tenth summaryOfFour H1 H2 H3 H4).
Defined.

Example summaryOfFour_grid :
  Admin.summaryGrid summaryOfFour
  = Some (Some (lit "50.0%"), Some (lit "25.0%"), Some (lit "25.0%")).
Proof. vm_compute. reflexivity. Qed.

(** At an exact midpoint the card shows one of the two nearest values,
    not always the one that rounding the exact quotient half up or half
    to even gives: 23 of 80 is 28.75 percent and is shown as 28.7. *)
Example percentage_midpoint :
  Admin.summaryGrid summaryOfEighty
  = Some (Some (lit "28.7%"), Some (lit "51.2%"), Some (lit "20.0%"))
  /\ Admin.shownTenths 23 80 = Some 287
  /\ 2 * (1000 * 23) = (2 * 287 + 1) * 80
  /\ halfUpTenths 23 80 = 288
  /\ halfEvenTenths 23 80 = 288
  /\ nearestTenth 287 23 80 /\ nearestTenth 288 23 80.
Proof.
  split; [vm_compute; reflexivity|].
  split; [vm_compute; reflexivity|].
  repeat split; unfold nearestTenth; simpl; lia.
Qed.

(** Without a bound on [Total] the statement fails: for this summary
    the card shows 97.0 percent for a quotient that lies strictly above
    97.05 percent, so the value shown is not a nearest one-decimal
    value (97.1 is). *)
Lemma C1_percentage_counterexample :
  0 < Admin.Total summaryHuge
  /\ Admin.Positive summaryHuge + Admin.Negative summaryHuge + Admin.Neutral summaryHuge
     = Admin.Total summaryHuge
  /\ Admin.summaryGrid summaryHuge
     = Some (Some (lit "97.0%"), Some (lit "2.9%"), Some (lit "0.0%"))
  /\ Admin.shownTenths (Admin.Positive summaryHuge) (Admin.Total summaryHuge) = Some 970
  /\ percentText 970 = lit "97.0%"
  /\ 9705 * Admin.Total summaryHuge < 10000 * Admin.Positive summaryHuge
  /\ ~ nearestTenth 970 (Admin.Positive summaryHuge) (Admin.Total summaryHuge)
  /\ nearestTenth 971 (Admin.Positive summaryHuge) (Admin.Total summaryHuge)
  /\ ~ (forall count total,
          0 <= count <= total -> 0 < total ->
          exists n, Admin.shownTenths count total = Some n
                    /\ nearestTenth n count total).
Proof.
  assert (S : Admin.shownTenths (Admin.Positive summaryHuge) (Admin.Total summaryHuge) = Some 970)
    by (vm_compute; reflexivity).
  assert (F : ~ nearestTenth 970 (Admin.Positive summaryHuge) (Admin.Total summaryHuge))
    by (unfold nearestTenth; simpl; lia).
  split; [simpl; lia|]. split; [reflexivity|].
  split; [vm_compute; reflexivity|].
  split; [exact S|].
  split; [vm_compute; reflexivity|].
  split; [simpl; lia|]. split; [exact F|].
  split; [unfold nearestTenth; simpl; lia|].
  intros H.
  destruct (H (Admin.Positive summaryHuge) (Admin.Total summaryHuge))
    as (n & Hn & Hnear); [simpl; lia | simpl; lia |].
  rewrite S in Hn. injection Hn as <-. exact (F Hnear).
Qed.

(* ================================================================== *)
(** * More about the string primitives *)
(* ================================================================== *)

Lemma isWhiteSpace_upper c : isUpperUnit c = true -> isWhiteSpace c = false.
Proof.
  unfold isUpperUnit, isWhiteSpace. intros H.
  apply andb_true_iff in H as [H1 H2]. apply N.leb_le in H1, H2.
  apply orb_false_iff. split.
  - cbn [existsb].
    repeat match goal with
    | |- context [N.eqb c ?k] => destruct (N.eqb_spec c k); [lia|]
    end. reflexivity.
  - apply andb_false_iff. left. apply N.leb_gt. lia.
Qed.

Lemma isWhiteSpace_lower c : isWhiteSpace (toLowerCaseUnit c) = isWhiteSpace c.
Proof.
  unfold toLowerCaseUnit.
  destruct ((65 <=? c)%N && (c <=? 90)%N) eqn:E; [|reflexivity].
  rewrite (isWhiteSpace_upper c E).
  apply andb_true_iff in E as [H1 H2]. apply N.leb_le in H1, H2.
  unfold isWhiteSpace. apply orb_false_iff. split.
  - cbn [existsb].
    repeat match goal with
    | |- context [N.eqb ?x ?k] => destruct (N.eqb_spec x k); [lia|]
    end. reflexivity.
  - apply andb_false_iff. left. apply N.leb_gt. lia.
Qed.

(** A string that neither starts nor ends with white space is left
    alone by [trim]. *)
Lemma trim_fixed (s : jsstring) :
  (forall c u, s = c :: u -> isWhiteSpace c = false) ->
  (forall u c, s = u ++ [c] -> isWhiteSpace c = false) ->
  trim s = s.
Proof.
  intros Hhead Hlast. unfold trim.
  assert (E : trimStart s = s).
  { destruct s as [|c u]; [done|]. simpl. by rewrite (Hhead c u eq_refl). }
  rewrite E. unfold trimEnd.
  destruct s as [|c u _] using rev_ind; [done|].
  rewrite rev_app_distr. simpl. rewrite (Hlast u c eq_refl).
  change (c :: rev u) with (rev [c] ++ rev u).
  by rewrite <- rev_app_distr, rev_involutive.
Qed.

Lemma trim_idempotent (s : jsstring) : trim (trim s) = trim s.
Proof.
  destruct (trim_trimmedOf s) as (l & r & _ & _ & _ & Hh & Hl).
  by apply trim_fixed.
Qed.

Lemma trim_no_white_space (s : jsstring) :
  forallb (fun c => negb (isWhiteSpace c)) s = true -> trim s = s.
Proof.
  intros H. rewrite forallb_forall in H. apply trim_fixed.
  - intros c u ->. apply negb_true_iff, H. by left.
  - intros u c ->. apply negb_true_iff, H. apply in_app_iff. right. by left.
Qed.

Lemma trim_toLowerCaseBasicLatin (s : jsstring) :
  trim (toLowerCaseBasicLatin (trim s)) = toLowerCaseBasicLatin (trim s).
Proof.
  destruct (trim_trimmedOf s) as (l & r & _ & _ & _ & Hh & Hl).
  apply trim_fixed.
  - intros c u Hu. destruct (trim s) as [|d t]; [done|].
    simpl in Hu. injection Hu as <- _.
    rewrite isWhiteSpace_lower. by apply (Hh d t).
  - intros u c Hu.
    destruct (trim s) as [|d t _] using rev_ind.
    + by destruct u.
    + unfold toLowerCaseBasicLatin in Hu. rewrite map_app in Hu. simpl in Hu.
      apply app_inj_tail in Hu as [_ <-].
      rewrite isWhiteSpace_lower. by apply (Hl t d).
Qed.

Lemma toLowerCaseUnit_idempotent c :
  toLowerCaseUnit (toLowerCaseUnit c) = toLowerCaseUnit c.
Proof.
  unfold toLowerCaseUnit.
  destruct ((65 <=? c)%N && (c <=? 90)%N) eqn:E; [|by rewrite E].
  apply andb_true_iff in E as [H1 H2]. apply N.leb_le in H1, H2.
  destruct ((65 <=? c + 32)%N && (c + 32 <=? 90)%N) eqn:E2; [|done].
  apply andb_true_iff in E2 as [_ H4]. apply N.leb_le in H4. lia.
Qed.

Lemma toLowerCaseBasicLatin_idempotent (s : jsstring) :
  toLowerCaseBasicLatin (toLowerCaseBasicLatin s) = toLowerCaseBasicLatin s.
Proof.
  unfold toLowerCaseBasicLatin. rewrite map_map. apply map_ext.
  intros c. apply toLowerCaseUnit_idempotent.
Qed.

(** X1: for an e-mail of Basic Latin, what the login and signup forms
    send is already in normal form: trimming and lowering it again gives
    the same text, so a user who re-enters the address as it was sent
    sends it unchanged.  The case tables enter through their behaviour
    on Basic Latin only. *)
Theorem email_normalisation_idempotent
    {U : UnicodeData} (entered : jsstring) :
  basicLatinLowering -> isBasicLatin entered ->
  let sent := toLowerCase (trim entered) in
  toLowerCase (trim sent) = sent
  /\ trim sent = sent
  /\ toLowerCase sent = sent
  /\ isBasicLatin sent
  /\ (forall l : Login.State,
        Login.email (Login.formData l) = sent ->
        snd (Login.validateForm l) = true ->
        Api.emailOf <$> snd (Login.handleSubmit l) = Some (Some sent)).
Proof.
  intros Law He. cbv zeta.
  pose proof (trim_isBasicLatin _ He) as Ht.
  rewrite (toLowerCase_basicLatin _ Law Ht).
  pose proof (toLowerCaseBasicLatin_isBasicLatin _ Ht) as Hs.
  assert (E : toLowerCase (trim (toLowerCaseBasicLatin (trim entered)))
              = toLowerCaseBasicLatin (trim entered)).
  { rewrite trim_toLowerCaseBasicLatin, (toLowerCase_basicLatin _ Law Hs).
    apply toLowerCaseBasicLatin_idempotent. }
  split; [exact E|]. split; [apply trim_toLowerCaseBasicLatin|].
  split; [rewrite (toLowerCase_basicLatin _ Law Hs);
          apply toLowerCaseBasicLatin_idempotent|].
  split; [exact Hs|].
  intros l Hl Hv. unfold Login.handleSubmit.
  destruct (Login.validateForm l) as [st ok]. simpl in Hv. subst ok. simpl.
  by rewrite Hl, E.
Qed.

Lemma email_normalisation_idempotent_witness :
  @basicLatinLowering basicLatinOnly
  /\ isBasicLatin (lit " John@Example.com ")
  /\ toLowerCase (H := basicLatinOnly) (trim (lit "john@example.com"))
     = lit "john@example.com".
Proof.
  pose proof basicLatinOnly_lowering as Law.
  assert (He : isBasicLatin (lit " John@Example.com "))
    by (apply (bool_decide_unpack _); vm_compute; exact I).
  split; [exact Law|]. split; [exact He|].
  exact (proj1 (email_normalisation_idempotent (U := basicLatinOnly)
                  (lit " John@Example.com ") Law He)).
Defined.

(* ================================================================== *)
(** * More about the signup and login forms *)
(* ================================================================== *)

Lemma notSpaceNorAt_spec c :
  Signup.notSpaceNorAt c = true <-> isWhiteSpace c = false /\ c <> 64%N.
Proof.
  unfold Signup.notSpaceNorAt. rewrite andb_true_iff, !negb_true_iff.
  by rewrite N.eqb_neq.
Qed.

Lemma emailShape_no_white_space s :
  emailShape s -> forallb (fun c => negb (isWhiteSpace c)) s = true.
Proof.
  intros (a & b & c & -> & _ & _ & _ & Fa & Fb & Fc).
  rewrite forallb_forall in *. intros x Hx.
  rewrite !in_app_iff in Hx. simpl in Hx. apply negb_true_iff.
  destruct Hx as [Hx|[[<-|[]]|[Hx|[[<-|[]]|Hx]]]]; try reflexivity.
  - by apply notSpaceNorAt_spec, Fa.
  - by apply notSpaceNorAt_spec, Fb.
  - by apply notSpaceNorAt_spec, Fc.
Qed.

Lemma filter_at_none (a : jsstring) :
  forallb Signup.notSpaceNorAt a = true ->
  filter (fun c => c = 64%N) a = [].
Proof.
  induction a as [|x a IH]; [done|]. simpl. intros H.
  apply andb_true_iff in H as [Hx Ha]. apply notSpaceNorAt_spec in Hx as [_ Hx].
  rewrite filter_cons. destruct (decide (x = 64%N)); [done|]. by apply IH.
Qed.

Lemma emailShape_one_at s :
  emailShape s -> length (filter (fun c => c = 64%N) s) = 1%nat.
Proof.
  intros (a & b & c & -> & _ & _ & _ & Fa & Fb & Fc).
  rewrite !filter_app, (filter_at_none a Fa), (filter_at_none b Fb),
    (filter_at_none c Fc). reflexivity.
Qed.

(** X2: the test of the signup form's regular expression accepts exactly
    the strings made of a non-empty run without white space or [@], an
    [@], and two more such runs separated by a dot; an accepted string
    holds no white space at all and exactly one [@]. *)
Theorem emailRegex_test_iff_shape (s : jsstring) :
  (Signup.emailRegex_test s = true <-> emailShape s)
  /\ (Signup.emailRegex_test s = true ->
        forallb (fun c => negb (isWhiteSpace c)) s = true
        /\ length (filter (fun c => c = 64%N) s) = 1%nat
        /\ (5 <= length s)%nat).
Proof.
  split.
  - split; [apply emailRegex_test_shape | apply emailRegex_test_complete].
  - intros H. apply emailRegex_test_shape in H.
    split; [by apply emailShape_no_white_space|].
    split; [by apply emailShape_one_at|].
    destruct H as (a & b & c & -> & Ha & Hb & Hc & _).
    rewrite !length_app. simpl.
    destruct a, b, c; simpl; try done; lia.
Qed.

Lemma emailShape_truthy_trim s : emailShape s -> truthy (trim s) = true.
Proof.
  intros H. rewrite (trim_no_white_space s (emailShape_no_white_space s H)).
  destruct H as (a & b & c & -> & Ha & _). by destruct a.
Qed.

Lemma signup_validationErrors_empty fd :
  Signup.validationErrors fd = ∅ <-> signupValid fd.
Proof.
  unfold signupValid. split.
  - intros H. pose proof (signup_valid_email fd H) as He.
    unfold Signup.validationErrors in H. rewrite He in H. cbn [negb] in H.
    destruct (truthy (trim (Signup.name fd))) eqn:E1;
      destruct (Nat.ltb_spec (length (trim (Signup.name fd))) 2);
      destruct (truthy (trim (Signup.email fd))) eqn:E3;
      destruct (truthy (Signup.password fd)) eqn:E4;
      destruct (Nat.ltb_spec (length (Signup.password fd)) 6);
      destruct (truthy (Signup.confirmPassword fd)) eqn:E6;
      destruct (bool_decide (Signup.password fd = Signup.confirmPassword fd))
        eqn:E7;
      cbn [negb] in H; try (by apply insert_non_empty in H).
    apply bool_decide_eq_true in E7.
    repeat split; try done. by apply emailRegex_test_shape.
  - intros (Hn & He & Hp & Hc). unfold Signup.validationErrors.
    rewrite (emailRegex_test_complete _ He), (emailShape_truthy_trim _ He).
    rewrite Hc, bool_decide_eq_true_2 by done.
    assert (T1 : truthy (trim (Signup.name fd)) = true)
      by (apply truthy_length; lia).
    assert (T2 : truthy (Signup.password fd) = true)
      by (apply truthy_length; lia).
    rewrite T1, T2. cbn [negb].
    destruct (Nat.ltb_spec (length (trim (Signup.name fd))) 2); [lia|].
    destruct (Nat.ltb_spec (length (Signup.password fd)) 6); [lia|].
    reflexivity.
Qed.

(** X3: the signup form passes its validation exactly when the trimmed
    name has at least two code units, the e-mail as typed has the shape
    of the regular expression, the password has at least six code units
    and the confirmation equals the password. *)
Theorem signup_validation_iff (st : Signup.State) :
  snd (Signup.validateForm st) = true <-> signupValid (Signup.formData st).
Proof.
  unfold Signup.validateForm. simpl. rewrite noKeys_true.
  apply signup_validationErrors_empty.
Qed.

(** X4: the signup form never sends a trimmed e-mail: an e-mail with
    white space anywhere, also at its ends, is rejected with an error on
    the e-mail field and nothing is sent; for a form that is sent the
    e-mail of the request is the typed text with its letters lowered. *)
Theorem signup_rejects_white_space {U : UnicodeData} (st : Signup.State) :
  let fd := Signup.formData st in
  (existsb isWhiteSpace (Signup.email fd) = true ->
     snd (Signup.handleSubmit st) = None
     /\ is_Some (Signup.formErrors (fst (Signup.handleSubmit st)) !! "email"))
  /\ (snd (Signup.handleSubmit st) = None
      \/ (snd (Signup.handleSubmit st)
          = Some (Api.signup (trim (Signup.name fd))
                             (toLowerCase (Signup.email fd))
                             (Signup.password fd))
          /\ trim (Signup.email fd) = Signup.email fd
          /\ existsb isWhiteSpace (Signup.email fd) = false)).
Proof.
  cbv zeta. set (fd := Signup.formData st).
  assert (Hws : existsb isWhiteSpace (Signup.email fd) = true ->
                Signup.emailRegex_test (Signup.email fd) = false).
  { intros H. destruct (Signup.emailRegex_test (Signup.email fd)) eqn:E; [|done].
    apply emailRegex_test_shape, emailShape_no_white_space in E.
    apply existsb_exists in H as (x & Hin & Hx).
    rewrite forallb_forall in E. specialize (E x Hin). by rewrite Hx in E. }
  split.
  - intros H. specialize (Hws H).
    assert (Hkey : is_Some (Signup.validationErrors fd !! "email")).
    { unfold Signup.validationErrors. rewrite Hws. cbn [negb].
      destruct (truthy (trim (Signup.name fd)));
        destruct (length (trim (Signup.name fd)) <? 2)%nat;
        destruct (truthy (trim (Signup.email fd)));
        destruct (truthy (Signup.password fd));
        destruct (length (Signup.password fd) <? 6)%nat;
        destruct (truthy (Signup.confirmPassword fd));
        destruct (bool_decide (Signup.password fd = Signup.confirmPassword fd));
        cbn [negb]; by simplify_map_eq. }
    unfold Signup.handleSubmit, Signup.validateForm. fold fd.
    destruct (noKeys (Signup.validationErrors fd)) eqn:E.
    + apply noKeys_true in E. rewrite E in Hkey.
      rewrite lookup_empty in Hkey. by destruct Hkey.
    + simpl. done.
  - unfold Signup.handleSubmit, Signup.validateForm. fold fd.
    destruct (noKeys (Signup.validationErrors fd)) eqn:E; simpl; [|by left].
    right. apply noKeys_true, signup_validationErrors_empty in E.
    destruct E as (_ & He & _).
    pose proof (emailShape_no_white_space _ He) as Hn.
    rewrite (trim_no_white_space _ Hn). repeat split.
    destruct (existsb isWhiteSpace (Signup.email fd)) eqn:Ex; [|done].
    specialize (Hws eq_refl).
    rewrite (emailRegex_test_complete _ He) in Hws. done.
Qed.

Lemma login_validationErrors_empty fd :
  Login.validationErrors fd = ∅
  <-> (0 < length (trim (Login.email fd)))%nat
      /\ (0 < length (Login.password fd))%nat.
Proof.
  rewrite <- !truthy_length. unfold Login.validationErrors.
  destruct (truthy (trim (Login.email fd)));
    destruct (truthy (Login.password fd)); cbn [negb];
    (split; [intros H; try (by apply insert_non_empty in H); done
            | intros [? ?]; done]).
Qed.

(** X5: the login form sends a request exactly when the trimmed e-mail
    and the password are not empty - there is no check of the e-mail's
    shape - and errors left by an earlier attempt never block it: what
    is sent and the errors shown depend on the typed data only; the
    password goes out as typed. *)
Theorem login_validation_iff {U : UnicodeData} (st st' : Login.State) :
  (is_Some (snd (Login.handleSubmit st))
   <-> (0 < length (trim (Login.email (Login.formData st))))%nat
       /\ (0 < length (Login.password (Login.formData st)))%nat)
  /\ (Login.formData st = Login.formData st' ->
        snd (Login.handleSubmit st) = snd (Login.handleSubmit st')
        /\ Login.formErrors (fst (Login.handleSubmit st))
           = Login.formErrors (fst (Login.handleSubmit st')))
  /\ (forall e p, snd (Login.handleSubmit st) = Some (Api.signin e p) ->
        p = Login.password (Login.formData st)).
Proof.
  unfold Login.handleSubmit, Login.validateForm. split; [|split].
  - rewrite <- login_validationErrors_empty, <- noKeys_true.
    destruct (noKeys _); simpl; split; intros H;
      first [done | by eexists | by destruct H].
  - intros ->. split; destruct (noKeys _); reflexivity.
  - intros e p. destruct (noKeys _); simpl; intros [= _ <-]; reflexivity.
Qed.

(** X6: typing into one field of the login form sets that field and
    nothing else of the form data, hides the error of that field and
    the general error, and leaves the error of the other field alone. *)
Theorem login_change_frame (f g : LoginRun.Field) (v : jsstring) (st : Login.State) :
  let st' := LoginRun.handleChange f v st in
  f <> g ->
  (match f with
   | LoginRun.Email =>
       Login.email (Login.formData st') = v
       /\ Login.password (Login.formData st') = Login.password (Login.formData st)
   | LoginRun.Password =>
       Login.password (Login.formData st') = v
       /\ Login.email (Login.formData st') = Login.email (Login.formData st)
   end)
  /\ Login.error st' = []
  /\ truthy (default [] (Login.formErrors st' !! LoginRun.fieldName f)) = false
  /\ Login.formErrors st' !! LoginRun.fieldName g
     = Login.formErrors st !! LoginRun.fieldName g.
Proof.
  cbv zeta. intros Hfg. split; [by destruct f|]. split; [reflexivity|].
  assert (Hn : LoginRun.fieldName f <> LoginRun.fieldName g)
    by (destruct f, g; done).
  unfold LoginRun.handleChange. cbn [Login.formErrors].
  destruct (Login.formErrors st !! LoginRun.fieldName f) as [e|] eqn:E.
  - destruct (truthy e) eqn:T.
    + rewrite lookup_insert_eq, lookup_insert_ne by done. done.
    + rewrite E. done.
  - rewrite E. done.
Qed.

Lemma login_change_frame_witness :
  LoginRun.Email <> LoginRun.Password
  /\ Login.error (LoginRun.handleChange LoginRun.Email (lit "a@b.c") loginFilled)
     = [].
Proof.
  assert (H : LoginRun.Email <> LoginRun.Password) by discriminate.
  split; [exact H|].
  exact (proj1 (proj2 (login_change_frame LoginRun.Email LoginRun.Password
                         (lit "a@b.c") loginFilled H))).
Defined.

(* ================================================================== *)
(** * Runs of the feedback page *)
(* ================================================================== *)

Lemma orElse_truthy m d : truthy d = true -> truthy (ApiClient.orElse m d) = true.
Proof.
  intros Hd. unfold ApiClient.orElse. destruct m as [s|]; [|done].
  by destruct (truthy s) eqn:E.
Qed.

Lemma handleFailure_truthy m st :
  truthy (Feedback.error (Feedback.handleFailure m st)) = true.
Proof. simpl. by destruct (truthy m) eqn:E. Qed.

Lemma feedback_run_invariant w :
  FeedbackRun.reachable w ->
  0 <= Feedback.rating (Feedback.formData (FeedbackRun.ui w)) <= 5
  /\ ((Feedback.loading (FeedbackRun.ui w) = true
       /\ exists q, FeedbackRun.inflight w = [q])
      \/ (Feedback.loading (FeedbackRun.ui w) = false
          /\ FeedbackRun.inflight w = []))
  /\ Forall FeedbackRun.wellFormed (FeedbackRun.sent w).
Proof.
  induction 1 as [|a w Hreach (IHr & IHl & IHs) Hen].
  { simpl. split; [lia|]. split; [by right | constructor]. }
  destruct a as [v|s|u|s| |fs]; simpl in Hen.
  - simpl. split; [done|]. split; [|done]. right.
    destruct IHl as [[Hl _]|[Hl Hi]]; [congruence | done].
  - simpl. split; [|split; done].
    unfold Feedback.stars in Hen.
    repeat (apply elem_of_cons in Hen as [->|Hen]; [lia|]).
    by apply elem_of_nil in Hen.
  - destruct IHl as [[Hl _]|[Hl Hi]]; [congruence|].
    unfold FeedbackRun.run, Feedback.handleSubmit, Feedback.validateForm.
    destruct (noKeys (Feedback.validationErrors
                        (Feedback.formData (FeedbackRun.ui w)))) eqn:E.
    + apply noKeys_true, validationErrors_empty in E as [Hr Hc].
      simpl. rewrite Hi. split; [done|]. split; [left; eauto|].
      apply Forall_app. split; [done|]. constructor; [|constructor].
      simpl. split; [lia|]. split; [done | apply trim_idempotent].
    + simpl. rewrite Hi, !app_nil_r. split; [done|]. split; [by right | done].
  - destruct IHl as [[Hl [q Hq]]|[Hl Hi]]; [|done].
    simpl. rewrite Hq. simpl. split; [|split; [right|done]].
    + destruct (ApiClient.call s) as [r|e]; simpl; [|done].
      unfold Feedback.handleResponse. destruct (Feedback.r_success r); simpl;
        [lia | done].
    + split; [|done].
      destruct (ApiClient.call s) as [r|e]; simpl; [|done].
      unfold Feedback.handleResponse. by destruct (Feedback.r_success r).
  - simpl. done.
  - simpl. done.
Qed.

(** X7: in every state a run of the feedback page reaches, at most one
    [submitFeedback] request is pending, and the page is loading exactly
    while one is: a second submission cannot start before the first has
    settled. *)
Theorem feedback_single_flight (w : FeedbackRun.World) :
  FeedbackRun.reachable w ->
  (length (FeedbackRun.inflight w) <= 1)%nat
  /\ (Feedback.loading (FeedbackRun.ui w) = true
      <-> length (FeedbackRun.inflight w) = 1%nat)
  /\ (forall u, FeedbackRun.enabled (FeedbackRun.ClickSubmit u) w ->
        FeedbackRun.inflight w = []).
Proof.
  intros H. destruct (feedback_run_invariant w H) as (_ & Hl & _).
  destruct Hl as [[Hl [q Hq]]|[Hl Hi]].
  - rewrite Hq, Hl. simpl. repeat split; try done; try lia.
    intros u Hu. congruence.
  - rewrite Hi, Hl. simpl. repeat split; try done; lia.
Qed.

(** X8: every request a run of the feedback page has made carries a
    rating of one to five stars and a comment of at least five code
    units that neither starts nor ends with white space; the number of
    requests pending never exceeds the number made. *)
Theorem feedback_sent_well_formed (w : FeedbackRun.World) :
  FeedbackRun.reachable w ->
  Forall FeedbackRun.wellFormed (FeedbackRun.sent w)
  /\ (forall u r c, Api.submitFeedback u r c ∈ FeedbackRun.sent w ->
        1 <= r <= 5 /\ (5 <= length c)%nat /\ trimmedOf c c).
Proof.
  intros H. destruct (feedback_run_invariant w H) as (_ & _ & Hs).
  split; [done|]. intros u r c Hin.
  rewrite Forall_forall in Hs. destruct (Hs _ Hin) as (Hr & Hc & Ht).
  repeat split; try done; try lia.
  rewrite <- Ht at 2. apply trim_trimmedOf.
Qed.

Lemma feedbackPending_reachable : FeedbackRun.reachable feedbackPending.
Proof.
  unfold feedbackPending.
  apply FeedbackRun.reach_run;
    [apply FeedbackRun.reach_run;
       [apply FeedbackRun.reach_run; [apply FeedbackRun.reach_start|]|]|].
  - reflexivity.
  - simpl. unfold Feedback.stars. do 3 apply list_elem_of_further.
    apply list_elem_of_here.
  - reflexivity.
Defined.

Lemma feedback_single_flight_witness :
  FeedbackRun.reachable feedbackPending
  /\ (length (FeedbackRun.inflight feedbackPending) <= 1)%nat.
Proof.
  split; [exact feedbackPending_reachable|].
  exact (proj1 (feedback_single_flight feedbackPending feedbackPending_reachable)).
Defined.

Lemma feedback_sent_well_formed_witness :
  FeedbackRun.reachable feedbackPending
  /\ Forall FeedbackRun.wellFormed (FeedbackRun.sent feedbackPending).
Proof.
  split; [exact feedbackPending_reachable|].
  exact (proj1 (feedback_sent_well_formed feedbackPending
                  feedbackPending_reachable)).
Defined.

Example feedbackPending_sent :
  FeedbackRun.sent feedbackPending = [Api.submitFeedback 7 4 (lit "Great!")]
  /\ FeedbackRun.inflight feedbackPending
     = [Api.submitFeedback 7 4 (lit "Great!")].
Proof. split; reflexivity. Qed.

(** X9: once a submitted feedback has settled the page stops loading.
    After a response with [success] the form is empty again, the new
    feedback heads the list, and submitting again at once sends nothing;
    after any other settlement - a response without [success], an error
    response, no response at all - the form keeps its data, the list is
    unchanged, an error text is shown and submitting again sends the
    same request. *)
Theorem feedback_settle_then_resubmit
    (u : Z) (st : Feedback.State) (q : Api.Request)
    (s : ApiClient.Settled Feedback.Response) :
  snd (Feedback.handleSubmit u st) = Some q ->
  let st1 := fst (Feedback.handleSubmit u st) in
  let st2 := FeedbackRun.settle (ApiClient.call s) st1 in
  Feedback.loading st1 = true
  /\ Feedback.loading st2 = false
  /\ match s with
     | ApiClient.Fulfilled r =>
         if Feedback.r_success r then
           Feedback.formData st2 = Feedback.formData Feedback.initial
           /\ Feedback.feedbacks st2 = Feedback.r_feedback r :: Feedback.feedbacks st
           /\ snd (Feedback.handleSubmit u st2) = None
           /\ is_Some (Feedback.formErrors (fst (Feedback.handleSubmit u st2)) !! "rating")
           /\ is_Some (Feedback.formErrors (fst (Feedback.handleSubmit u st2)) !! "comment")
         else
           Feedback.formData st2 = Feedback.formData st
           /\ Feedback.feedbacks st2 = Feedback.feedbacks st
           /\ truthy (Feedback.error st2) = true
           /\ snd (Feedback.handleSubmit u st2) = Some q
     | ApiClient.Rejected resp =>
         Feedback.formData st2 = Feedback.formData st
         /\ Feedback.feedbacks st2 = Feedback.feedbacks st
         /\ truthy (Feedback.error st2) = true
         /\ snd (Feedback.handleSubmit u st2) = Some q
         /\ (resp = None \/ resp = Some None ->
               Feedback.error st2 = lit "Network error")
     end.
Proof.
  intros Hq.
  assert (E : noKeys (Feedback.validationErrors (Feedback.formData st)) = true).
  { unfold Feedback.handleSubmit, Feedback.validateForm in Hq.
    by destruct (noKeys _). }
  assert (H1 : Feedback.handleSubmit u st
    = ({| Feedback.formData := Feedback.formData st; Feedback.loading := true;
          Feedback.error := []; Feedback.success := [];
          Feedback.formErrors := Feedback.validationErrors (Feedback.formData st);
          Feedback.sentimentResult := None;
          Feedback.feedbacks := Feedback.feedbacks st |},
       Some (Api.submitFeedback u (Feedback.rating (Feedback.formData st))
               (trim (Feedback.comment (Feedback.formData st)))))).
  { unfold Feedback.handleSubmit, Feedback.validateForm. by rewrite E. }
  rewrite H1 in Hq. cbn [snd] in Hq. injection Hq as <-.
  rewrite H1. cbn [fst snd]. clear H1.
  split; [reflexivity|].
  assert (Hre : forall st', Feedback.formData st' = Feedback.formData st ->
            snd (Feedback.handleSubmit u st')
            = Some (Api.submitFeedback u (Feedback.rating (Feedback.formData st))
                      (trim (Feedback.comment (Feedback.formData st))))).
  { intros st' He. unfold Feedback.handleSubmit, Feedback.validateForm.
    rewrite He, E. reflexivity. }
  destruct s as [r|resp]; cbn [ApiClient.call FeedbackRun.settle].
  - unfold Feedback.handleResponse. destruct (Feedback.r_success r).
    + split; [reflexivity|]. do 2 (split; [reflexivity|]).
      split; [reflexivity|]. split; eexists; reflexivity.
    + split; [reflexivity|]. do 2 (split; [reflexivity|]).
      split; [cbn; by destruct (truthy (Feedback.r_message r)) eqn:T|].
      by apply Hre.
  - assert (Hgen : forall e,
      Feedback.loading (Feedback.handleFailure e
        {| Feedback.formData := Feedback.formData st; Feedback.loading := true;
           Feedback.error := []; Feedback.success := [];
           Feedback.formErrors := Feedback.validationErrors (Feedback.formData st);
           Feedback.sentimentResult := None;
           Feedback.feedbacks := Feedback.feedbacks st |}) = false) by done.
    destruct resp as [[b|]|]; cbn [ApiClient.call FeedbackRun.settle];
      (split; [reflexivity|]); (do 2 (split; [reflexivity|]));
      (split; [apply handleFailure_truthy|]);
      (split; [by apply Hre|]).
    + intros [?|?]; done.
    + intros _. reflexivity.
    + intros _. reflexivity.
Qed.

Lemma feedback_settle_then_resubmit_witness :
  snd (Feedback.handleSubmit 7 feedbackFilled)
  = Some (Api.submitFeedback 7 4 (lit "Great!"))
  /\ Feedback.error
       (FeedbackRun.settle (ApiClient.call (ApiClient.Rejected None))
          (fst (Feedback.handleSubmit 7 feedbackFilled)))
     = lit "Network error".
Proof.
  assert (H : snd (Feedback.handleSubmit 7 feedbackFilled)
              = Some (Api.submitFeedback 7 4 (lit "Great!"))) by reflexivity.
  split; [exact H|].
  pose proof (feedback_settle_then_resubmit 7 feedbackFilled _
                (ApiClient.Rejected None) H) as (_ & _ & _ & _ & _ & _ & W).
  exact (W (or_introl eq_refl)).
Defined.

(* ================================================================== *)
(** * What the signup form sends, and what it does afterwards *)
(* ================================================================== *)

Lemma toLowerCaseUnit_class c :
  Signup.notSpaceNorAt (toLowerCaseUnit c) = Signup.notSpaceNorAt c
  /\ (toLowerCaseUnit c =? 64)%N = (c =? 64)%N
  /\ (toLowerCaseUnit c =? 46)%N = (c =? 46)%N.
Proof.
  assert (H : forall k, (k < 65 \/ 90 + 32 < k)%N ->
                (toLowerCaseUnit c =? k)%N = (c =? k)%N).
  { intros k Hk. unfold toLowerCaseUnit.
    destruct ((65 <=? c) && (c <=? 90))%N eqn:E; [|done].
    apply andb_true_iff in E as [E1 E2].
    apply N.leb_le in E1. apply N.leb_le in E2.
    destruct (N.eqb_spec (c + 32) k), (N.eqb_spec c k); lia || done. }
  split; [|split; apply H; lia].
  unfold Signup.notSpaceNorAt.
  by rewrite isWhiteSpace_lower, (H 64%N) by lia.
Qed.

Lemma span_toLowerCaseBasicLatin s :
  Signup.span Signup.notSpaceNorAt (toLowerCaseBasicLatin s)
  = (toLowerCaseBasicLatin (fst (Signup.span Signup.notSpaceNorAt s)),
     toLowerCaseBasicLatin (snd (Signup.span Signup.notSpaceNorAt s))).
Proof.
  induction s as [|c s IH]; [done|].
  cbn [toLowerCaseBasicLatin map Signup.span].
  rewrite (proj1 (toLowerCaseUnit_class c)).
  destruct (Signup.notSpaceNorAt c); [|done].
  fold (toLowerCaseBasicLatin s). rewrite IH.
  by destruct (Signup.span Signup.notSpaceNorAt s).
Qed.

Lemma removelast_map {A B} (f : A -> B) l :
  removelast (map f l) = map f (removelast l).
Proof.
  induction l as [|x l IH]; [done|].
  destruct l as [|y l]; [done|]. cbn [map removelast] in *. by rewrite IH.
Qed.

Lemma emailRegex_test_toLowerCaseBasicLatin s :
  Signup.emailRegex_test (toLowerCaseBasicLatin s) = Signup.emailRegex_test s.
Proof.
  unfold Signup.emailRegex_test. rewrite span_toLowerCaseBasicLatin.
  destruct (Signup.span Signup.notSpaceNorAt s) as [a b]. cbn [fst snd].
  unfold toLowerCaseBasicLatin.
  destruct a as [|x a]; [done|]. cbn [map].
  destruct b as [|c rest]; [done|]. cbn [map].
  pose proof (proj1 (proj2 (toLowerCaseUnit_class c))) as Hc.
  assert (E : forall r,
             forallb Signup.notSpaceNorAt (map toLowerCaseUnit r)
             = forallb Signup.notSpaceNorAt r).
  { induction r as [|y r IH]; [done|]. cbn [map forallb].
    by rewrite IH, (proj1 (toLowerCaseUnit_class y)). }
  assert (E' : forall r,
             existsb (N.eqb 46) (map toLowerCaseUnit r)
             = existsb (N.eqb 46) r).
  { induction r as [|y r IH]; [done|]. cbn [map existsb].
    rewrite IH. f_equal.
    rewrite (N.eqb_sym 46), (N.eqb_sym 46 y).
    apply (toLowerCaseUnit_class y). }
  assert (T : tail (map toLowerCaseUnit rest) = map toLowerCaseUnit (tail rest))
    by (by destruct rest).
  destruct (N.eqb_spec c 64) as [->|Hne].
  - change (toLowerCaseUnit 64) with 64%N. cbv iota.
    by rewrite E, T, removelast_map, E'.
  - assert (Hne' : toLowerCaseUnit c <> 64%N)
      by (by apply N.eqb_neq).
    assert (forall (X : Type) (u v : X) (k : N), k <> 64%N ->
              match k with 64%N => u | _ => v end = v) as M.
    { intros X u v k Hk.
      destruct k as [|p]; [done|].
      repeat (destruct p as [p|p|]; try done). }
    by rewrite (M _ _ _ _ Hne), (M _ _ _ _ Hne').
Qed.

(** X10: every request made by the signup form carries data that the
    form's own validation accepts again: a name of at least two code
    units with no white space at its ends, and the password as typed, of
    at least six code units and equal to its confirmation.  When the
    typed e-mail is of Basic Latin, the e-mail of the request is left
    unchanged by [toLowerCase] and still passes the form's regular
    expression; the case tables enter through their behaviour on Basic
    Latin only. *)
Theorem signup_request_well_formed
    {U : UnicodeData} (st : Signup.State) (n e p : jsstring) :
  snd (Signup.handleSubmit st) = Some (Api.signup n e p) ->
  trim n = n /\ (2 <= length n)%nat
  /\ p = Signup.password (Signup.formData st)
  /\ (6 <= length p)%nat
  /\ Signup.confirmPassword (Signup.formData st) = p
  /\ (basicLatinLowering ->
      isBasicLatin (Signup.email (Signup.formData st)) ->
      Signup.emailRegex_test e = true /\ toLowerCase e = e
      /\ isBasicLatin e).
Proof.
  intros H.
  assert (V : signupValid (Signup.formData st)).
  { apply signup_validationErrors_empty, noKeys_true.
    unfold Signup.handleSubmit, Signup.validateForm in H.
    by destruct (noKeys (Signup.validationErrors (Signup.formData st))). }
  unfold Signup.handleSubmit, Signup.validateForm in H.
  destruct (noKeys (Signup.validationErrors (Signup.formData st)));
    [|done].
  cbn [negb snd] in H. injection H as <- <- <-.
  destruct V as (Vn & Ve & Vp & Vc).
  split; [apply trim_idempotent|]. split; [exact Vn|].
  split; [reflexivity|]. split; [exact Vp|]. split; [exact Vc|].
  intros Law Hb.
  rewrite (trim_no_white_space _ (emailShape_no_white_space _ Ve)).
  rewrite (toLowerCase_basicLatin _ Law Hb).
  pose proof (toLowerCaseBasicLatin_isBasicLatin _ Hb) as Hs.
  split; [rewrite emailRegex_test_toLowerCaseBasicLatin;
          by apply emailRegex_test_complete|].
  split; [|exact Hs].
  rewrite (toLowerCase_basicLatin _ Law Hs).
  apply toLowerCaseBasicLatin_idempotent.
Qed.

Lemma signup_request_well_formed_witness :
  snd (Signup.handleSubmit (H := basicLatinOnly) signupFilled)
  = Some (Api.signup (lit "John Doe") (lit "john@example.com")
                     (lit "password123"))
  /\ @basicLatinLowering basicLatinOnly
  /\ isBasicLatin (Signup.email (Signup.formData signupFilled))
  /\ Signup.emailRegex_test (lit "john@example.com") = true.
Proof.
  assert (H : snd (Signup.handleSubmit (H := basicLatinOnly) signupFilled)
              = Some (Api.signup (lit "John Doe") (lit "john@example.com")
                                 (lit "password123"))) by reflexivity.
  pose proof basicLatinOnly_lowering as Law.
  assert (Hb : isBasicLatin (Signup.email (Signup.formData signupFilled)))
    by (apply (bool_decide_unpack _); vm_compute; exact I).
  split; [exact H|]. split; [exact Law|]. split; [exact Hb|].
  pose proof (signup_request_well_formed (U := basicLatinOnly)
                signupFilled _ _ _ H) as (_ & _ & _ & _ & _ & W).
  exact (proj1 (W Law Hb)).
Defined.

(** X11: after the request of a sent signup form has settled the form is
    enabled again with what was typed still in it, whatever the outcome:
    the success text is shown exactly when [onSignup] has been scheduled,
    an error text otherwise, and submitting again - also during the 1.5 s
    before [onSignup] runs - sends the same request a second time. *)
Theorem signup_settled_resubmit
    {U : UnicodeData} (st : Signup.State) (q : Api.Request)
    (c : ApiClient.Completion SignupRun.Response) :
  snd (Signup.handleSubmit st) = Some q ->
  let st2 := fst (SignupRun.settle c (fst (Signup.handleSubmit st))) in
  let scheduled := snd (SignupRun.settle c (fst (Signup.handleSubmit st))) in
  Signup.loading st2 = false
  /\ Signup.formData st2 = Signup.formData st
  /\ (match scheduled with
      | Some _ => truthy (Signup.success st2) = true /\ Signup.error st2 = []
      | None => Signup.success st2 = [] /\ truthy (Signup.error st2) = true
      end)
  /\ (is_Some scheduled
      <-> exists r, c = ApiClient.Returned r /\ SignupRun.r_success r = true)
  /\ snd (Signup.handleSubmit st2) = Some q.
Proof.
  intros H. cbv zeta.
  unfold Signup.handleSubmit, Signup.validateForm in *.
  destruct (noKeys (Signup.validationErrors (Signup.formData st))) eqn:E;
    [|done].
  cbn [negb fst snd] in *.
  destruct c as [r|e]; cbn [SignupRun.settle];
    [destruct (SignupRun.r_success r) eqn:Er|];
    cbn [fst snd Signup.loading Signup.formData Signup.success Signup.error];
    rewrite ?E; cbn [negb snd];
    (split; [reflexivity|]); (split; [reflexivity|]).
  - split; [done|]. split; [|exact H].
    split; [intros _; by exists r | by eexists].
  - split; [split; [reflexivity | by apply orElse_truthy]|].
    split; [|exact H].
    split; [by intros [? ?] | intros (r' & [= <-] & Hr); congruence].
  - split; [split; [reflexivity | by apply orElse_truthy]|].
    split; [|exact H].
    split; [by intros [? ?] | intros (r' & ? & _); done].
Qed.

Lemma signup_settled_resubmit_witness :
  snd (Signup.handleSubmit (H := basicLatinOnly) signupFilled)
  = Some (Api.signup (lit "John Doe") (lit "john@example.com")
                     (lit "password123"))
  /\ Signup.loading
       (fst (SignupRun.settle (ApiClient.Thrown ApiClient.networkError)
               (fst (Signup.handleSubmit (H := basicLatinOnly) signupFilled)))) = false.
Proof.
  assert (H : snd (Signup.handleSubmit (H := basicLatinOnly) signupFilled)
              = Some (Api.signup (lit "John Doe") (lit "john@example.com")
                                 (lit "password123"))) by reflexivity.
  split; [exact H|].
  exact (proj1 (signup_settled_resubmit (U := basicLatinOnly) signupFilled _
                  (ApiClient.Thrown ApiClient.networkError) H)).
Defined.

(* ================================================================== *)
(** * Settled requests of the login forms and the dashboard *)
(* ================================================================== *)

(** X12: a login attempt that fails validation makes no request and never
    calls [onLogin], however the request would have settled.  One that
    passes makes one request, ends with [loading] false, and calls
    [onLogin] exactly when the response carries [success], with the user
    of that response; in every other case an error text is shown, which
    is "Network error" when no response body arrived. *)
Theorem login_outcome
    {U : UnicodeData} (s : ApiClient.Settled LoginRun.Response) (st : Login.State) :
  let '(st', req, user) := LoginRun.handleSubmit s st in
  (snd (Login.validateForm st) = false /\ req = None /\ user = None
   /\ Login.loading st' = Login.loading st)
  \/ (snd (Login.validateForm st) = true
      /\ req = snd (Login.handleSubmit st) /\ is_Some req
      /\ Login.loading st' = false
      /\ match s with
         | ApiClient.Fulfilled r =>
             if LoginRun.r_success r
             then user = Some (LoginRun.r_user r) /\ Login.error st' = []
             else user = None /\ truthy (Login.error st') = true
         | ApiClient.Rejected (Some (Some body)) =>
             user = None /\ truthy (Login.error st') = true
         | ApiClient.Rejected _ =>
             user = None /\ Login.error st' = lit "Network error"
         end).
Proof.
  unfold LoginRun.handleSubmit, Login.handleSubmit, Login.validateForm.
  destruct (noKeys (Login.validationErrors (Login.formData st))) eqn:E;
    cbn [negb fst snd]; [|left; repeat split].
  destruct s as [r|[[b|]|]]; cbn [ApiClient.call LoginRun.settle];
    [destruct (LoginRun.r_success r)| | |]; right;
    (do 2 (split; [reflexivity|])); (split; [by eexists|]);
    (split; [reflexivity|]); (split; [reflexivity|]);
    first [reflexivity | by apply orElse_truthy].
Qed.

Lemma adminLogin_validationErrors_empty f :
  Dashboard.validationErrors f = ∅
  <-> (0 < length (trim (Dashboard.username f)))%nat
      /\ (0 < length (Dashboard.password f))%nat.
Proof.
  rewrite <- !truthy_length. unfold Dashboard.validationErrors.
  destruct (truthy (trim (Dashboard.username f)));
    destruct (truthy (Dashboard.password f)); cbn [negb];
    (split; [intros H; try (by apply insert_non_empty in H); done
            | intros [? ?]; done]).
Qed.

(** X13: the admin login sends a request exactly when the trimmed user
    name and the password are not empty, and the request carries both
    as typed: a user name is checked after trimming but sent untrimmed,
    so surrounding white space reaches the back end. *)
Theorem admin_login_sends_as_typed (st : Dashboard.State) :
  let f := Dashboard.loginForm st in
  (is_Some (snd (Dashboard.handleAdminLogin st))
   <-> (0 < length (trim (Dashboard.username f)))%nat
       /\ (0 < length (Dashboard.password f))%nat)
  /\ (snd (Dashboard.handleAdminLogin st) = None
      \/ snd (Dashboard.handleAdminLogin st)
         = Some (Dashboard.adminLogin (Dashboard.username f) (Dashboard.password f)))
  /\ ((0 < length (trim (Dashboard.username f)))%nat ->
      (0 < length (Dashboard.password f))%nat ->
      trim (Dashboard.username f) <> Dashboard.username f ->
      exists u p, snd (Dashboard.handleAdminLogin st) = Some (Dashboard.adminLogin u p)
                  /\ trim u <> u).
Proof.
  cbv zeta. unfold Dashboard.handleAdminLogin.
  rewrite <- adminLogin_validationErrors_empty, <- noKeys_true.
  destruct (noKeys _) eqn:E; cbn [negb snd].
  - split.
    { split; intros _; [reflexivity | by eexists]. }
    split; [by right|].
    intros _ _ Hne. eexists _, _. split; [reflexivity | exact Hne].
  - split.
    { split; intros H; [by destruct H | discriminate]. }
    split; [by left|].
    intros H1 H2 _. exfalso.
    assert (V : Dashboard.validationErrors (Dashboard.loginForm st) = ∅)
      by (by apply adminLogin_validationErrors_empty).
    apply noKeys_true in V. congruence.
Qed.

Example admin_login_padded :
  snd (Dashboard.handleAdminLogin dashboardStart)
  = Some (Dashboard.adminLogin (lit " admin ") (lit "admin123")).
Proof. reflexivity. Qed.

(** X14: when an admin login has settled the form stops loading; after a
    response with [success] the user name and the password are wiped
    from the form and [onAdminLogin] is called, so a further attempt
    needs both typed again; after any other settlement the typed data
    stay, [onAdminLogin] is not called and an error text is shown. *)
Theorem admin_login_settled
    (s : ApiClient.Settled Dashboard.LoginResponse) (st : Dashboard.State) :
  let '(st', called) := Dashboard.settleLogin (ApiClient.call s) st in
  Dashboard.loginLoading st' = false
  /\ Dashboard.feedbacks st' = Dashboard.feedbacks st
  /\ Dashboard.summary st' = Dashboard.summary st
  /\ match s with
     | ApiClient.Fulfilled r =>
         if Dashboard.l_success r then
           called = true
           /\ Dashboard.loginForm st'
              = {| Dashboard.username := []; Dashboard.password := [] |}
           /\ snd (Dashboard.handleAdminLogin st') = None
         else
           called = false
           /\ Dashboard.loginForm st' = Dashboard.loginForm st
           /\ truthy (Dashboard.error st') = true
     | ApiClient.Rejected resp =>
         called = false
         /\ Dashboard.loginForm st' = Dashboard.loginForm st
         /\ truthy (Dashboard.error st') = true
         /\ (resp = None \/ resp = Some None ->
               Dashboard.error st' = lit "Network error")
     end.
Proof.
  destruct s as [r|[[b|]|]]; cbn [ApiClient.call Dashboard.settleLogin].
  - destruct (Dashboard.l_success r); cbn;
      (do 3 (split; [reflexivity|])); (split; [reflexivity|]);
      (split; [reflexivity|]); [reflexivity | by apply orElse_truthy].
  - cbn. do 5 (split; [reflexivity|]). split; [by apply orElse_truthy|].
    intros [?|?]; done.
  - cbn. repeat split.
  - cbn. repeat split.
Qed.

(** X15: [loadDashboardData] always ends with [dataLoading] false and
    never touches the login form.  The list of feedbacks changes only
    when both requests were fulfilled and the feedback response carries
    [success], and likewise the summary: when either request is
    rejected, what the other one returned is discarded. *)
Theorem dashboard_load_all_or_nothing
    (f : ApiClient.Settled Dashboard.FeedbacksRes)
    (s : ApiClient.Settled Dashboard.SummaryRes) (st : Dashboard.State) :
  let st' := Dashboard.loadDashboardData f s st in
  Dashboard.dataLoading st' = false
  /\ Dashboard.loginForm st' = Dashboard.loginForm st
  /\ Dashboard.error st' = Dashboard.error st
  /\ match f, s with
     | ApiClient.Fulfilled fr, ApiClient.Fulfilled sr =>
         Dashboard.feedbacks st'
         = (if Dashboard.f_success fr then Dashboard.f_feedbacks fr
            else Dashboard.feedbacks st)
         /\ Dashboard.summary st'
            = (if Dashboard.s_success sr then Dashboard.s_summary sr
               else Dashboard.summary st)
     | _, _ =>
         Dashboard.feedbacks st' = Dashboard.feedbacks st
         /\ Dashboard.summary st' = Dashboard.summary st
     end
  /\ (Dashboard.feedbacks st' <> Dashboard.feedbacks st ->
        exists fr sr, f = ApiClient.Fulfilled fr /\ s = ApiClient.Fulfilled sr
                      /\ Dashboard.f_success fr = true)
  /\ (Dashboard.summary st' <> Dashboard.summary st ->
        exists fr sr, f = ApiClient.Fulfilled fr /\ s = ApiClient.Fulfilled sr
                      /\ Dashboard.s_success sr = true).
Proof.
  cbv zeta. unfold Dashboard.loadDashboardData.
  destruct f as [fr|[[b|]|]], s as [sr|[[c|]|]]; cbn;
    (do 3 (split; [reflexivity|])); (split; [split; reflexivity|]);
    try (split; intros H; done).
  split; intros H.
  - exists fr, sr. destruct (Dashboard.f_success fr); done.
  - exists fr, sr. destruct (Dashboard.s_success sr); done.
Qed.

(* ================================================================== *)
(** * Cells of the tables *)
(* ================================================================== *)

Lemma concat_replicate_singleton (c : N) (n : nat) :
  concat (replicate n [c]) = replicate n c.
Proof. induction n as [|n IH]; [done|]. simpl. by rewrite IH. Qed.

Lemma ratingStars_in_range (rating : Z) :
  0 <= rating <= 5 ->
  Dashboard.ratingStars rating
  = Some (replicate (Z.to_nat rating) Dashboard.blackStar
          ++ replicate (5 - Z.to_nat rating) Dashboard.whiteStar).
Proof.
  intros Hr. unfold Dashboard.ratingStars, Dashboard.repeat.
  destruct (Z.ltb_spec rating 0); [lia|].
  destruct (Z.ltb_spec (5 - rating) 0); [lia|].
  rewrite !concat_replicate_singleton.
  by replace (Z.to_nat (5 - rating)) with (5 - Z.to_nat rating)%nat by lia.
Qed.

Lemma ratingStars_out_of_range (rating : Z) :
  rating < 0 \/ 5 < rating -> Dashboard.ratingStars rating = None.
Proof.
  intros Hr. unfold Dashboard.ratingStars, Dashboard.repeat.
  destruct (Z.ltb_spec rating 0); [done|].
  destruct (Z.ltb_spec (5 - rating) 0); [done | lia].
Qed.

(** X16: the star cell of the admin table is rendered exactly for ratings
    from 0 to 5 and then shows five stars, the first [rating] of them
    black; for any other rating [repeat] receives a negative count and
    the expression throws. *)
Theorem rating_stars_bounds (rating : Z) :
  (0 <= rating <= 5
   /\ Dashboard.ratingStars rating
      = Some (replicate (Z.to_nat rating) Dashboard.blackStar
              ++ replicate (5 - Z.to_nat rating) Dashboard.whiteStar)
   /\ exists s, Dashboard.ratingStars rating = Some s /\ length s = 5%nat)
  \/ ((rating < 0 \/ 5 < rating) /\ Dashboard.ratingStars rating = None).
Proof.
  destruct (decide (0 <= rating <= 5)) as [Hr|Hr].
  - left. split; [exact Hr|]. split; [by apply ratingStars_in_range|].
    eexists. split; [by apply ratingStars_in_range|].
    rewrite length_app, !length_replicate. lia.
  - right. split; [lia|]. apply ratingStars_out_of_range. lia.
Qed.

Lemma map_replicate_const {A B} (f : A -> B) (n : nat) (x : A) :
  map f (replicate n x) = replicate n (f x).
Proof. induction n as [|n IH]; [done|]. simpl. by rewrite IH. Qed.

Lemma starColours_clamped (rating : Z) :
  FeedbackStars.starColours rating
  = replicate (Z.to_nat (Z.min 5 (Z.max 0 rating))) true
    ++ replicate (5 - Z.to_nat (Z.min 5 (Z.max 0 rating))) false.
Proof.
  unfold FeedbackStars.starColours. cbn [map].
  destruct (Z.ltb_spec 0 rating); destruct (Z.ltb_spec 1 rating);
    destruct (Z.ltb_spec 2 rating); destruct (Z.ltb_spec 3 rating);
    destruct (Z.ltb_spec 4 rating); try lia.
  - replace (Z.min 5 (Z.max 0 rating)) with 5 by lia. reflexivity.
  - replace (Z.min 5 (Z.max 0 rating)) with 4 by lia. reflexivity.
  - replace (Z.min 5 (Z.max 0 rating)) with 3 by lia. reflexivity.
  - replace (Z.min 5 (Z.max 0 rating)) with 2 by lia. reflexivity.
  - replace (Z.min 5 (Z.max 0 rating)) with 1 by lia. reflexivity.
  - replace (Z.min 5 (Z.max 0 rating)) with 0 by lia. reflexivity.
Qed.

(** X17: the stars of a previous feedback on the user's page are always
    five, gold for the first [rating] clamped to 0..5 of them - no
    rating makes this fail - and for ratings from 0 to 5 they agree,
    star by star, with the star cell of the admin table. *)
Theorem star_colours_clamped (rating : Z) :
  length (FeedbackStars.starColours rating) = 5%nat
  /\ FeedbackStars.starColours rating
     = replicate (Z.to_nat (Z.min 5 (Z.max 0 rating))) true
       ++ replicate (5 - Z.to_nat (Z.min 5 (Z.max 0 rating))) false
  /\ (forall s, Dashboard.ratingStars rating = Some s ->
        map (fun c => (c =? Dashboard.blackStar)%N) s
        = FeedbackStars.starColours rating).
Proof.
  split; [reflexivity|]. split; [apply starColours_clamped|].
  intros s Hs. rewrite starColours_clamped.
  destruct (decide (0 <= rating <= 5)) as [Hr|Hr];
    [|rewrite ratingStars_out_of_range in Hs by lia; done].
  rewrite (ratingStars_in_range rating Hr) in Hs. injection Hs as <-.
  replace (Z.min 5 (Z.max 0 rating)) with rating by lia.
  rewrite map_app, !map_replicate_const. reflexivity.
Qed.

(** X18: the stars of the form light up to the hovered star while one is
    hovered and to the selected rating otherwise: for both between 0 and
    5 the active stars are the first [hoverRating], or the first
    [rating] when nothing is hovered. *)
Theorem active_stars_prefix (hoverRating rating : Z) :
  0 <= hoverRating <= 5 -> 0 <= rating <= 5 ->
  let shown := if decide (hoverRating = 0) then rating else hoverRating in
  FeedbackStars.activeStars hoverRating rating
  = replicate (Z.to_nat shown) true ++ replicate (5 - Z.to_nat shown) false.
Proof.
  intros Hh Hr. cbv zeta.
  unfold FeedbackStars.activeStars, Feedback.stars.
  destruct (decide (hoverRating = 0)) as [->|Hne].
  - cbn [Z.eqb map].
    assert (C : rating = 0 \/ rating = 1 \/ rating = 2 \/ rating = 3
                \/ rating = 4 \/ rating = 5) by lia.
    destruct C as [->|[->|[->|[->|[->| ->]]]]]; reflexivity.
  - assert (C : hoverRating = 1 \/ hoverRating = 2 \/ hoverRating = 3
                \/ hoverRating = 4 \/ hoverRating = 5) by lia.
    destruct C as [->|[->|[->|[->| ->]]]]; reflexivity.
Qed.

Lemma active_stars_prefix_witness :
  0 <= 3 <= 5 /\ 0 <= 1 <= 5
  /\ FeedbackStars.activeStars 3 1 = [true; true; true; false; false].
Proof.
  assert (H1 : 0 <= 3 <= 5) by lia. assert (H2 : 0 <= 1 <= 5) by lia.
  split; [exact H1|]. split; [exact H2|].
  exact (active_stars_prefix 3 1 H1 H2).
Defined.

(** X19: the icon of a sentiment does not depend on the case of its
    letters, is the thinking face exactly when the lowered text is none
    of positive, negative and neutral, and is also the thinking face for
    a missing sentiment - for which the sentiment cell of a row cannot
    be rendered, because [sentiment.toLowerCase()] throws. *)
Theorem sentiment_icon_case_insensitive (s : jsstring) (o : option jsstring) :
  Dashboard.getSentimentIcon (Some (toLowerCaseBasicLatin s))
  = Dashboard.getSentimentIcon (Some s)
  /\ (Dashboard.getSentimentIcon (Some s) = Dashboard.thinking
      <-> toLowerCaseBasicLatin s <> lit "positive"
          /\ toLowerCaseBasicLatin s <> lit "negative"
          /\ toLowerCaseBasicLatin s <> lit "neutral")
  /\ Dashboard.getSentimentIcon None = Dashboard.thinking
  /\ (Dashboard.sentimentCell o = None <-> o = None)
  /\ Dashboard.getSentimentIcon (Some (lit "Positive")) = Dashboard.smiling
  /\ Dashboard.getSentimentIcon (Some (lit "Negative")) = Dashboard.disappointed
  /\ Dashboard.getSentimentIcon (Some (lit "Neutral")) = Dashboard.neutralFace.
Proof.
  split; [|split; [|split; [|split]]].
  - unfold Dashboard.getSentimentIcon. by rewrite toLowerCaseBasicLatin_idempotent.
  - unfold Dashboard.getSentimentIcon.
    repeat case_bool_decide; split; try done.
    + intros (H1 & _). done.
    + intros (_ & H2 & _). done.
    + intros (_ & _ & H3). done.
  - reflexivity.
  - destruct o; split; done.
  - repeat split.
Qed.

(* ================================================================== *)
(** * The navigation bar and the route guards *)
(* ================================================================== *)

Ltac items :=
  split;
  [ intros H;
    repeat match type of H with _ \/ _ => destruct H as [H|H] end;
    first [ discriminate H | contradiction
          | injection H as ->; first [reflexivity | by split]
          | by left; eexists | by left | by right | by split | done ]
  | intros H;
    repeat match type of H with
           | _ /\ _ => destruct H as [H ?]
           | _ \/ _ => destruct H as [H|H]
           end;
    first [ discriminate | by destruct H
          | injection H as ->; auto 6 | auto 6 ] ].

(** X20: the navigation bar shows exactly one of its three groups of
    links: Login, Sign Up and Admin for a visitor, Feedback for a user
    who is not an admin, Dashboard for an admin.  The logout button is
    shown exactly when there is a user or an admin, never next to the
    Login link, and at most one link is marked active. *)
Theorem navbar_groups (user : option jsstring) (isAdmin : bool) (pathname : string) :
  let items := Navbar.links user isAdmin pathname in
  map (fun i => match i with Navbar.Link to _ _ => to | _ => "" end)
      (filter (fun i => Navbar.isLink i = true) items)
  = (if isAdmin then ["/admin/dashboard"]
     else match user with
          | Some _ => ["/feedback"]
          | None => ["/login"; "/signup"; "/admin"]
          end)
  /\ (Navbar.Logout ∈ items <-> is_Some user \/ isAdmin = true)
  /\ (Navbar.AdminMode ∈ items <-> user = None /\ isAdmin = true)
  /\ (forall n, Navbar.Welcome n ∈ items <-> user = Some n)
  /\ (length (filter (fun i => Navbar.isActive i = true) items) <= 1)%nat.
Proof.
  cbv zeta. unfold Navbar.links, Navbar.link.
  destruct user as [n|], isAdmin; cbn -[String.eqb];
    (split; [reflexivity|]);
    rewrite ?elem_of_cons, ?elem_of_nil;
    (split; [items|]);
    rewrite ?elem_of_cons, ?elem_of_nil;
    (split; [items|]);
    (split; [intros m; rewrite ?elem_of_cons, ?elem_of_nil; items|]).
  - destruct (String.eqb pathname "/admin/dashboard"); simpl; lia.
  - destruct (String.eqb pathname "/feedback"); simpl; lia.
  - destruct (String.eqb pathname "/admin/dashboard"); simpl; lia.
  - destruct (String.eqb_spec pathname "/login") as [->|_]; [simpl; lia|].
    destruct (String.eqb_spec pathname "/signup") as [->|_]; [simpl; lia|].
    destruct (String.eqb pathname "/admin"); simpl; lia.
Qed.

(** X21: for any user, exactly one of [ProtectedRoute] and [GuestRoute]
    renders its children and the other redirects; without a [redirectTo]
    prop a visitor is sent to /login, a signed-in user to /feedback and
    a non-admin to /admin, and a given [redirectTo] replaces the
    default. *)
Theorem route_guards_complementary
    (U : Type) (user : option U) (isAdmin : bool) (r1 r2 : option string) :
  (Routes.ProtectedRoute user r1 = Routes.Children
   <-> Routes.GuestRoute user r2 <> Routes.Children)
  /\ (Routes.ProtectedRoute user r1 = Routes.Children <-> is_Some user)
  /\ (Routes.AdminRoute isAdmin r1 = Routes.Children <-> isAdmin = true)
  /\ (user = None -> Routes.ProtectedRoute user None = Routes.Navigate "/login")
  /\ (is_Some user -> Routes.GuestRoute user None = Routes.Navigate "/feedback")
  /\ (isAdmin = false -> Routes.AdminRoute isAdmin None = Routes.Navigate "/admin")
  /\ (forall to, user = None ->
        Routes.ProtectedRoute user (Some to) = Routes.Navigate to).
Proof.
  destruct user as [u|], isAdmin; simpl; repeat split; try done;
    try (by intros [? ?]); try (by eexists); try (intros H; by destruct H).
Qed.

(* ================================================================== *)
(** * The percentage cells taken together *)
(* ================================================================== *)

(** X22: for counts that add up to a total of at most 2,000,000,000,000
    the summary grid shows three percentages whose tenths add up to
    99.9, 100.0 or 100.1 percent, and to nothing else. *)
Theorem percent_cells_sum (p n u : Z) :
  0 <= p -> 0 <= n -> 0 <= u -> 0 < p + n + u <= 2000000000000 ->
  exists a b c,
    Admin.summaryGrid {| Admin.Positive := p; Admin.Negative := n;
                         Admin.Neutral := u; Admin.Total := p + n + u |}
    = Some (Some (percentText a), Some (percentText b), Some (percentText c))
    /\ 999 <= a + b + c <= 1001.
Proof.
  intros Hp Hn Hu HT. set (T := p + n + u) in *.
  destruct (percentCell_nearest p T ltac:(lia) HT) as (a & _ & Ea & _ & Na).
  destruct (percentCell_nearest n T ltac:(lia) HT) as (b & _ & Eb & _ & Nb).
  destruct (percentCell_nearest u T ltac:(lia) HT) as (c & _ & Ec & _ & Nc).
  exists a, b, c. split.
  - unfold Admin.summaryGrid. cbn [Admin.Total Admin.Positive Admin.Negative
                                   Admin.Neutral].
    rewrite (gt_zero T) by lia. by rewrite Ea, Eb, Ec.
  - unfold nearestTenth in *.
    assert (E : (a + b + c) * T = a * T + b * T + c * T) by ring.
    assert (B : 2 * Z.abs ((a + b + c) * T - 1000 * T) <= 3 * T)
      by (rewrite E; unfold T at 4; lia).
    nia.
Qed.

Lemma percent_cells_sum_witness :
  exists a b c,
    Admin.summaryGrid {| Admin.Positive := 1; Admin.Negative := 1;
                         Admin.Neutral := 4; Admin.Total := 1 + 1 + 4 |}
    = Some (Some (percentText a), Some (percentText b), Some (percentText c))
    /\ 999 <= a + b + c <= 1001.
Proof.
  apply (percent_cells_sum 1 1 4); lia.
Defined.

(** Both ends of the range are taken: thirds add up to 99.9 percent,
    and one, one and four sixths to 100.1 percent. *)
Example percent_cells_sum_below :
  Admin.summaryGrid {| Admin.Positive := 1; Admin.Negative := 1;
                       Admin.Neutral := 1; Admin.Total := 3 |}
  = Some (Some (lit "33.3%"), Some (lit "33.3%"), Some (lit "33.3%")).
Proof. vm_compute. reflexivity. Qed.

Example percent_cells_sum_above :
  Admin.summaryGrid {| Admin.Positive := 1; Admin.Negative := 1;
                       Admin.Neutral := 4; Admin.Total := 6 |}
  = Some (Some (lit "16.7%"), Some (lit "16.7%"), Some (lit "66.7%")).
Proof. vm_compute. reflexivity. Qed.

(** X23: of two counts of the same total, at most 2,000,000,000,000, the
    larger is never shown with the smaller percentage; a count whose
    percentage has at most one decimal is shown exactly, so that none of
    the records gives 0.0% and all of them give 100.0%. *)
Theorem percent_monotone_exact (c c' T : Z) :
  0 <= c <= c' -> c' <= T -> 0 < T <= 2000000000000 ->
  exists n n',
    Admin.percentCell c T = Some (percentText n)
    /\ Admin.percentCell c' T = Some (percentText n')
    /\ n <= n'
    /\ ((1000 * c) mod T = 0 -> n = 1000 * c / T)
    /\ Admin.percentCell 0 T = Some (lit "0.0%")
    /\ Admin.percentCell T T = Some (lit "100.0%").
Proof.
  intros Hc Hc' HT.
  assert (exact : forall k, 0 <= k <= T -> (1000 * k) mod T = 0 ->
            Admin.percentCell k T = Some (percentText (1000 * k / T))).
  { intros k Hk Hmod.
    destruct (percentCell_nearest k T Hk HT) as (m & _ & E & _ & N).
    rewrite E. do 2 f_equal. unfold nearestTenth in N.
    apply Z.div_exact in Hmod; [|lia].
    set (q := 1000 * k / T) in *. rewrite Hmod in N.
    replace (m * T - T * q) with ((m - q) * T) in N by ring. nia. }
  destruct (percentCell_nearest c T ltac:(lia) HT) as (n & _ & E & _ & N).
  assert (exists n', Admin.percentCell c' T = Some (percentText n') /\ n <= n')
    as (n' & E' & Hle).
  { destruct (decide (c = c')) as [<-|Hne]; [exists n; split; [exact E | lia]|].
    destruct (percentCell_nearest c' T ltac:(lia) HT) as (n' & _ & E' & _ & N').
    exists n'. split; [exact E'|]. unfold nearestTenth in *. nia. }
  exists n, n'. split; [exact E|]. split; [exact E'|].
  split; [exact Hle|split; [|split]].
  - intros Hmod. specialize (exact c ltac:(lia) Hmod).
    rewrite E in exact. unfold nearestTenth in N.
    apply Z.div_exact in Hmod; [|lia].
    set (q := 1000 * c / T) in *. rewrite Hmod in N.
    replace (n * T - T * q) with ((n - q) * T) in N by ring. nia.
  - rewrite (exact 0) by (rewrite ?Z.mul_0_r, ?Zmod_0_l; lia).
    rewrite Z.mul_0_r, Zdiv_0_l. reflexivity.
  - rewrite (exact T) by (rewrite ?Z_mod_mult; lia).
    rewrite Z_div_mult by lia. reflexivity.
Qed.

Lemma percent_monotone_exact_witness :
  exists n n',
    Admin.percentCell 23 80 = Some (percentText n)
    /\ Admin.percentCell 41 80 = Some (percentText n')
    /\ n <= n'
    /\ ((1000 * 23) mod 80 = 0 -> n = 1000 * 23 / 80)
    /\ Admin.percentCell 0 80 = Some (lit "0.0%")
    /\ Admin.percentCell 80 80 = Some (lit "100.0%").
Proof.
  apply (percent_monotone_exact 23 41 80); lia.
Defined.

(** ** Reading a cell back *)

Lemma decimal_digits n : 0 <= n -> forallb isDigit (Number.decimal n) = true.
Proof.
  intros Hn. generalize Hn. pattern n.
  apply Z_lt_induction; [|exact Hn]. clear n Hn.
  intros n IH Hn.
  assert (Hq : 10 <= n -> 0 <= n / 10 < n)
    by (intros ?; split; [apply Z.div_pos; lia | apply Z.div_lt; lia]).
  destruct (Z_lt_le_dec n 10) as [Hs|Hb].
  - rewrite decimal_small by lia. cbn [forallb]. unfold isDigit.
    rewrite andb_true_r. apply andb_true_iff. split; apply N.leb_le; lia.
  - rewrite decimal_step by lia. rewrite forallb_app.
    pose proof (Z.mod_pos_bound n 10 ltac:(lia)).
    rewrite (IH (n / 10) (Hq Hb) (proj1 (Hq Hb))).
    cbn [forallb]. unfold isDigit.
    rewrite andb_true_r, andb_true_l. apply andb_true_iff.
    split; apply N.leb_le; lia.
Qed.

Lemma parseDecimal_decimal n : 0 <= n -> parseDecimal (Number.decimal n) = n.
Proof.
  intros Hn. generalize Hn. pattern n.
  apply Z_lt_induction; [|exact Hn]. clear n Hn.
  intros n IH Hn.
  assert (Hq : 10 <= n -> 0 <= n / 10 < n)
    by (intros ?; split; [apply Z.div_pos; lia | apply Z.div_lt; lia]).
  destruct (Z_lt_le_dec n 10) as [Hs|Hb].
  - rewrite decimal_small by lia. unfold parseDecimal. cbn [fold_left]. lia.
  - rewrite decimal_step by lia. unfold parseDecimal in *.
    rewrite fold_left_app. cbn [fold_left].
    pose proof (Z.mod_pos_bound n 10 ltac:(lia)).
    rewrite (IH (n / 10) (Hq Hb) (proj1 (Hq Hb))).
    pose proof (Z.div_mod n 10 ltac:(lia)). lia.
Qed.

Lemma decimal_length n : 0 <= n < 1000 ->
  (1 <= length (Number.decimal n) <= 3)%nat.
Proof.
  intros Hn. destruct (Z_lt_le_dec n 10) as [Hs|Hb].
  - rewrite decimal_small by lia. simpl. lia.
  - rewrite decimal_step by lia. rewrite length_app. cbn [length].
    assert (H1 : 1 <= n / 10 < 100)
      by (split; [apply Z.div_le_lower_bound | apply Z.div_lt_upper_bound]; lia).
    destruct (Z_lt_le_dec (n / 10) 10) as [Hs'|Hb'].
    + rewrite decimal_small by lia. simpl. lia.
    + rewrite decimal_step by lia. rewrite length_app. cbn [length].
      assert (H2 : 1 <= n / 10 / 10 < 10)
        by (split; [apply Z.div_le_lower_bound | apply Z.div_lt_upper_bound]; lia).
      rewrite decimal_small by lia. simpl. lia.
Qed.

Lemma readTenths_percentText n : 0 <= n -> readTenths (percentText n) = Some n.
Proof.
  intros Hn. unfold readTenths, percentText.
  pose proof (Z.mod_pos_bound n 10 ltac:(lia)) as Hmod.
  rewrite (decimal_small (n mod 10)) by lia.
  change (lit "." ++ [(48 + Z.to_N (n mod 10))%N] ++ lit "%")
    with (46%N :: [(48 + Z.to_N (n mod 10))%N; 37%N]).
  rewrite span_run;
    [|apply decimal_digits, Z.div_pos; lia | reflexivity].
  assert (Ht : truthy (Number.decimal (n / 10)) = true).
  { apply truthy_length.
    assert (D := decimal_digits (n / 10) ltac:(apply Z.div_pos; lia)).
    destruct (Z_lt_le_dec (n / 10) 10) as [Hs|Hb].
    - rewrite decimal_small by (split; [apply Z.div_pos|]; lia). simpl. lia.
    - rewrite decimal_step by lia. rewrite length_app. simpl. lia. }
  rewrite Ht. cbn [andb N.eqb Pos.eqb].
  assert (Hd : isDigit (48 + Z.to_N (n mod 10)) = true).
  { unfold isDigit. apply andb_true_iff. split; apply N.leb_le; lia. }
  rewrite Hd. cbn [andb]. f_equal.
  rewrite parseDecimal_decimal by (apply Z.div_pos; lia).
  pose proof (Z.div_mod n 10 ltac:(lia)). lia.
Qed.

(** X24: a percentage cell is written as one to three decimal digits, a
    point, exactly one digit and a percent sign - four to six code units
    - and reading these digits back gives the tenths that [toFixed]
    rounded to; two cells with the same text show the same tenths. *)
Theorem percent_cell_reads_back (c T : Z) :
  0 <= c <= T -> 0 < T <= 2000000000000 ->
  exists t,
    Admin.percentCell c T = Some t
    /\ (4 <= length t <= 6)%nat
    /\ readTenths t = Admin.shownTenths c T
    /\ (forall c' T', 0 <= c' <= T' -> 0 < T' <= 2000000000000 ->
          Admin.percentCell c' T' = Some t ->
          Admin.shownTenths c' T' = Admin.shownTenths c T).
Proof.
  intros Hc HT.
  destruct (percentCell_nearest c T Hc HT) as (n & Hn & E & Hr & _).
  exists (percentText n). split; [exact E|].
  split; [|split].
  - unfold percentText. rewrite !length_app.
    pose proof (Z.mod_pos_bound n 10 ltac:(lia)) as Hmod.
    rewrite (decimal_small (n mod 10)) by lia.
    change (length (lit ".")) with 1%nat. change (length (lit "%")) with 1%nat.
    cbn [length].
    assert (H : 0 <= n / 10 < 1000)
      by (split; [apply Z.div_pos | apply Z.div_lt_upper_bound]; lia).
    pose proof (decimal_length (n / 10) H). lia.
  - rewrite Hn. apply readTenths_percentText. lia.
  - intros c' T' Hc' HT' E'.
    destruct (percentCell_nearest c' T' Hc' HT') as (n' & Hn' & E2 & Hr' & _).
    rewrite E2 in E'. injection E' as E'.
    apply (f_equal readTenths) in E'.
    rewrite !readTenths_percentText in E' by lia.
    rewrite Hn, Hn'. exact E'.
Qed.

Lemma percent_cell_reads_back_witness :
  exists t,
    Admin.percentCell 23 80 = Some t
    /\ (4 <= length t <= 6)%nat
    /\ readTenths t = Admin.shownTenths 23 80
    /\ (forall c' T', 0 <= c' <= T' -> 0 < T' <= 2000000000000 ->
          Admin.percentCell c' T' = Some t ->
          Admin.shownTenths c' T' = Admin.shownTenths 23 80).
Proof.
  apply (percent_cell_reads_back 23 80); lia.
Defined.

(* ================================================================== *)
(** * The comment cell once more *)
(* ================================================================== *)

(** X25: the comment cell keeps the first 100 code units of every comment,
    never has more than 103, shortens nothing that is 103 code units or
    shorter - a comment of 101 or 102 code units is shown longer than
    it is - and a cell that is cut again is unchanged. *)
Theorem comment_cell_idempotent (comment : jsstring) :
  Admin.commentCell (Admin.commentCell comment) = Admin.commentCell comment
  /\ take 100 (Admin.commentCell comment) = take 100 comment
  /\ (length (Admin.commentCell comment) <= 103)%nat
  /\ ((length comment < length (Admin.commentCell comment))%nat
      <-> (101 <= length comment <= 102)%nat)
  /\ ((length (Admin.commentCell comment) < length comment)%nat
      <-> (103 < length comment)%nat).
Proof.
  unfold Admin.commentCell, substring0.
  destruct (Nat.ltb_spec 100 (length comment)) as [Hl|Hs].
  - assert (L : length (take 100 comment ++ lit "...") = 103%nat).
    { rewrite length_app, length_take.
      change (length (lit "...")) with 3%nat. lia. }
    rewrite L.
    destruct (Nat.ltb_spec 100 103) as [_|]; [|lia].
    rewrite take_app_le by (rewrite length_take; lia).
    rewrite take_take. replace (100 `min` 100)%nat with 100%nat by lia.
    repeat split; lia.
  - destruct (Nat.ltb_spec 100 (length comment)) as [|_]; [lia|].
    repeat split; lia.
Qed.
